(** * Job portal backend: authentication, authorization, profile scoring
      and job matching

    A shallow embedding of the request handlers and helpers of the portal
    (FastAPI handlers over MongoDB collections) together with the properties
    its specification states about them.

    Layout of the file:
    - Python values: strings as lists of code points, binary64 floats through
      the standard library's [SpecFloat], a small regular-expression matcher;
    - the document store: documents as finite maps, collections with their
      indexes, the query operators the handlers use;
    - the handlers: [calculate_profile_completion], [get_current_user],
      [register], [login], [create_application], [update_job], and the
      filters that [search_jobs] and [get_recent_jobs_for_alerts] build;
    - more of the same routers: the stored role and the administrator's
      [require_admin] and [update_user_status], the header-based
      [get_current_user], [create_job], [get_job], [delete_job], and the
      reading, updating and deleting of applications;
    - the properties: binary64 rounding, the regular-expression matcher,
      then the handlers one by one. *)

From Stdlib Require Import ZArith NArith QArith Qround Qpower Lia Lqa Bool List Ascii String.
From Stdlib Require Import Floats.SpecFloat.
From stdpp Require Import base option list gmap strings.

Local Open Scope Z_scope.

(* ===================================================================== *)
(** * Python strings *)
(* ===================================================================== *)

(** A Python [str] is a sequence of Unicode code points. *)
Definition str := list N.

(** An ASCII literal as a [str]. *)
Definition lit (s : string) : str :=
  List.map N_of_ascii (list_ascii_of_string s).

Arguments lit : simpl never.

(** [len(s.encode('utf-8'))] *)
Definition utf8_width (c : N) : Z :=
  if (c <? 128)%N then 1 else if (c <? 2048)%N then 2
  else if (c <? 65536)%N then 3 else 4.

Definition utf8_len (s : str) : Z :=
  List.fold_right (fun c n => utf8_width c + n) 0 s.

(** [s.encode('utf-8')[:n].decode('utf-8', errors='ignore')]: the code points
    that fit whole in the first [n] bytes. *)
Fixpoint utf8_truncate (n : Z) (s : str) : str :=
  match s with
  | [] => []
  | c :: r => if utf8_width c <=? n then c :: utf8_truncate (n - utf8_width c) r else []
  end.

(** [str.isspace] for one character: the code points CPython treats as
    white space. *)
Definition is_space (c : N) : bool :=
  ((9 <=? c) && (c <=? 13) || (28 <=? c) && (c <=? 32) || (c =? 133) || (c =? 160)
   || (c =? 5760) || (8192 <=? c) && (c <=? 8202) || (c =? 8232) || (c =? 8233)
   || (c =? 8239) || (c =? 8287) || (c =? 12288))%N.

Fixpoint lstrip (s : str) : str :=
  match s with
  | [] => []
  | c :: r => if is_space c then lstrip r else s
  end.

(** [s.strip()] *)
Definition strip (s : str) : str := List.rev (lstrip (List.rev (lstrip s))).

(** [s.split(sep)] for a one-character separator. *)
Fixpoint split (sep : N) (s : str) : list str :=
  match s with
  | [] => [[]]
  | c :: r =>
      if (c =? sep)%N then [] :: split sep r
      else match split sep r with
           | w :: ws => (c :: w) :: ws
           | [] => [[c]]
           end
  end.

(** Character classes of the patterns in the source. *)
Definition in_range (lo hi c : N) : bool := ((lo <=? c) && (c <=? hi))%N.
Definition is_upper (c : N) : bool := in_range 65 90 c.          (* [A-Z] *)
Definition is_lower (c : N) : bool := in_range 97 122 c.         (* [a-z] *)
Definition is_digit09 (c : N) : bool := in_range 48 57 c.        (* [0-9] *)
Definition is_alpha (c : N) : bool := is_upper c || is_lower c.  (* [a-zA-Z] *)
Definition one_of (s : string) (c : N) : bool :=
  List.existsb (N.eqb c) (lit s).

(* ===================================================================== *)
(** * Regular expressions *)
(* ===================================================================== *)

(** The fragment of [re] the validators use, matched by derivatives: the
    matcher decides whether some way of matching exists, which is what
    [re.match] answers. *)
Inductive regex : Type :=
| Void : regex
| Eps : regex
| Class (p : N -> bool) : regex
| Cat (r1 r2 : regex) : regex
| Star (r : regex) : regex.

Fixpoint nullable (r : regex) : bool :=
  match r with
  | Void => false
  | Eps => true
  | Class _ => false
  | Cat r1 r2 => nullable r1 && nullable r2
  | Star _ => true
  end.

(** A derivative is a list of alternatives. *)
Fixpoint deriv (c : N) (r : regex) : list regex :=
  match r with
  | Void | Eps => []
  | Class p => if p c then [Eps] else []
  | Cat r1 r2 =>
      List.map (fun d => Cat d r2) (deriv c r1)
      ++ (if nullable r1 then deriv c r2 else [])
  | Star r1 => List.map (fun d => Cat d (Star r1)) (deriv c r1)
  end.

Fixpoint matches_any (rs : list regex) (s : str) : bool :=
  match s with
  | [] => List.existsb nullable rs
  | c :: s' => matches_any (List.concat (List.map (deriv c) rs)) s'
  end.

Definition fullmatch (r : regex) (s : str) : bool := matches_any [r] s.

Definition Plus (r : regex) : regex := Cat r (Star r).            (* r+ *)
Fixpoint Times (n : nat) (r : regex) : regex :=                   (* r{n} *)
  match n with O => Eps | S n' => Cat r (Times n' r) end.
Definition AtLeast (n : nat) (r : regex) : regex := Cat (Times n r) (Star r). (* r{n,} *)

(** [re.match('^' + r + '$', s) is not None]: [$] matches at the end of the
    string and also just before a newline that ends the string. *)
Definition re_match_anchored (r : regex) (s : str) : bool :=
  fullmatch r s || fullmatch (Cat r (Class (N.eqb 10))) s.

(** The strings a pattern denotes, to state what the matcher decides. *)
Inductive re_lang : regex -> str -> Prop :=
| L_Eps : re_lang Eps []
| L_Class p c : p c = true -> re_lang (Class p) [c]
| L_Cat r1 r2 s1 s2 :
    re_lang r1 s1 -> re_lang r2 s2 -> re_lang (Cat r1 r2) (s1 ++ s2)
| L_Star_nil r : re_lang (Star r) []
| L_Star_cons r c s1 s2 :
    re_lang r (c :: s1) -> re_lang (Star r) s2 -> re_lang (Star r) (c :: s1 ++ s2).

(** [re.search('[...]', s) is not None] for a one-character class. *)
Definition re_search_class (p : N -> bool) (s : str) : bool := List.existsb p s.

(* ===================================================================== *)
(** * Python numbers *)
(* ===================================================================== *)

(** Python's [float] is IEEE 754 binary64; its operations are those of the
    standard library's executable specification with these parameters. *)
Definition prec : Z := 53.
Definition emax : Z := 1024.

(** The float with value [z * 2^e] (not necessarily in canonical form). *)
Definition SF_of_Z (z e : Z) : spec_float :=
  match z with
  | 0 => S754_zero false
  | Z.pos p => S754_finite false p e
  | Z.neg p => S754_finite true p e
  end.

(** [float(z)] *)
Definition float_of_int (z : Z) : spec_float := binary_normalize prec emax z 0 false.

(** [int(f)]: truncation towards zero; [None] where Python raises
    (infinities and NaN). *)
Definition py_int (f : spec_float) : option Z :=
  match f with
  | S754_zero _ => Some 0
  | S754_finite s m e => Some (cond_Zopp s (Z.shiftl (Z.pos m) e))
  | S754_infinity _ | S754_nan => None
  end.

Definition hundred : spec_float := float_of_int 100.
Definition one : spec_float := S754_finite false 4503599627370496 (-52).

(** [x / total] where [x] is a number of half points (an [int], or a [float]
    holding a multiple of 0.5) and [total] an [int]: the binary64 nearest
    to the exact quotient.  CPython rounds [int / int] correctly, and
    converts the [int] before an IEEE division when [x] is a [float]; the
    operands are exact in both cases as long as they stay below 2^53. *)
Definition py_truediv (halves total : Z) : spec_float :=
  SFdiv prec emax (SF_of_Z halves (-1)) (SF_of_Z total 0).

(** [int((x / total) * 100)] *)
Definition py_percent (halves total : Z) : option Z :=
  py_int (SFmul prec emax (py_truediv halves total) hundred).

(** ** The real value of a float, and what rounding means *)

Definition pow2 (e : Z) : Q := (2 ^ e)%Q.

Definition SF2Q (f : spec_float) : Q :=
  match f with
  | S754_finite s m e => ((if s then - (1) else 1) * inject_Z (Z.pos m) * pow2 e)%Q
  | _ => 0%Q
  end.

Definition nonneg_finite (f : spec_float) : Prop :=
  match f with
  | S754_zero false | S754_finite false _ _ => True
  | _ => False
  end.

(** [located m l u]: the real [u] lies in [[m, m+1)] at the place the
    location [l] says. *)
Definition located (m : Z) (l : location) (u : Q) : Prop :=
  match l with
  | loc_Exact => (u == inject_Z m)%Q
  | loc_Inexact Lt => (inject_Z m < u /\ u < inject_Z m + (1 # 2))%Q
  | loc_Inexact Eq => (u == inject_Z m + (1 # 2))%Q
  | loc_Inexact Gt => (inject_Z m + (1 # 2) < u /\ u < inject_Z m + 1)%Q
  end.

(** [rounds f x]: the float [f] is the rounding to binary64 of the exact
    non-negative value [x]. *)
Definition rounds (f : spec_float) (x : Q) : Prop :=
  exists m e l,
    f = binary_round_aux prec emax false m e l /\
    0 <= m /\ located m l (x * pow2 (- e)) /\
    e <= fexp prec emax (Zdigits2 m + e) /\ Zdigits2 m + e < emax.

(** The exact quotient of a number of half points by the total. *)
Definition ratio (halves total : Z) : Q := (inject_Z halves / (2 * inject_Z total))%Q.

(* ===================================================================== *)
(** * Profile completion (app/routers/profile.py, app/models/profile.py) *)
(* ===================================================================== *)

Module Experience.
Record t := { title : str; company : str;
              startDate : option str; endDate : option str;
              description : option str }.
End Experience.

Module Education.
Record t := { school : str; degree : str; field : option str;
              startDate : option str; endDate : option str }.
End Education.

Module Project.
Record t := { title : str; description : str; url : option str;
              technologies : list str }.
End Project.

(** The dictionary handed to the scorer: a dumped [ProfileBase], possibly
    merged with the stored profile.  A scalar that is [None] or whose key is
    missing is [None] here ([dict.get] treats both alike); a section that is
    missing or [None] is the empty list. *)
Module Profile.
Record t := { fullName : option str; email : option str;
              phone : option str; address : option str;
              headline : option str; summary : option str;
              experience : list Experience.t; education : list Education.t;
              skills : list str; projects : list Project.t;
              profilePicture : option str }.
End Profile.

(** [s] is truthy *)
Definition nonempty (s : str) : bool := match s with [] => false | _ => true end.

(** [profile_data.get(field) and str(profile_data.get(field)).strip()] *)
Definition filled (v : option str) : bool :=
  match v with
  | Some s => nonempty s && nonempty (strip s)
  | None => false
  end.

Definition required_fields (p : Profile.t) : list (option str) :=
  [Profile.fullName p; Profile.email p].

Definition optional_fields (p : Profile.t) : list (option str) :=
  [Profile.phone p; Profile.address p; Profile.headline p; Profile.summary p;
   Profile.profilePicture p].

(** The two counters, [earned_points] counted in half points so that the
    0.5 of a skill stays an integer. *)
Record points := { earned2 : Z; total_points : Z }.

(** [for field in fields: if filled: earned_points += w; total_points += w] *)
Definition count_fields (w : Z) (fields : list (option str)) (pts : points) : points :=
  List.fold_left
    (fun pts f => {| earned2 := (if filled f then earned2 pts + 2 * w else earned2 pts);
                     total_points := total_points pts + w |})
    fields pts.

(** [for x in section: if ok(x): earned_points += 2; total_points += 2] *)
Definition count_entries {A} (ok : A -> bool) (section : list A) (pts : points) : points :=
  List.fold_left
    (fun pts x => {| earned2 := (if ok x then earned2 pts + 4 else earned2 pts);
                     total_points := total_points pts + 2 |})
    section pts.

Definition experience_ok (e : Experience.t) : bool :=
  nonempty (Experience.title e) && nonempty (Experience.company e).
Definition education_ok (e : Education.t) : bool :=
  nonempty (Education.school e) && nonempty (Education.degree e).
Definition project_ok (p : Project.t) : bool :=
  nonempty (Project.title p) && nonempty (Project.description p).

(** [skill_points = min(len(skills) * 0.5, 10)], in half points *)
Definition count_skills (skills : list str) (pts : points) : points :=
  match skills with
  | [] => pts
  | _ => {| earned2 := earned2 pts + Z.min (Z.of_nat (List.length skills)) 20;
            total_points := total_points pts + 10 |}
  end.

Definition count_projects (projects : list Project.t) (pts : points) : points :=
  match projects with
  | [] => {| earned2 := earned2 pts; total_points := total_points pts + 4 |}
  | _ => count_entries project_ok projects pts
  end.

(** The counters after all sections. *)
Definition profile_points (p : Profile.t) : points :=
  count_projects (Profile.projects p)
    (count_skills (Profile.skills p)
       (count_entries education_ok (Profile.education p)
          (count_entries experience_ok (Profile.experience p)
             (count_fields 1 (optional_fields p)
                (count_fields 2 (required_fields p)
                   {| earned2 := 0; total_points := 0 |}))))).

(** [int((earned_points / total_points) * 100)], before the final [min] *)
Definition completion_percentage (p : Profile.t) : option Z :=
  py_percent (earned2 (profile_points p)) (total_points (profile_points p)).

Definition calculate_profile_completion (p : Profile.t) : option Z :=
  if total_points (profile_points p) =? 0 then Some 0
  else match completion_percentage p with
       | Some c => Some (Z.min c 100)
       | None => None
       end.

(** What the specification says the score is:
    floor(100 * numerator / denominator) clamped to [0, 100], and 0 when the
    denominator is 0. *)
Definition spec_score (p : Profile.t) : Z :=
  let e := earned2 (profile_points p) in
  let t := total_points (profile_points p) in
  if t =? 0 then 0 else Z.max 0 (Z.min 100 ((100 * e) / (2 * t))).

Definition empty_profile : Profile.t :=
  {| Profile.fullName := None; Profile.email := None; Profile.phone := None;
     Profile.address := None; Profile.headline := None; Profile.summary := None;
     Profile.experience := []; Profile.education := []; Profile.skills := [];
     Profile.projects := []; Profile.profilePicture := None |}.

(** Setting one of the optional scalar fields (the [optional_fields] of the
    scorer). *)
Inductive optional_field := phone | address | headline | summary | profilePicture.

Definition get_optional (f : optional_field) (p : Profile.t) : option str :=
  match f with
  | phone => Profile.phone p
  | address => Profile.address p
  | headline => Profile.headline p
  | summary => Profile.summary p
  | profilePicture => Profile.profilePicture p
  end.

Definition set_optional (f : optional_field) (v : option str) (p : Profile.t) : Profile.t :=
  {| Profile.fullName := Profile.fullName p; Profile.email := Profile.email p;
     Profile.phone := (if f is phone then v else Profile.phone p);
     Profile.address := (if f is address then v else Profile.address p);
     Profile.headline := (if f is headline then v else Profile.headline p);
     Profile.summary := (if f is summary then v else Profile.summary p);
     Profile.experience := Profile.experience p;
     Profile.education := Profile.education p;
     Profile.skills := Profile.skills p;
     Profile.projects := Profile.projects p;
     Profile.profilePicture := (if f is profilePicture then v else Profile.profilePicture p) |}.


(** ** Counting, for the properties *)

Definition filled_count (l : list (option str)) : Z :=
  Z.of_nat (List.length (List.filter filled l)).

Definition ok_count {A} (ok : A -> bool) (l : list A) : Z :=
  Z.of_nat (List.length (List.filter ok l)).

(** The points of the skills and of the projects. *)
Definition skills_earned2 (l : list str) : Z :=
  match l with [] => 0 | _ => Z.min (Z.of_nat (List.length l)) 20 end.
Definition skills_total (l : list str) : Z :=
  match l with [] => 0 | _ => 10 end.
Definition projects_total (l : list Project.t) : Z :=
  match l with [] => 4 | _ => 2 * Z.of_nat (List.length l) end.

(** ** Example profiles *)

(** A complete profile with one position held, seven skills, and neither
    education nor projects: 14.5 points out of 25. *)
Definition profile_58 : Profile.t :=
  {| Profile.fullName := Some (lit "Ada Lovelace");
     Profile.email := Some (lit "ada@example.com");
     Profile.phone := Some (lit "5550100000");
     Profile.address := Some (lit "12 St James Square");
     Profile.headline := Some (lit "Analyst");
     Profile.summary := Some (lit "Notes on the analytical engine");
     Profile.experience :=
       [ {| Experience.title := lit "Analyst"; Experience.company := lit "Babbage";
            Experience.startDate := None; Experience.endDate := None;
            Experience.description := None |} ];
     Profile.education := [];
     Profile.skills := [lit "a"; lit "b"; lit "c"; lit "d"; lit "e"; lit "f"; lit "g"];
     Profile.projects := [];
     Profile.profilePicture := Some (lit "/uploads/ada.png") |}.

(** A profile whose only content is one project. *)
Definition one_project_profile : Profile.t :=
  {| Profile.fullName := None; Profile.email := None; Profile.phone := None;
     Profile.address := None; Profile.headline := None; Profile.summary := None;
     Profile.experience := []; Profile.education := []; Profile.skills := [];
     Profile.projects :=
       [ {| Project.title := lit "Portal"; Project.description := lit "A job portal";
            Project.url := None; Project.technologies := [] |} ];
     Profile.profilePicture := None |}.

(** All scalar fields filled, no section. *)
Definition full_fields_profile : Profile.t :=
  {| Profile.fullName := Some (lit "Ada Lovelace");
     Profile.email := Some (lit "ada@example.com");
     Profile.phone := Some (lit "5550100000");
     Profile.address := Some (lit "12 St James Square");
     Profile.headline := Some (lit "Analyst");
     Profile.summary := Some (lit "Notes on the analytical engine");
     Profile.experience := []; Profile.education := []; Profile.skills := [];
     Profile.projects := [];
     Profile.profilePicture := Some (lit "/uploads/ada.png") |}.

Definition with_skills (l : list str) (p : Profile.t) : Profile.t :=
  {| Profile.fullName := Profile.fullName p; Profile.email := Profile.email p;
     Profile.phone := Profile.phone p; Profile.address := Profile.address p;
     Profile.headline := Profile.headline p; Profile.summary := Profile.summary p;
     Profile.experience := Profile.experience p;
     Profile.education := Profile.education p;
     Profile.skills := l;
     Profile.projects := Profile.projects p;
     Profile.profilePicture := Profile.profilePicture p |}.

(* ===================================================================== *)
(** * The document store *)
(* ===================================================================== *)

(** Values of document fields (BSON) and of token claims (JSON).  Dates and
    clock readings are counted in microseconds since the epoch. *)
Inductive value :=
| VNull
| VBool (b : bool)
| VInt (z : Z)
| VDouble (f : spec_float)
| VStr (s : str)
| VList (l : list str)
| VDate (t : Z)
| VOid (n : N).

#[global] Instance spec_float_eq_dec : EqDecision spec_float.
Proof. solve_decision. Defined.

#[global] Instance value_eq_dec : EqDecision value.
Proof. solve_decision. Defined.

(** A document: a Python [dict] with string keys. *)
Abbreviation doc := (gmap string value).

(** Python truthiness *)
Definition truthy (v : value) : bool :=
  match v with
  | VNull => false
  | VBool b => b
  | VInt z => negb (z =? 0)
  | VDouble f => match f with S754_zero _ => false | _ => true end
  | VStr s => nonempty s
  | VList l => match l with [] => false | _ => true end
  | VDate _ | VOid _ => true
  end.

(** [d.get(k)] is truthy *)
Definition get_truthy (d : doc) (k : string) : bool :=
  match d !! k with Some v => truthy v | None => false end.

(** ** ObjectIds: 96-bit numbers written as 24 hexadecimal digits *)

Definition hex_digit (d : N) : N := (if d <? 10 then 48 + d else 87 + d)%N.

Fixpoint hex_digits (k : nat) (n : N) (acc : str) : str :=
  match k with
  | O => acc
  | S k' => hex_digits k' (n / 16)%N (hex_digit (n mod 16)%N :: acc)
  end.

(** [str(oid)] *)
Definition ObjectId_str (n : N) : str := hex_digits 24 n [].

Definition hex_value (c : N) : option N :=
  if is_digit09 c then Some (c - 48)%N
  else if in_range 97 102 c then Some (c - 87)%N
  else if in_range 65 70 c then Some (c - 55)%N
  else None.

Fixpoint hex_number (s : str) (acc : N) : option N :=
  match s with
  | [] => Some acc
  | c :: r => match hex_value c with
              | Some d => hex_number r (16 * acc + d)%N
              | None => None
              end
  end.

(** [ObjectId(s)]: [None] where bson raises [InvalidId]. *)
Definition ObjectId (s : str) : option N :=
  if (List.length s =? 24)%nat then hex_number s 0%N else None.

(** [ObjectId.is_valid(s)] *)
Definition ObjectId_is_valid (s : str) : bool :=
  match ObjectId s with Some _ => true | None => false end.

(** Decimal digits of a non-negative number, most significant first. *)
Fixpoint decimal_digits (fuel : nat) (n : N) (acc : str) : str :=
  match fuel with
  | O => acc
  | S fuel' =>
      let acc' := (48 + n mod 10)%N :: acc in
      if (n <? 10)%N then acc' else decimal_digits fuel' (n / 10)%N acc'
  end.

Definition decimal (z : Z) : str :=
  let n := Z.to_N (Z.abs z) in
  let ds := decimal_digits (S (N.to_nat (N.log2 n))) n [] in
  if z <? 0 then 45%N :: ds else ds.

(** ** What the platform provides

    Library behaviour the handlers rely on without fixing it: tables of the
    Unicode database, bcrypt, the regular-expression engine of the store,
    settings read from the environment, and model validation. *)
Class Platform := {
  (** decimal digits outside ASCII, which [\d] matches as well *)
  unicode_Nd : N -> bool;
  (** [bcrypt.hashpw(password, salt)] and [bcrypt.checkpw(password, hash)] *)
  bcrypt_hashpw : str -> str -> str;
  bcrypt_checkpw : str -> str -> bool;
  (** [$regex]: pattern, options, subject *)
  mongo_regex : str -> str -> str -> bool;
  (** the environment variable, 30 by default *)
  ACCESS_TOKEN_EXPIRE_MINUTES : Z;
  (** [str(v)] for the values whose text the handlers never build themselves *)
  str_other : value -> str;
  (** whether building the [Job] model from the document validates *)
  Job_validates : doc -> bool
}.

(** [str(v)] *)
Definition py_str `{Platform} (v : value) : str :=
  match v with
  | VStr s => s
  | VOid n => ObjectId_str n
  | VNull => lit "None"
  | VBool true => lit "True"
  | VBool false => lit "False"
  | VInt z => decimal z
  | _ => str_other v
  end.

(** ** Exceptions and results *)

Inductive exn :=
| HTTPException (status_code : Z) (detail : str)
| JWTError
| DuplicateKeyError
| InvalidId
| KeyError (key : string)
| Exception (msg : string).

Inductive result (A : Type) :=
| Return (a : A)
| Raise (e : exn).
Arguments Return {A} a.
Arguments Raise {A} e.

#[global] Instance result_ret : MRet result := fun A a => Return a.
#[global] Instance result_bind : MBind result := fun A B f m =>
  match m with
  | Return a => f a
  | Raise e => Raise e
  end.

Definition is_return {A} (r : result A) : bool :=
  match r with Return _ => true | Raise _ => false end.

(** [try: body except ...: handler] *)
Definition try_except {A} (body : result A) (handler : exn -> result A) : result A :=
  match body with
  | Return a => Return a
  | Raise e => handler e
  end.

(** [str(e)] *)
Definition exn_str (e : exn) : str :=
  match e with
  | HTTPException c d => d
  | JWTError => lit "Signature verification failed."
  | DuplicateKeyError => lit "E11000 duplicate key error"
  | InvalidId => lit "not a valid ObjectId, it must be a 12-byte input or a 24-character hex string"
  | KeyError k => lit k
  | Exception m => lit m
  end.

(** [d[k]] *)
Definition getitem (d : doc) (k : string) : result value :=
  match d !! k with
  | Some v => Return v
  | None => Raise (KeyError k)
  end.

(** ** Queries *)

Inductive cond :=
| CEq (v : value)                      (* {field: v} *)
| CRegex (pattern : value) (options : str)  (* {"$regex": p, "$options": o} *)
| CIn (vs : list value)                (* {"$in": [...]} *)
| CAll (vs : value)                    (* {"$all": vs} *)
| CRange (gte lte : option value).     (* {"$gte": a, "$lte": b} *)

Inductive clause :=
| Field (c : cond)
| Or (alternatives : list (string * cond)).   (* under the key "$or" *)

Abbreviation query := (gmap string clause).

(** A field holding an array matches when one of its elements does. *)
Definition candidates (f : option value) : list value :=
  match f with
  | None => [VNull]
  | Some (VList l) => VList l :: List.map VStr l
  | Some v => [v]
  end.

Definition value_eqb (a b : value) : bool := bool_decide (a = b).

(** Ordering inside one type bracket; [None] across brackets. *)
Definition value_leb (a b : value) : option bool :=
  match a, b with
  | VInt x, VInt y => Some (x <=? y)
  | VDate x, VDate y => Some (x <=? y)
  | _, _ => None
  end.

Definition holds_eq (f : option value) (q : value) : bool :=
  List.existsb (value_eqb q) (candidates f).

Definition eval_cond `{Platform} (c : cond) (f : option value) : bool :=
  match c with
  | CEq q => holds_eq f q
  | CRegex (VStr p) o =>
      List.existsb (fun v => match v with VStr s => mongo_regex p o s | _ => false end)
                   (candidates f)
  | CRegex _ _ => false
  | CIn qs => List.existsb (holds_eq f) qs
  | CAll (VList qs) =>
      match qs with
      | [] => false
      | _ => List.forallb (fun q => holds_eq f (VStr q)) qs
      end
  | CAll _ => false
  | CRange lo hi =>
      List.existsb
        (fun v =>
           match lo with
           | Some a => match value_leb a v with Some b => b | None => false end
           | None => true
           end &&
           match hi with
           | Some b => match value_leb v b with Some r => r | None => false end
           | None => true
           end)
        (candidates f)
  end.

Definition eval_clause `{Platform} (d : doc) (k : string) (cl : clause) : bool :=
  match cl with
  | Field c => eval_cond c (d !! k)
  | Or alts => List.existsb (fun '(k', c) => eval_cond c (d !! k')) alts
  end.

(** Whether document [d] satisfies query [q]. *)
Definition matches `{Platform} (q : query) (d : doc) : bool :=
  List.forallb (fun '(k, cl) => eval_clause d k cl) (map_to_list q).

(** ** Collections *)

Record index := { idx_keys : list string; idx_unique : bool }.

Record collection := { docs : list doc; indexes : list index }.

Definition index_key (keys : list string) (d : doc) : list value :=
  List.map (fun k => default VNull (d !! k)) keys.

(** Each collection has the unique index on [_id] besides those created. *)
Definition id_index : index := {| idx_keys := ["_id"%string]; idx_unique := true |}.

(** The index [create_indexes] puts on the email of users. *)
Definition email_index : index := {| idx_keys := ["email"%string]; idx_unique := true |}.

Definition violates (ix : index) (ds : list doc) (d : doc) : bool :=
  idx_unique ix &&
  List.existsb (fun d' => bool_decide (index_key (idx_keys ix) d' = index_key (idx_keys ix) d)) ds.

Definition has_duplicate (ix : index) (ds : list doc) : bool :=
  (fix go (l : list doc) : bool :=
     match l with
     | [] => false
     | d :: r => violates ix r d || go r
     end) ds.

(** [create_index(keys, unique=u)]: fails when the documents already break a
    unique index. *)
Definition create_index (keys : list string) (unique : bool) (c : collection)
  : result collection :=
  let ix := {| idx_keys := keys; idx_unique := unique |} in
  if has_duplicate ix (docs c) then Raise DuplicateKeyError
  else Return {| docs := docs c; indexes := indexes c ++ [ix] |}.

(** [insert_one(d)]: the driver adds a fresh [_id] when the document has
    none; the store refuses a document that breaks a unique index. *)
Definition insert_one (c : collection) (fresh : N) (d : doc) : result (doc * collection) :=
  let d' := match d !! "_id" with Some _ => d | None => <["_id" := VOid fresh]> d end in
  if List.existsb (fun ix => violates ix (docs c) d') (id_index :: indexes c)
  then Raise DuplicateKeyError
  else Return (d', {| docs := docs c ++ [d']; indexes := indexes c |}).

(** [find_one(q)] *)
Definition find_one `{Platform} (c : collection) (q : query) : option doc :=
  List.find (matches q) (docs c).

(** [update_one(q, {"$set": upd})]: the first matching document gets the
    fields of [upd]; returns the collection and [modified_count]. *)
Fixpoint set_first (P : doc -> bool) (upd : doc) (ds : list doc) : list doc * Z :=
  match ds with
  | [] => ([], 0)
  | d :: r =>
      if P d then ((upd ∪ d) :: r, if bool_decide (upd ∪ d = d) then 0 else 1)
      else let '(r', n) := set_first P upd r in (d :: r', n)
  end.

Definition update_one `{Platform} (c : collection) (q : query) (upd : doc)
  : collection * Z :=
  let '(ds, n) := set_first (matches q) upd (docs c) in
  ({| docs := ds; indexes := indexes c |}, n).

Record database := {
  users : collection;
  jobs : collection;
  applications : collection;
  next_oid : N     (* the ObjectId the driver generates next *)
}.

Definition empty_collection : collection := {| docs := []; indexes := [] |}.
Definition empty_database : database :=
  {| users := empty_collection; jobs := empty_collection;
     applications := empty_collection; next_oid := 1 |}.

Definition set_users (c : collection) (db : database) : database :=
  {| users := c; jobs := jobs db; applications := applications db; next_oid := next_oid db |}.
Definition set_jobs (c : collection) (db : database) : database :=
  {| users := users db; jobs := c; applications := applications db; next_oid := next_oid db |}.
Definition set_applications (c : collection) (db : database) : database :=
  {| users := users db; jobs := jobs db; applications := c; next_oid := next_oid db |}.
Definition bump_oid (db : database) : database :=
  {| users := users db; jobs := jobs db; applications := applications db;
     next_oid := N.succ (next_oid db) |}.

(* ===================================================================== *)
(** * Tokens and passwords (app/utils/auth.py) *)
(* ===================================================================== *)

(** A JSON Web Token: its claims, and whether its signature verifies under
    the server's key and algorithm. *)
Record token := { claims : doc; signature_ok : bool }.

(** What [get_current_user] returns. *)
Module Identity.
Record t := { id : str; email : value; role : value }.
End Identity.

Section Auth.
Context `{Platform}.

(** The bytes beyond the first 72 are dropped before bcrypt sees them. *)
Definition truncate72 (password : str) : str :=
  if 72 <? utf8_len password then utf8_truncate 72 password else password.

Definition verify_password (plain_password hashed_password : str) : bool :=
  bcrypt_checkpw (truncate72 plain_password) hashed_password.

Definition get_password_hash (password salt : str) : str :=
  bcrypt_hashpw (truncate72 password) salt.

Definition seconds (us : Z) : Z := us / 1000000.
Definition minutes_us (m : Z) : Z := m * 60 * 1000000.

(** [expires_delta] is given in minutes. *)
Definition create_access_token (data : doc) (now : Z) (expires_delta : option Z)
           (user_role : value) : token :=
  let expire :=
    match expires_delta with
    | Some m => now + minutes_us m
    | None => now + minutes_us ACCESS_TOKEN_EXPIRE_MINUTES
    end in
  let to_encode := <["exp" := VInt (seconds expire)]> data in
  let to_encode := if truthy user_role then <["role" := user_role]> to_encode
                   else to_encode in
  {| claims := to_encode; signature_ok := true |}.

(** [jwt.decode]: the signature is checked, then the claims the library
    knows: [exp] must be an integer that is not in the past, [sub] a
    string. *)
Definition jwt_decode (now : Z) (t : token) : result doc :=
  if negb (signature_ok t) then Raise JWTError
  else
    match claims t !! "exp" with
    | Some (VInt e) =>
        if e <? seconds now then Raise JWTError
        else match claims t !! "sub" with
             | Some (VStr _) | None => Return (claims t)
             | Some _ => Raise JWTError
             end
    | Some _ => Raise JWTError
    | None => match claims t !! "sub" with
              | Some (VStr _) | None => Return (claims t)
              | Some _ => Raise JWTError
              end
    end.

Definition by_email (email : value) : query := {["email"%string := Field (CEq email)]}.
Definition by_id (oid : N) : query := {["_id"%string := Field (CEq (VOid oid))]}.

Definition get_current_user (db : database) (now : Z) (t : token)
  : result Identity.t :=
  try_except
    (payload ← jwt_decode now t;
     match payload !! "sub" with
     | None | Some VNull =>
         Raise (Exception "Could not validate credentials - no email in token")
     | Some email =>
         (* Extract role from token *)
         let role := default (VStr (lit "job_seeker")) (payload !! "role") in
         match default (VInt 0) (payload !! "exp") with
         | VInt expiry_timestamp =>
             if expiry_timestamp * 1000000 <? now
             then Raise (Exception "Token has expired")
             else
               match find_one (users db) (by_email email) with
               | None => Raise (Exception "User not found")
               | Some user =>
                   uid ← getitem user "_id";
                   uemail ← getitem user "email";
                   Return {| Identity.id := py_str uid;
                             Identity.email := uemail;
                             Identity.role := role |}
               end
         | _ => Raise (Exception "TypeError")
         end
     end)
    (fun e =>
       match e with
       | JWTError => Raise (Exception "Could not validate credentials - JWT error")
       | _ => Raise (Exception "Could not validate credentials")
       end).
End Auth.

(* ===================================================================== *)
(** * Registration and login (app/routers/auth.py, app/models/user.py) *)
(* ===================================================================== *)

Inductive UserRole := JOB_SEEKER | EMPLOYER | ADMIN.

#[global] Instance UserRole_eq_dec : EqDecision UserRole.
Proof. solve_decision. Defined.

Definition UserRole_value (r : UserRole) : str :=
  match r with
  | JOB_SEEKER => lit "job_seeker"
  | EMPLOYER => lit "employer"
  | ADMIN => lit "admin"
  end.

Module UserCreate.
Record t := { email : str; full_name : str; role : UserRole;
              password : str; mobile : str; resume_url : str;
              is_active : bool }.
End UserCreate.

(** The body of a successful [register] or [login]. *)
Module AuthResponse.
Record t := { success : bool; token_ : token;
              id : str; email : value; name : value; role : value }.
End AuthResponse.

(** [p in s] for strings, and [s.lower()] on ASCII letters. *)
Fixpoint starts_with (p s : str) : bool :=
  match p, s with
  | [], _ => true
  | _ :: _, [] => false
  | a :: p', b :: s' => (a =? b)%N && starts_with p' s'
  end.

Fixpoint contains (p s : str) : bool :=
  starts_with p s || match s with [] => false | _ :: r => contains p r end.

Definition lower (s : str) : str :=
  List.map (fun c => if is_upper c then (c + 32)%N else c) s.

Section Registration.
Context `{Platform}.

(** [[a-zA-Z0-9._%+-]] and [[a-zA-Z0-9.-]] *)
Definition email_local (c : N) : bool := is_alpha c || is_digit09 c || one_of "._%+-" c.
Definition email_domain (c : N) : bool := is_alpha c || is_digit09 c || one_of ".-" c.

(** [^[a-zA-Z0-9._%+-]+@[a-zA-Z0-9.-]+\.[a-zA-Z]{2,}$] *)
Definition email_pattern : regex :=
  Cat (Plus (Class email_local))
    (Cat (Class (N.eqb 64))
       (Cat (Plus (Class email_domain))
          (Cat (Class (N.eqb 46)) (AtLeast 2 (Class is_alpha))))).

Definition validate_email (email : str) : bool :=
  re_match_anchored email_pattern email.

(** The characters of the class of special characters; 34 is the double
    quote. *)
Definition is_special (c : N) : bool := one_of "!@#$%^&*(),.?:{}|<>" c || (c =? 34)%N.

Definition validate_password (password : str) : bool :=
  if (Z.of_nat (List.length password) <? 8) then false
  else if negb (re_search_class is_upper password) then false
  else if negb (re_search_class is_digit09 password) then false
  else if negb (re_search_class is_special password) then false
  else true.

(** [\d] on a [str] pattern: any Unicode decimal digit. *)
Definition re_digit (c : N) : bool := is_digit09 c || unicode_Nd c.

(** [^\d{10}$] *)
Definition mobile_pattern : regex := Times 10 (Class re_digit).

Definition validate_mobile (mobile : str) : bool :=
  re_match_anchored mobile_pattern mobile.

(** [user.model_dump()] *)
Definition UserCreate_model_dump (u : UserCreate.t) : doc :=
  {[ "email"%string := VStr (UserCreate.email u);
     "full_name"%string := VStr (UserCreate.full_name u);
     "role"%string := VStr (UserRole_value (UserCreate.role u));
     "password"%string := VStr (UserCreate.password u);
     "mobile"%string := VStr (UserCreate.mobile u);
     "resume_url"%string := VStr (UserCreate.resume_url u);
     "is_active"%string := VBool (UserCreate.is_active u) ]}.

Definition is_duplicate_error (e : exn) : bool :=
  let error_str := lower (exn_str e) in
  contains (lit "duplicate") error_str || contains (lit "e11000") error_str
  || contains (lit "E11000") (exn_str e).

Definition register (db : database) (now : Z) (salt : str) (user : UserCreate.t)
  : database * result AuthResponse.t :=
  (* Validate email format *)
  if negb (validate_email (UserCreate.email user)) then
    (db, Raise (HTTPException 400 (lit "Invalid email format")))
  (* the bcrypt 72-byte limit *)
  else if 72 <? utf8_len (UserCreate.password user) then
    (db, Raise (HTTPException 400
       (lit "Password cannot be longer than 72 characters due to security limitations")))
  (* Validate password strength *)
  else if negb (validate_password (UserCreate.password user)) then
    (db, Raise (HTTPException 400
       (lit "Password must be at least 8 characters with 1 uppercase letter, 1 number, and 1 special character")))
  (* Validate mobile number *)
  else if negb (validate_mobile (UserCreate.mobile user)) then
    (db, Raise (HTTPException 400 (lit "Mobile number must be 10 digits")))
  (* Validate role *)
  else if negb (bool_decide (UserCreate.role user ∈ [JOB_SEEKER; EMPLOYER; ADMIN])) then
    (db, Raise (HTTPException 400 (lit "Role must be 'job_seeker', 'employer', or 'admin'")))
  else
    let hashed_password := get_password_hash (UserCreate.password user) salt in
    let user_dict :=
      <["created_at" := VDate now]>
        (<["is_active" := VBool true]>
           (<["is_verified" := VBool false]>
              (<["hashed_password" := VStr hashed_password]>
                 (UserCreate_model_dump user)))) in
    (* Insert user into database with unique email constraint *)
    match insert_one (users db) (next_oid db) user_dict with
    | Raise db_error =>
        if is_duplicate_error db_error
        then (db, Raise (HTTPException 400 (lit "Email already exists")))
        else (db, Raise (HTTPException 503
                (lit "Service temporarily unavailable. Registration failed.")))
    | Return (stored, users') =>
        let db' := bump_oid (set_users users' db) in
        let access_token :=
          create_access_token {["sub"%string := VStr (UserCreate.email user)]} now
            (Some ACCESS_TOKEN_EXPIRE_MINUTES)
            (VStr (UserRole_value (UserCreate.role user))) in
        (db', Return {| AuthResponse.success := true;
                        AuthResponse.token_ := access_token;
                        AuthResponse.id := py_str (default VNull (stored !! "_id"));
                        AuthResponse.email := default VNull (stored !! "email");
                        AuthResponse.name := default VNull (stored !! "full_name");
                        AuthResponse.role := default VNull (stored !! "role") |})
    end.

(** [login], with [email] and [password] as they stand after the fallback
    to the request body. *)
Definition login (db : database) (now : Z) (email password : str)
  : result AuthResponse.t :=
  (* more than 72 characters are cut, more than 72 bytes refused *)
  let password := if (72 <? Z.of_nat (List.length password))
                  then List.firstn 72 password else password in
  if 72 <? utf8_len password then
    Raise (HTTPException 400
       (lit "Password cannot be longer than 72 characters due to security limitations"))
  else if negb (nonempty email) || negb (nonempty password) then
    Raise (HTTPException 400 (lit "Email and password are required"))
  else
    user_and_role ←
      try_except
        (match find_one (users db) (by_email (VStr email)) with
         | None => Raise (HTTPException 401 (lit "Invalid credentials"))
         | Some user =>
             hashed ← getitem user "hashed_password";
             if negb (match hashed with
                      | VStr h => verify_password password h
                      | _ => false
                      end)
             then Raise (HTTPException 401 (lit "Invalid credentials"))
             (* Check if account is active *)
             else if negb (truthy (default (VBool true) (user !! "is_active")))
             then Raise (HTTPException 401 (lit "Account is deactivated"))
             else Return (user, default (VStr (lit "job_seeker")) (user !! "role"))
         end)
        (fun e =>
           match e with
           | HTTPException _ _ => Raise e
           | _ => Raise (HTTPException 503
                    (lit "Service temporarily unavailable. Please try again later."))
           end);
    let '(user, user_role) := user_and_role in
    uemail ← getitem user "email";
    uid ← getitem user "_id";
    uname ← getitem user "full_name";
    let access_token :=
      create_access_token {["sub"%string := uemail]} now
        (Some ACCESS_TOKEN_EXPIRE_MINUTES) user_role in
    Return {| AuthResponse.success := true;
              AuthResponse.token_ := access_token;
              AuthResponse.id := py_str uid;
              AuthResponse.email := uemail;
              AuthResponse.name := uname;
              AuthResponse.role := user_role |}.
End Registration.

(* ===================================================================== *)
(** * Indexes (app/database/indexes.py) *)
(* ===================================================================== *)

(** The indexes of one collection are created in sequence inside one [try]:
    the first failure skips the rest of that collection. *)
Fixpoint create_all (specs : list (list string * bool)) (c : collection) : collection :=
  match specs with
  | [] => c
  | (keys, unique) :: rest =>
      match create_index keys unique c with
      | Return c' => create_all rest c'
      | Raise _ => c
      end
  end.

Definition users_index_specs : list (list string * bool) :=
  [ (["email"%string], true); (["role"%string], false);
    (["is_active"%string], false); (["created_at"%string], false) ].

Definition jobs_index_specs : list (list string * bool) :=
  [ (["title"%string], false); (["company"%string], false);
    (["location"%string], false); (["work_mode"%string], false);
    (["created_by"%string], false); (["posted_date"%string], false);
    (["is_active"%string], false); (["salary_min"%string], false);
    (["salary_max"%string], false);
    (["title"%string; "description"%string], false);
    (["location"%string; "company"%string], false) ].

Definition applications_index_specs : list (list string * bool) :=
  [ (["user_id"%string], false); (["job_id"%string], false);
    (["user_id"%string; "job_id"%string], false);   (* Compound index *)
    (["status"%string], false); (["applied_date"%string], false) ].

(** [create_indexes], for the three collections modelled here. *)
Definition create_indexes (db : database) : database :=
  {| users := create_all users_index_specs (users db);
     jobs := create_all jobs_index_specs (jobs db);
     applications := create_all applications_index_specs (applications db);
     next_oid := next_oid db |}.

(* ===================================================================== *)
(** * Applications (app/routers/applications.py, app/models/application.py) *)
(* ===================================================================== *)

Inductive ApplicationStatus := APPLIED | REVIEWED | INTERVIEW | OFFERED | ACCEPTED | REJECTED.

Definition ApplicationStatus_value (s : ApplicationStatus) : str :=
  match s with
  | APPLIED => lit "applied"
  | REVIEWED => lit "reviewed"
  | INTERVIEW => lit "interview"
  | OFFERED => lit "offered"
  | ACCEPTED => lit "accepted"
  | REJECTED => lit "rejected"
  end.

Module ApplicationCreate.
Record t := { job_id : str; status : ApplicationStatus;
              cover_letter : option str; resume_url : option str }.
End ApplicationCreate.

Definition of_option (o : option str) : value :=
  match o with Some s => VStr s | None => VNull end.

Section Applications.
Context `{Platform}.

Definition by_user_and_job (user_id job_id : str) : query :=
  {[ "user_id"%string := Field (CEq (VStr user_id));
     "job_id"%string := Field (CEq (VStr job_id)) ]}.

(** The handler up to and including its check for an existing
    application; it returns the identity of the caller. *)
Definition create_application_check (db : database) (now : Z) (t : token)
           (application : ApplicationCreate.t) : result Identity.t :=
  current_user ← get_current_user db now t;
  (* Validate job_id format first *)
  match ObjectId (ApplicationCreate.job_id application) with
  | None =>
      Raise (HTTPException 400
               (lit "Invalid job ID format: " ++ ApplicationCreate.job_id application))
  | Some job_object_id =>
      (* Verify job exists *)
      match find_one (jobs db) (by_id job_object_id) with
      | None =>
          Raise (HTTPException 404
                   (lit "Job not found with ID: " ++ ApplicationCreate.job_id application))
      | Some _ =>
          (* Verify user exists *)
          match ObjectId (Identity.id current_user) with
          | None => Raise InvalidId
          | Some user_object_id =>
              match find_one (users db) (by_id user_object_id) with
              | None =>
                  Raise (HTTPException 404
                           (lit "User not found with ID: " ++ Identity.id current_user))
              | Some _ =>
                  (* Check if application already exists for this user and job *)
                  match find_one (applications db)
                          (by_user_and_job (Identity.id current_user)
                             (ApplicationCreate.job_id application)) with
                  | Some _ =>
                      Raise (HTTPException 400
                               (lit "Application already submitted for this job"))
                  | None => Return current_user
                  end
              end
          end
      end
  end.

Definition application_dict (now : Z) (current_user : Identity.t)
           (application : ApplicationCreate.t) : doc :=
  {[ "job_id"%string := VStr (ApplicationCreate.job_id application);
     "status"%string := VStr (ApplicationStatus_value (ApplicationCreate.status application));
     "cover_letter"%string := of_option (ApplicationCreate.cover_letter application);
     "resume_url"%string :=
       (match ApplicationCreate.resume_url application with
        | Some u => if nonempty u then VStr u else VNull
        | None => VNull
        end);
     "user_id"%string := VStr (Identity.id current_user);
     "applied_date"%string := VDate now;
     "updated_date"%string := VDate now;
     "created_at"%string := VDate now;
     "updated_at"%string := VDate now ]}.

(** The rest of the handler: the insert and the response. *)
Definition create_application_insert (db : database) (now : Z)
           (current_user : Identity.t) (application : ApplicationCreate.t)
  : database * result doc :=
  match insert_one (applications db) (next_oid db)
          (application_dict now current_user application) with
  | Raise e => (db, Raise e)
  | Return (stored, applications') =>
      (bump_oid (set_applications applications' db),
       Return (<["id" := VStr (py_str (default VNull (stored !! "_id")))]>
                 (delete "_id" stored)))
  end.

(** [except HTTPException: raise], [except Exception as e: 500] *)
Definition internal_error {A} (r : result A) : result A :=
  try_except r
    (fun e =>
       match e with
       | HTTPException _ _ => Raise e
       | _ => Raise (HTTPException 500 (lit "Internal server error: " ++ exn_str e))
       end).

Definition create_application (db : database) (now : Z) (t : token)
           (application : ApplicationCreate.t) : database * result doc :=
  match create_application_check db now t application with
  | Raise e => (db, internal_error (Raise e))
  | Return current_user =>
      let '(db', r) := create_application_insert db now current_user application in
      (db', internal_error r)
  end.

(** The applications linking a user to a job. *)
Definition applications_of (db : database) (user_id job_id : str) : list doc :=
  List.filter (matches (by_user_and_job user_id job_id)) (docs (applications db)).
End Applications.

(* ===================================================================== *)
(** * Jobs (app/routers/job.py, app/models/job.py) *)
(* ===================================================================== *)

(** [JobUpdate] declares every field of [JobBase] without a default, so a
    request carries all twelve of them (the optional ones may be null). *)
Module JobUpdate.
Record t := { title : str; description : str; company : str;
              salary_min : option Z; salary_max : option Z;
              location : str; skills : list str;
              experience_required : option str; work_mode : option str;
              company_logo_url : option str;
              company_rating : option spec_float;
              reviews_count : option Z }.
End JobUpdate.

Definition of_option_int (o : option Z) : value :=
  match o with Some z => VInt z | None => VNull end.
Definition of_option_float (o : option spec_float) : value :=
  match o with Some f => VDouble f | None => VNull end.

(** [job_update.model_dump(exclude_unset=True)] *)
Definition JobUpdate_model_dump (u : JobUpdate.t) : doc :=
  {[ "title"%string := VStr (JobUpdate.title u);
     "description"%string := VStr (JobUpdate.description u);
     "company"%string := VStr (JobUpdate.company u);
     "salary_min"%string := of_option_int (JobUpdate.salary_min u);
     "salary_max"%string := of_option_int (JobUpdate.salary_max u);
     "location"%string := VStr (JobUpdate.location u);
     "skills"%string := VList (JobUpdate.skills u);
     "experience_required"%string := of_option (JobUpdate.experience_required u);
     "work_mode"%string := of_option (JobUpdate.work_mode u);
     "company_logo_url"%string := of_option (JobUpdate.company_logo_url u);
     "company_rating"%string := of_option_float (JobUpdate.company_rating u);
     "reviews_count"%string := of_option_int (JobUpdate.reviews_count u) ]}.

Definition JobBase_fields : list string :=
  [ "title"; "description"; "company"; "salary_min"; "salary_max"; "location";
    "skills"; "experience_required"; "work_mode"; "company_logo_url";
    "company_rating"; "reviews_count" ]%string.

(** The fields the [Job] model keeps. *)
Definition Job_fields : list string :=
  JobBase_fields ++ [ "id"; "posted_date"; "is_active"; "application_count";
                      "view_count" ]%string.

Section Jobs.
Context `{Platform}.

(** The fields written by an update. *)
Definition update_data (now : Z) (job_update : JobUpdate.t) : doc :=
  <["updated_at" := VDate now]> (JobUpdate_model_dump job_update).

(** The dictionary the updated job is read back into: [id] for [_id], and
    [is_active] forced to a boolean. *)
Definition read_back (d : doc) : doc :=
  let d1 := <["id" := VStr (py_str (default VNull (d !! "_id")))]> (delete "_id" d) in
  match d1 !! "is_active" with
  | Some v => <["is_active" := VBool (truthy v)]> d1
  | None => d1
  end.

(** The [Job] built from a dictionary: the declared fields only. *)
Definition Job (d : doc) : result doc :=
  if Job_validates d
  then Return (filter (fun kv => bool_decide (kv.1 ∈ Job_fields)) d)
  else Raise (Exception "ValidationError").

(** The body of the [try] of [update_job]. *)
Definition update_job_body (db : database) (now : Z) (current_user : Identity.t)
           (job_id : str) (job_update : JobUpdate.t) : database * result doc :=
  match ObjectId job_id with
  | None => (db, Raise InvalidId)
  | Some oid =>
      (* Find the job first *)
      match find_one (jobs db) (by_id oid) with
      | None => (db, Raise (HTTPException 404 (lit "Job not found")))
      | Some job =>
          match job !! "created_by" with
          | None => (db, Raise (KeyError "created_by"))
          | Some created_by =>
              (* Check if user is authorized to update (owner or admin) *)
              if negb (value_eqb created_by (VStr (Identity.id current_user)))
                 && negb (value_eqb (Identity.role current_user) (VStr (lit "admin")))
              then (db, Raise (HTTPException 403 (lit "Not authorized to update this job")))
              else
                (* Update the job *)
                let '(jobs', modified_count) :=
                  update_one (jobs db) (by_id oid) (update_data now job_update) in
                let db' := set_jobs jobs' db in
                if modified_count =? 0
                then (db', Raise (HTTPException 400 (lit "No changes made to job")))
                else
                  (* Return updated job *)
                  match find_one jobs' (by_id oid) with
                  | Some updated_job => (db', Job (read_back updated_job))
                  | None => (db', Raise (HTTPException 404 (lit "Job not found")))
                  end
          end
      end
  end.

(** [update_job]: the identity is resolved outside the [try]; inside it,
    [except Exception] turns whatever is raised into a 400. *)
Definition update_job (db : database) (now : Z) (t : token)
           (job_id : str) (job_update : JobUpdate.t) : database * result doc :=
  match get_current_user db now t with
  | Raise e => (db, Raise e)
  | Return current_user =>
      let '(db', r) := update_job_body db now current_user job_id job_update in
      (db', try_except r (fun _ => Raise (HTTPException 400 (lit "Invalid job ID"))))
  end.

(** The stored job with a given id. *)
Definition stored_job (db : database) (oid : N) : option doc :=
  find_one (jobs db) (by_id oid).

(** ** The filter of [search_jobs] *)
Definition search_jobs_query (search location job_type work_mode : str)
           (salary_min experience_min experience_max : Z) (skills : str) : query :=
  let q : query := {["is_active"%string := Field (CEq (VBool true))]} in
  let q := if nonempty search
           then <["$or" := Or [ ("title"%string, CRegex (VStr search) (lit "i"));
                                ("description"%string, CRegex (VStr search) (lit "i"));
                                ("skills"%string, CIn [VStr search]) ]]> q
           else q in
  let q := if nonempty location
           then <["location" := Field (CRegex (VStr location) (lit "i"))]> q else q in
  let q := if nonempty job_type
           then <["work_mode" := Field (CEq (VStr job_type))]> q else q in
  let q := if nonempty work_mode
           then <["work_mode" := Field (CEq (VStr work_mode))]> q else q in
  let q := if 0 <? salary_min
           then <["salary_min" := Field (CRange (Some (VInt salary_min)) None)]> q else q in
  let q := if (0 <? experience_min) || (experience_max <? 100)
           then <["experience_required" :=
                    Field (CRange (if 0 <? experience_min then Some (VInt experience_min) else None)
                                  (if experience_max <? 100 then Some (VInt experience_max) else None))]> q
           else q in
  let q := if nonempty skills
           then (* Split skills by comma if multiple skills provided *)
                <["skills" := Field (CIn (List.map (fun s => VStr (strip s)) (split 44 skills)))]> q
           else q in
  q.

(** ** The filter that [get_recent_jobs_for_alerts] builds for one alert
    (app/routers/job_alert.py) *)
Definition week_us : Z := 7 * 24 * 60 * 60 * 1000000.

Definition get_recent_jobs_for_alerts_query (search_params : doc) (last_triggered : option value)
           (now : Z) : query :=
  let get k := default VNull (search_params !! k) in
  let q : query := {["is_active"%string := Field (CEq (VBool true))]} in
  let q := if get_truthy search_params "search"
           then <["$or" := Or [ ("title"%string, CRegex (get "search"%string) (lit "i"));
                                ("description"%string, CRegex (get "search"%string) (lit "i"));
                                ("skills"%string, CIn [get "search"%string]) ]]> q
           else q in
  let q := if get_truthy search_params "location"
           then <["location" := Field (CRegex (get "location"%string) (lit "i"))]> q else q in
  let q := if get_truthy search_params "experience_min"
           then <["experience_required" :=
                    Field (CRegex (VStr (py_str (get "experience_min"%string) ++ lit ".*"))
                                  (lit "i"))]> q
           else q in
  let q := if get_truthy search_params "salary_min"
           then <["salary_min" := Field (CRange (Some (get "salary_min"%string)) None)]> q
           else q in
  let q := if get_truthy search_params "job_type"
           then <["job_type" := Field (CEq (get "job_type"%string))]> q else q in
  let q := if get_truthy search_params "work_mode"
           then <["work_mode" := Field (CEq (get "work_mode"%string))]> q else q in
  (* Add skills filter if present *)
  let q := if get_truthy search_params "skills"
           then <["skills" := Field (CAll (get "skills"%string))]> q else q in
  (* Only get jobs posted after last trigger (or last 7 days if never triggered) *)
  let q := match last_triggered with
           | Some t => if truthy t
                       then <["posted_at" := Field (CRange (Some t) None)]> q
                       else <["posted_at" := Field (CRange (Some (VDate (now - week_us))) None)]> q
           | None => <["posted_at" := Field (CRange (Some (VDate (now - week_us))) None)]> q
           end in
  q.

(** The skills listed on a job (a field holding one string lists it). *)
Definition job_skills (job : doc) : list str :=
  match job !! "skills" with
  | Some (VList l) => l
  | Some (VStr s) => [s]
  | _ => []
  end.

Definition job_is_active (job : doc) : bool :=
  holds_eq (job !! "is_active") (VBool true).
End Jobs.

(* ===================================================================== *)
(** * A platform to run examples on *)
(* ===================================================================== *)

(** ASCII digits only, a bcrypt that stores the password after the salt, a
    store regex that tests containment, half an hour of token life, and a
    [Job] model that accepts every dictionary. *)
Definition example_platform : Platform :=
  {| unicode_Nd := fun _ => false;
     bcrypt_hashpw := fun password salt => salt ++ password;
     bcrypt_checkpw := fun password hashed => contains password hashed;
     mongo_regex := fun pattern _ subject => contains pattern subject;
     ACCESS_TOKEN_EXPIRE_MINUTES := 30;
     str_other := fun _ => [];
     Job_validates := fun _ => true |}.

(* ===================================================================== *)
(** * Changes to stored users, and example data *)
(* ===================================================================== *)

(** Every stored user gets field [k] set to [v] (an administrator changing
    the role or the active flag of accounts). *)
Definition with_user_field (k : string) (v : value) (db : database) : database :=
  set_users {| docs := List.map (fun d => <[k := v]> d) (docs (users db));
               indexes := indexes (users db) |} db.

Definition example_now : Z := 1700000000000000.

Definition user_doc (oid : N) (email name role : string) (active : bool) : doc :=
  {[ "_id"%string := VOid oid;
     "email"%string := VStr (lit email);
     "full_name"%string := VStr (lit name);
     "role"%string := VStr (lit role);
     "hashed_password"%string := VStr (lit "salt" ++ lit "Passw0rd!");
     "is_verified"%string := VBool false;
     "is_active"%string := VBool active ]}.

Definition job_doc (oid : N) (title : string) (owner : N) (skills : list string) : doc :=
  list_to_map
    [ ("_id"%string, VOid oid);
      ("title"%string, VStr (lit title));
      ("description"%string, VStr (lit "Build and run services"));
      ("company"%string, VStr (lit "Acme"));
      ("salary_min"%string, VInt 50000);
      ("salary_max"%string, VInt 90000);
      ("location"%string, VStr (lit "Pune"));
      ("skills"%string, VList (List.map lit skills));
      ("experience_required"%string, VStr (lit "2 years"));
      ("work_mode"%string, VStr (lit "remote"));
      ("company_logo_url"%string, VNull);
      ("company_rating"%string, VNull);
      ("reviews_count"%string, VNull);
      ("created_by"%string, VStr (ObjectId_str owner));
      ("posted_date"%string, VDate (example_now - 1000000));
      ("posted_at"%string, VDate (example_now - 1000000));
      ("updated_at"%string, VDate (example_now - 1000000));
      ("is_active"%string, VBool true);
      ("application_count"%string, VInt 0);
      ("view_count"%string, VInt 0) ].

(** Two employers, a job seeker and a deactivated account; the first
    employer owns both jobs. *)
Definition example_db : database :=
  create_indexes
    {| users := {| docs := [ user_doc 1 "erin@acme.example" "Erin" "employer" true;
                             user_doc 2 "omar@other.example" "Omar" "employer" true;
                             user_doc 3 "sam@mail.example" "Sam" "job_seeker" true;
                             user_doc 4 "dana@mail.example" "Dana" "job_seeker" false ];
                   indexes := [] |};
       jobs := {| docs := [ job_doc 10 "Backend engineer" 1 ["Go"; "SQL"];
                            job_doc 11 "Go developer" 1 ["Go"] ];
                  indexes := [] |};
       applications := empty_collection;
       next_oid := 100 |}.

(** A token as [login] issues it. *)
Definition example_token (email role : string) : token :=
  create_access_token (H := example_platform)
    {["sub"%string := VStr (lit email)]} example_now (Some 30) (VStr (lit role)).

Definition example_application (job : N) : ApplicationCreate.t :=
  {| ApplicationCreate.job_id := ObjectId_str job;
     ApplicationCreate.status := APPLIED;
     ApplicationCreate.cover_letter := None;
     ApplicationCreate.resume_url := None |}.

Definition example_job_update : JobUpdate.t :=
  {| JobUpdate.title := lit "Senior backend engineer";
     JobUpdate.description := lit "Build and run services";
     JobUpdate.company := lit "Acme";
     JobUpdate.salary_min := Some 60000;
     JobUpdate.salary_max := Some 90000;
     JobUpdate.location := lit "Pune";
     JobUpdate.skills := [lit "Go"; lit "SQL"];
     JobUpdate.experience_required := Some (lit "2 years");
     JobUpdate.work_mode := Some (lit "remote");
     JobUpdate.company_logo_url := None;
     JobUpdate.company_rating := None;
     JobUpdate.reviews_count := None |}.

(** Ten digits and a line feed. *)
Definition mobile_with_newline : str := lit "9876543210" ++ [10%N].

Definition example_registration (mobile : str) : UserCreate.t :=
  {| UserCreate.email := lit "new@mail.example";
     UserCreate.full_name := lit "New User";
     UserCreate.role := JOB_SEEKER;
     UserCreate.password := lit "Passw0rd!";
     UserCreate.mobile := mobile;
     UserCreate.resume_url := [];
     UserCreate.is_active := true |}.

(** Two requests for the same application whose handlers interleave: both
    run their check on the store as it is, then both insert. *)
Definition two_requests_interleaved : option database :=
  let t := example_token "sam@mail.example" "job_seeker" in
  let a := example_application 10 in
  match create_application_check (H := example_platform) example_db example_now t a,
        create_application_check (H := example_platform) example_db example_now t a with
  | Return u1, Return u2 =>
      let '(db1, r1) := create_application_insert (H := example_platform)
                          example_db example_now u1 a in
      let '(db2, r2) := create_application_insert (H := example_platform)
                          db1 example_now u2 a in
      if is_return r1 && is_return r2 then Some db2 else None
  | _, _ => None
  end.

(* ===================================================================== *)
(** * More of the store: listing, counting and deleting *)
(* ===================================================================== *)

(** [find(q)]: the matching documents, in the order of the collection. *)
Definition find `{Platform} (c : collection) (q : query) : list doc :=
  List.filter (matches q) (docs c).

(** [matched_count] of [update_one(q, ...)] *)
Definition matched_count `{Platform} (c : collection) (q : query) : Z :=
  match find_one c q with Some _ => 1 | None => 0 end.

(** [delete_one(q)]: the first matching document goes; returns the
    collection and [deleted_count]. *)
Fixpoint remove_first (P : doc -> bool) (ds : list doc) : list doc * Z :=
  match ds with
  | [] => ([], 0)
  | d :: r =>
      if P d then (r, 1)
      else let '(r', n) := remove_first P r in (d :: r', n)
  end.

Definition delete_one `{Platform} (c : collection) (q : query) : collection * Z :=
  let '(ds, n) := remove_first (matches q) (docs c) in
  ({| docs := ds; indexes := indexes c |}, n).

(** [for x in l: out.append(f(x))], stopping at the first exception *)
Fixpoint for_each {A B} (f : A -> result B) (l : list A) : result (list B) :=
  match l with
  | [] => Return []
  | x :: r =>
      match f x with
      | Raise e => Raise e
      | Return y =>
          match for_each f r with
          | Raise e => Raise e
          | Return ys => Return (y :: ys)
          end
      end
  end.

(** [ObjectId.is_valid(v)] for a stored value *)
Definition ObjectId_is_valid_value (v : value) : bool :=
  match v with
  | VStr s => ObjectId_is_valid s
  | VOid _ => true
  | _ => false
  end.

(** [ObjectId(v)] for a stored value: a string is parsed, an identifier is
    taken as it is, [None] makes the driver generate a new identifier (which
    no stored document has: [None] here), anything else is a [TypeError]. *)
Definition ObjectId_of (v : value) : result (option N) :=
  match v with
  | VStr s => match ObjectId s with
              | Some n => Return (Some n)
              | None => Raise InvalidId
              end
  | VOid n => Return (Some n)
  | VNull => Return None
  | _ => Raise (Exception "TypeError")
  end.

(** [c.find_one({"_id": ObjectId(v)})] *)
Definition find_by_id_of `{Platform} (c : collection) (v : value) : result (option doc) :=
  match ObjectId_of v with
  | Raise e => Raise e
  | Return None => Return None
  | Return (Some n) => Return (find_one c (by_id n))
  end.

(** [d["id"] = str(d["_id"]); del d["_id"]] *)
Definition id_for_underscore_id `{Platform} (d : doc) : result doc :=
  match d !! "_id" with
  | Some v => Return (<["id" := VStr (py_str v)]> (delete "_id" d))
  | None => Raise (KeyError "_id")
  end.

(** What else the libraries provide: parsers of the standard library, the
    validation of the [Application] model, the secret of the environment
    and the token that a compact serialization stands for (a string that is
    no token at all stands for one whose signature fails). *)
Class Library := {
  datetime_fromisoformat : str -> option Z;
  int_of_str : str -> option Z;
  Application_validates : doc -> bool;
  SECRET_KEY_env : option str;
  jwt_of_str : str -> token;
  (** [str(e)] for an [HTTPException], which the framework defines *)
  HTTPException_str : Z -> str -> str
}.

(** [str(e)], the exceptions of the framework included *)
Definition str_of_exn `{Library} (e : exn) : str :=
  match e with
  | HTTPException status_code detail => HTTPException_str status_code detail
  | _ => exn_str e
  end.

(** [int(v)] *)
Definition int_of_value `{Library} (v : value) : result value :=
  match v with
  | VInt z => Return (VInt z)
  | VBool b => Return (VInt (if b then 1 else 0))
  | VDouble f => match py_int f with
                 | Some z => Return (VInt z)
                 | None => Raise (Exception "OverflowError")
                 end
  | VStr s => match int_of_str s with
              | Some z => Return (VInt z)
              | None => Raise (Exception "ValueError")
              end
  | _ => Raise (Exception "TypeError")
  end.

(** [s.replace('Z', '+00:00')] *)
Definition replace_Z (s : str) : str :=
  List.flat_map (fun c => if (c =? 90)%N then lit "+00:00" else [c]) s.

(* ===================================================================== *)
(** * The stored role (app/utils/auth.py) and the administrator's
      handlers (app/routers/admin.py) *)
(* ===================================================================== *)

Section Admin.
Context `{Platform} `{Library}.

Definition get_current_user_role (db : database) (user_id : str) : result value :=
  try_except
    (match ObjectId user_id with
     | None => Raise InvalidId
     | Some oid =>
         match find_one (users db) (by_id oid) with
         | None => Raise (Exception "User not found")
         | Some user => Return (default (VStr (lit "job_seeker")) (user !! "role"))
         end
     end)
    (fun _ => Raise (Exception "Could not get user role")).

(** The dependency of every handler of the administrator. *)
Definition require_admin (db : database) (now : Z) (t : token) : result Identity.t :=
  current_user ← get_current_user db now t;
  user_role ← get_current_user_role db (Identity.id current_user);
  if negb (value_eqb user_role (VStr (lit "admin")))
  then Raise (HTTPException 403 (lit "Only admin users can access this resource"))
  else Return current_user.

(** [except Exception as e: raise HTTPException(500, prefix + str(e))]: the
    handler catches what its own body raised, the errors it raised itself
    included. *)
Definition answer_500 {A} (prefix : string) (r : result A) : result A :=
  try_except r (fun e => Raise (HTTPException 500 (lit prefix ++ str_of_exn e))).

(** The body of the [try] of [update_user_status]. *)
Definition update_user_status_body (db : database) (user_id : str) (is_active : bool)
  : database * result doc :=
  match ObjectId user_id with
  | None => (db, Raise InvalidId)
  | Some oid =>
      match find_one (users db) (by_id oid) with
      | None => (db, Raise (HTTPException 404 (lit "User not found")))
      | Some _ =>
          let '(users', modified_count) :=
            update_one (users db) (by_id oid) {["is_active"%string := VBool is_active]} in
          let db' := set_users users' db in
          if modified_count =? 0
          then (db', Raise (HTTPException 400 (lit "Failed to update user status")))
          else (db', Return {[ "message"%string := VStr (lit "User status updated successfully");
                               "is_active"%string := VBool is_active ]})
      end
  end.

Definition update_user_status (db : database) (now : Z) (t : token)
           (user_id : str) (is_active : bool) : database * result doc :=
  match require_admin db now t with
  | Raise e => (db, Raise e)
  | Return _ =>
      let '(db', r) := update_user_status_body db user_id is_active in
      (db', answer_500 "Error updating user status: " r)
  end.

End Admin.

(* ===================================================================== *)
(** * The current user, by the header (app/routers/auth.py) *)
(* ===================================================================== *)

Module AuthRouter.
Section Me.
Context `{Platform} `{Library}.

(** [GET /api/auth/me] *)
Definition get_current_user (db : database) (now : Z) (authorization : option str)
  : result doc :=
  match authorization with
  | None =>
      Raise (HTTPException 401 (lit "Authorization header missing or invalid format"))
  | Some authorization =>
      if negb (nonempty authorization) || negb (starts_with (lit "Bearer ") authorization)
      then Raise (HTTPException 401 (lit "Authorization header missing or invalid format"))
      else
        let token := List.skipn 7 authorization in
        match SECRET_KEY_env with
        | None => Raise (HTTPException 500 (lit "Server configuration error"))
        | Some secret_key =>
            if negb (nonempty secret_key)
            then Raise (HTTPException 500 (lit "Server configuration error"))
            else
              email ←
                try_except
                  (payload ← jwt_decode now (jwt_of_str token);
                   match payload !! "sub" with
                   | None | Some VNull =>
                       Raise (HTTPException 401 (lit "Could not validate credentials"))
                   | Some email => Return email
                   end)
                  (fun e =>
                     match e with
                     | JWTError =>
                         Raise (HTTPException 401 (lit "Could not validate credentials"))
                     | _ => Raise e
                     end);
              (* Try to get user from database *)
              user ←
                try_except
                  (match find_one (users db) (by_email email) with
                   | None => Raise (HTTPException 401 (lit "User not found"))
                   | Some user => Return user
                   end)
                  (fun _ =>
                     Raise (HTTPException 503
                              (lit "Service temporarily unavailable. Please try again later.")));
              uid ← getitem user "_id";
              uemail ← getitem user "email";
              uname ← getitem user "full_name";
              Return ({[ "id"%string := VStr (py_str uid);
                         "email"%string := uemail;
                         "name"%string := uname;
                         "role"%string :=
                           default (VStr (lit "job_seeker")) (user !! "role") ]} : doc)
        end
  end.
End Me.
End AuthRouter.

(* ===================================================================== *)
(** * More of the jobs (app/routers/job.py) *)
(* ===================================================================== *)

(** [JobCreate] is [JobBase] with nothing added, like [JobUpdate]. *)
Module JobCreate.
Definition t := JobUpdate.t.
End JobCreate.

Section MoreJobs.
Context `{Platform} `{Library}.

(** [job.model_dump()] with the fields the server adds (the two readings
    of the clock are one instant here). *)
Definition job_dict (now : Z) (current_user : Identity.t) (job : JobCreate.t) : doc :=
  <["view_count" := VInt 0]>
    (<["application_count" := VInt 0]>
       (<["is_active" := VBool true]>
          (<["updated_at" := VDate now]>
             (<["posted_date" := VDate now]>
                (<["created_by" := VStr (Identity.id current_user)]>
                   (JobUpdate_model_dump job)))))).

(** [Job(id=d["id"], title=d["title"], ...)]: the fields of the model, each
    one read from the dictionary, in the order of the call. *)
Definition Job_keywords : list string :=
  [ "id"; "title"; "description"; "company"; "salary_min"; "salary_max"; "location";
    "skills"; "experience_required"; "work_mode"; "company_logo_url"; "company_rating";
    "reviews_count"; "posted_date"; "is_active"; "application_count"; "view_count" ]%string.

Definition Job_of_fields (d : doc) : result doc :=
  match List.find (fun k => bool_decide (d !! k = None)) Job_keywords with
  | Some k => Raise (KeyError k)
  | None => Job (filter (fun kv => bool_decide (kv.1 ∈ Job_keywords)) d)
  end.

Definition create_job (db : database) (now : Z) (t : token) (job : JobCreate.t)
  : database * result doc :=
  match get_current_user db now t with
  | Raise e =>
      (db, Raise (HTTPException 401 (lit "Authentication failed: " ++ exn_str e)))
  | Return current_user =>
      (* Only employers can create jobs *)
      if negb (value_eqb (Identity.role current_user) (VStr (lit "employer")))
      then (db, Raise (HTTPException 403 (lit "Only employers can create jobs")))
      else
        match insert_one (jobs db) (next_oid db) (job_dict now current_user job) with
        | Raise e => (db, Raise e)
        | Return (stored, jobs') =>
            (bump_oid (set_jobs jobs' db),
             Job_of_fields
               (<["id" := VStr (py_str (default VNull (stored !! "_id")))]> stored))
        end
  end.

(** The filter of [get_jobs]. *)
Definition get_jobs_query (search location job_type : str) : query :=
  let q : query := {["is_active"%string := Field (CEq (VBool true))]} in
  let q := if nonempty search
           then <["$or" := Or [ ("title"%string, CRegex (VStr search) (lit "i"));
                                ("description"%string, CRegex (VStr search) (lit "i"));
                                ("skills"%string, CIn [VStr search]) ]]> q
           else q in
  let q := if nonempty location
           then <["location" := Field (CRegex (VStr location) (lit "i"))]> q else q in
  let q := if nonempty job_type
           then <["work_mode" := Field (CEq (VStr job_type))]> q else q in
  q.

Definition by_id_active (oid : N) : query :=
  {[ "_id"%string := Field (CEq (VOid oid));
     "is_active"%string := Field (CEq (VBool true)) ]}.

(** The dictionary [get_job] builds from the stored job. *)
Definition job_data (now : Z) (job : doc) : result doc :=
  let processed_posted_date :=
    match default (VDate now) (job !! "posted_date") with
    | VStr s => match datetime_fromisoformat (replace_Z s) with
                | Some t => VDate t
                | None => VDate now
                end
    | VDate t => VDate t
    | _ => VDate now
    end in
  uid ← getitem job "_id";
  application_count ← int_of_value (default (VInt 0) (job !! "application_count"));
  view_count ← int_of_value (default (VInt 0) (job !! "view_count"));
  Return
    (list_to_map
       [ ("id"%string, VStr (py_str uid));
         ("title"%string, default (VStr []) (job !! "title"));
         ("description"%string, default (VStr []) (job !! "description"));
         ("company"%string, default (VStr []) (job !! "company"));
         ("salary_min"%string, default VNull (job !! "salary_min"));
         ("salary_max"%string, default VNull (job !! "salary_max"));
         ("location"%string, default (VStr []) (job !! "location"));
         ("skills"%string, default (VList []) (job !! "skills"));
         ("experience_required"%string, default VNull (job !! "experience_required"));
         ("work_mode"%string, default VNull (job !! "work_mode"));
         ("company_logo_url"%string, default VNull (job !! "company_logo_url"));
         ("company_rating"%string, default VNull (job !! "company_rating"));
         ("reviews_count"%string, default VNull (job !! "reviews_count"));
         ("posted_date"%string, processed_posted_date);
         ("is_active"%string, VBool (truthy (default (VBool true) (job !! "is_active"))));
         ("application_count"%string, application_count);
         ("view_count"%string, view_count) ] : doc).

Definition get_job (db : database) (now : Z) (job_id : str) : result doc :=
  let not_found := Raise (HTTPException 404 (lit "Job not found")) in
  (* First, try to find by ObjectId *)
  if ObjectId_is_valid job_id then
    match ObjectId job_id with
    | None => Raise (HTTPException 400 (lit "Invalid job ID"))
    | Some oid =>
        match find_one (jobs db) (by_id_active oid) with
        | Some job =>
            try_except (d ← job_data now job; Job d)
              (fun _ => Raise (HTTPException 400 (lit "Invalid job ID")))
        | None => not_found
        end
    end
  else not_found.

(** The body of the [try] of [delete_job]. *)
Definition delete_job_body (db : database) (current_user : Identity.t) (job_id : str)
  : database * result doc :=
  match ObjectId job_id with
  | None => (db, Raise InvalidId)
  | Some oid =>
      (* Find the job first *)
      match find_one (jobs db) (by_id oid) with
      | None => (db, Raise (HTTPException 404 (lit "Job not found")))
      | Some job =>
          match job !! "created_by" with
          | None => (db, Raise (KeyError "created_by"))
          | Some created_by =>
              (* Check if user is authorized to delete (owner or admin) *)
              if negb (value_eqb created_by (VStr (Identity.id current_user)))
                 && negb (value_eqb (Identity.role current_user) (VStr (lit "admin")))
              then (db, Raise (HTTPException 403 (lit "Not authorized to delete this job")))
              else
                let '(jobs', deleted_count) := delete_one (jobs db) (by_id oid) in
                let db' := set_jobs jobs' db in
                if deleted_count =? 0
                then (db', Raise (HTTPException 404 (lit "Job not found")))
                else (db', Return {["message"%string := VStr (lit "Job deleted successfully")]})
          end
      end
  end.

Definition delete_job (db : database) (now : Z) (t : token) (job_id : str)
  : database * result doc :=
  match get_current_user db now t with
  | Raise e => (db, Raise e)
  | Return current_user =>
      let '(db', r) := delete_job_body db current_user job_id in
      (db', try_except r (fun _ => Raise (HTTPException 400 (lit "Invalid job ID"))))
  end.
End MoreJobs.

(* ===================================================================== *)
(** * More of the applications (app/routers/applications.py) *)
(* ===================================================================== *)

(** A field of [ApplicationUpdate] is unset ([None]), set to null
    ([Some None]) or set to a value. *)
Module ApplicationUpdate.
Record t := { status : option (option ApplicationStatus);
              notes : option (option str);
              viewed_at : option (option Z) }.
End ApplicationUpdate.

(** [application_update.model_dump(exclude_unset=True)], the status already
    turned into its string. *)
Definition ApplicationUpdate_model_dump (u : ApplicationUpdate.t) : doc :=
  let d : doc := ∅ in
  let d := match ApplicationUpdate.status u with
           | Some (Some s) => <["status" := VStr (ApplicationStatus_value s)]> d
           | Some None => <["status" := VNull]> d
           | None => d
           end in
  let d := match ApplicationUpdate.notes u with
           | Some o => <["notes" := of_option o]> d
           | None => d
           end in
  let d := match ApplicationUpdate.viewed_at u with
           | Some (Some t) => <["viewed_at" := VDate t]> d
           | Some None => <["viewed_at" := VNull]> d
           | None => d
           end in
  d.

Section MoreApplications.
Context `{Platform} `{Library}.

(** The [Application] built from a dictionary: the model allows extra
    fields and keeps what it is given. *)
Definition Application (d : doc) : result doc :=
  if Application_validates d then Return d else Raise (Exception "ValidationError").

Definition by_job_id (job_id : str) : query :=
  {["job_id"%string := Field (CEq (VStr job_id))]}.

Definition by_id_and_user (oid : N) (user_id : str) : query :=
  {[ "_id"%string := Field (CEq (VOid oid));
     "user_id"%string := Field (CEq (VStr user_id)) ]}.

(** One turn of the loop of [get_job_applications]. *)
Definition with_applicant (db : database) (application : doc) : result doc :=
  application ← id_for_underscore_id application;
  (* Get user details to include in response *)
  user_id ← getitem application "user_id";
  user ← find_by_id_of (users db) user_id;
  Application
    (match user with
     | Some user =>
         <["applicant_email" := default (VStr []) (user !! "email")]>
           (<["applicant_name" := default (VStr []) (user !! "full_name")]> application)
     | None =>
         <["applicant_email" := VStr (lit "Unknown")]>
           (<["applicant_name" := VStr (lit "Unknown")]> application)
     end).

Definition get_job_applications (db : database) (now : Z) (t : token) (job_id : str)
  : result (list doc) :=
  current_user ← get_current_user db now t;
  (* Validate job_id format first *)
  match ObjectId job_id with
  | None => Raise (HTTPException 400 (lit "Invalid job ID format"))
  | Some oid =>
      (* Verify job exists and belongs to current user (if employer) *)
      match find_one (jobs db) (by_id oid) with
      | None => Raise (HTTPException 404 (lit "Job not found"))
      | Some job =>
          (* Check if current user is the job creator or an admin *)
          if negb (value_eqb (default VNull (job !! "created_by"))
                             (VStr (Identity.id current_user)))
             && negb (value_eqb (Identity.role current_user) (VStr (lit "admin")))
          then Raise (HTTPException 403
                        (lit "Not authorized to view applications for this job"))
          else for_each (with_applicant db) (find (applications db) (by_job_id job_id))
      end
  end.

(** The details of the job that [get_application] adds. *)
Definition with_job_details (db : database) (application : doc) : result doc :=
  job_id ← getitem application "job_id";
  if ObjectId_is_valid_value job_id then
    job ← find_by_id_of (jobs db) job_id;
    match job with
    | Some job =>
        Return (<["company" := default (VStr []) (job !! "company")]>
                  (<["job_title" := default (VStr []) (job !! "title")]> application))
    | None =>
        Return (<["company" := VStr (lit "Unknown")]>
                  (<["job_title" := VStr (lit "Job Not Found")]> application))
    end
  else
    Return (<["company" := VStr (lit "Unknown")]>
              (<["job_title" := VStr (lit "Invalid Job ID")]> application)).

(** The [try] of [get_application]: the application the caller may see,
    if any. *)
Definition visible_application (db : database) (current_user : Identity.t)
           (application_id : str) : result (option doc) :=
  match ObjectId application_id with
  | None => Raise (HTTPException 400 (lit "Invalid application ID format"))
  | Some oid =>
      (* First, try to find the application for the current user *)
      match find_one (applications db) (by_id_and_user oid (Identity.id current_user)) with
      | Some application => Return (Some application)
      | None =>
          (* If not found, check if current user is the employer who posted the job *)
          match find_one (applications db) (by_id oid) with
          | None => Return None
          | Some application =>
              if get_truthy application "job_id" then
                job ← find_by_id_of (jobs db) (default VNull (application !! "job_id"));
                match job with
                | Some job =>
                    if value_eqb (default VNull (job !! "created_by"))
                                 (VStr (Identity.id current_user))
                    then Return (Some application)
                    else Return None
                | None => Return None
                end
              else Return None
          end
      end
  end.

Definition get_application (db : database) (now : Z) (t : token) (application_id : str)
  : result doc :=
  current_user ← get_current_user db now t;
  application ←
    try_except (visible_application db current_user application_id)
      (fun _ => Raise (HTTPException 400 (lit "Invalid application ID")));
  match application with
  | None =>
      Raise (HTTPException 404 (lit "Application not found or not authorized to view"))
  | Some application =>
      application ← id_for_underscore_id application;
      application ← with_job_details db application;
      Application application
  end.

(** The body of the [try] of [update_application]. *)
Definition update_application_body (db : database) (now : Z) (current_user : Identity.t)
           (application_id : str) (application_update : ApplicationUpdate.t)
  : database * result doc :=
  match ObjectId application_id with
  | None => (db, Raise (HTTPException 400 (lit "Invalid application ID format")))
  | Some oid =>
      let update_data :=
        <["updated_date" := VDate now]> (ApplicationUpdate_model_dump application_update) in
      let q := by_id_and_user oid (Identity.id current_user) in
      let matched := matched_count (applications db) q in
      let '(applications', _) := update_one (applications db) q update_data in
      let db' := set_applications applications' db in
      if matched =? 0
      then (db', Raise (HTTPException 404 (lit "Application not found")))
      else
        match find_one applications' (by_id oid) with
        | Some updated_application =>
            (db', d ← id_for_underscore_id updated_application; Application d)
        | None => (db', Raise (HTTPException 404 (lit "Application not found")))
        end
  end.

Definition update_application (db : database) (now : Z) (t : token)
           (application_id : str) (application_update : ApplicationUpdate.t)
  : database * result doc :=
  match get_current_user db now t with
  | Raise e => (db, Raise e)
  | Return current_user =>
      let '(db', r) :=
        update_application_body db now current_user application_id application_update in
      (db', try_except r (fun _ => Raise (HTTPException 400 (lit "Invalid application ID"))))
  end.

(** The body of the [try] of [delete_application]. *)
Definition delete_application_body (db : database) (current_user : Identity.t)
           (application_id : str) : database * result doc :=
  match ObjectId application_id with
  | None => (db, Raise (HTTPException 400 (lit "Invalid application ID format")))
  | Some oid =>
      (* Check if the current user is the owner of the application *)
      match find_one (applications db) (by_id oid) with
      | None => (db, Raise (HTTPException 404 (lit "Application not found")))
      | Some application =>
          match application !! "user_id" with
          | None => (db, Raise (KeyError "user_id"))
          | Some user_id =>
              (* Only the application owner or admin can delete the application *)
              if negb (value_eqb user_id (VStr (Identity.id current_user)))
                 && negb (value_eqb (Identity.role current_user) (VStr (lit "admin")))
              then (db, Raise (HTTPException 403
                                 (lit "Not authorized to delete this application")))
              else
                let '(applications', deleted_count) :=
                  delete_one (applications db) (by_id oid) in
                let db' := set_applications applications' db in
                if deleted_count =? 0
                then (db', Raise (HTTPException 404 (lit "Application not found")))
                else (db', Return {["message"%string :=
                                      VStr (lit "Application deleted successfully")]})
          end
      end
  end.

Definition delete_application (db : database) (now : Z) (t : token)
           (application_id : str) : database * result doc :=
  match get_current_user db now t with
  | Raise e => (db, Raise e)
  | Return current_user =>
      let '(db', r) := delete_application_body db current_user application_id in
      (db', try_except r (fun _ => Raise (HTTPException 400 (lit "Invalid application ID"))))
  end.
End MoreApplications.

(* ===================================================================== *)
(** * More example data *)
(* ===================================================================== *)

(** ISO dates and numerals are not parsed, every application validates,
    and the header carries the name of one of two tokens. *)
Definition example_library : Library :=
  {| datetime_fromisoformat := fun _ => None;
     int_of_str := fun _ => None;
     Application_validates := fun _ => true;
     SECRET_KEY_env := Some (lit "secret");
     HTTPException_str := fun status_code detail => decimal status_code ++ lit ": " ++ detail;
     jwt_of_str := fun s =>
       if bool_decide (s = lit "erin") then example_token "erin@acme.example" "employer"
       else if bool_decide (s = lit "ghost") then example_token "ghost@mail.example" "job_seeker"
       else {| claims := ∅; signature_ok := false |} |}.

(** Setting the sections of a profile. *)
Definition with_experience (l : list Experience.t) (p : Profile.t) : Profile.t :=
  {| Profile.fullName := Profile.fullName p; Profile.email := Profile.email p;
     Profile.phone := Profile.phone p; Profile.address := Profile.address p;
     Profile.headline := Profile.headline p; Profile.summary := Profile.summary p;
     Profile.experience := l;
     Profile.education := Profile.education p;
     Profile.skills := Profile.skills p;
     Profile.projects := Profile.projects p;
     Profile.profilePicture := Profile.profilePicture p |}.

(** A position without a company. *)
Definition unfinished_experience : Experience.t :=
  {| Experience.title := lit "Analyst"; Experience.company := [];
     Experience.startDate := None; Experience.endDate := None;
     Experience.description := None |}.

Definition finished_experience : Experience.t :=
  {| Experience.title := lit "Analyst"; Experience.company := lit "Babbage";
     Experience.startDate := None; Experience.endDate := None;
     Experience.description := None |}.

(** A profile with nothing missing: every field filled, one position, one
    degree, one project, and no skills listed. *)
Definition complete_profile : Profile.t :=
  {| Profile.fullName := Some (lit "Ada Lovelace");
     Profile.email := Some (lit "ada@example.com");
     Profile.phone := Some (lit "5550100000");
     Profile.address := Some (lit "12 St James Square");
     Profile.headline := Some (lit "Analyst");
     Profile.summary := Some (lit "Notes on the analytical engine");
     Profile.experience := [finished_experience];
     Profile.education :=
       [ {| Education.school := lit "Home"; Education.degree := lit "Mathematics";
            Education.field := None; Education.startDate := None;
            Education.endDate := None |} ];
     Profile.skills := [];
     Profile.projects :=
       [ {| Project.title := lit "Notes"; Project.description := lit "Translation and notes";
            Project.url := None; Project.technologies := [] |} ];
     Profile.profilePicture := Some (lit "/uploads/ada.png") |}.

(** The example store after Sam has applied for the first job. *)
Definition example_db_applied : database :=
  fst (create_application (H := example_platform) example_db example_now
         (example_token "sam@mail.example" "job_seeker") (example_application 10)).

Definition example_identity (oid : N) (email role : string) : Identity.t :=
  {| Identity.id := ObjectId_str oid;
     Identity.email := VStr (lit email);
     Identity.role := VStr (lit role) |}.

(** Sam's application, as stored. *)
Definition example_stored_application : doc :=
  <["_id" := VOid 100]>
    (application_dict example_now (example_identity 3 "sam@mail.example" "job_seeker")
       (example_application 10)).

(** A request that sets the status and nothing else. *)
Definition example_application_update : ApplicationUpdate.t :=
  {| ApplicationUpdate.status := Some (Some REVIEWED);
     ApplicationUpdate.notes := None;
     ApplicationUpdate.viewed_at := None |}.

(* ===================================================================== *)
(** * Properties of binary64 rounding *)
(* ===================================================================== *)

(** Closing an equation between closed terms by evaluation. *)
Ltac by_evaluation :=
  lazymatch goal with
  | |- ?a = ?b => exact (@eq_refl _ b <: a = b)
  end.

Lemma pow2_pos e : (0 < pow2 e)%Q.
Proof. apply Qpower_0_lt. reflexivity. Qed.

Lemma pow2_add a b : (pow2 (a + b) == pow2 a * pow2 b)%Q.
Proof. apply Qpower_plus. discriminate. Qed.

Lemma pow2_0 : (pow2 0 == 1)%Q.
Proof. reflexivity. Qed.

Lemma pow2_1 : (pow2 1 == 2)%Q.
Proof. reflexivity. Qed.

Lemma pow2_m1 : (pow2 (-1) == (1 # 2))%Q.
Proof. reflexivity. Qed.

Lemma pow2_le a b : a <= b -> (pow2 a <= pow2 b)%Q.
Proof. intros H. apply Qpower_le_compat_l; [exact H | discriminate]. Qed.

Lemma pow2_lt a b : a < b -> (pow2 a < pow2 b)%Q.
Proof. intros H. apply Qpower_lt_compat_l; [exact H | reflexivity]. Qed.

Lemma pow2_lt_inv a b : (pow2 a < pow2 b)%Q -> a < b.
Proof. intros H. apply (Qpower_lt_compat_l_inv 2); [exact H | reflexivity]. Qed.

Lemma pow2_le_inv a b : (pow2 a <= pow2 b)%Q -> a <= b.
Proof. intros H. apply (Qpower_le_compat_l_inv 2); [exact H | reflexivity]. Qed.

Lemma pow2_Z e : 0 <= e -> (pow2 e == inject_Z (2 ^ e))%Q.
Proof. intros H. unfold pow2. rewrite Zpower_Qpower by exact H. reflexivity. Qed.

Lemma digits2_bounds p :
  2 ^ (Z.pos (digits2_pos p) - 1) <= Z.pos p < 2 ^ Z.pos (digits2_pos p).
Proof.
  induction p as [p IH | p IH |]; simpl digits2_pos.
  - rewrite Pos2Z.inj_succ.
    replace (Z.succ (Z.pos (digits2_pos p)) - 1) with (Z.succ (Z.pos (digits2_pos p) - 1)) by lia.
    rewrite !Z.pow_succ_r by lia. lia.
  - rewrite Pos2Z.inj_succ.
    replace (Z.succ (Z.pos (digits2_pos p)) - 1) with (Z.succ (Z.pos (digits2_pos p) - 1)) by lia.
    rewrite !Z.pow_succ_r by lia. lia.
  - simpl. lia.
Qed.

Lemma located_ext m l u v : (u == v)%Q -> located m l u -> located m l v.
Proof.
  intros E. destruct l as [| []]; simpl; intros H.
  - rewrite <- E; exact H.
  - rewrite <- E; exact H.
  - rewrite <- E; exact H.
  - rewrite <- E; exact H.
Qed.

Lemma inj_xO p : (inject_Z (Z.pos p~0) == 2 * inject_Z (Z.pos p))%Q.
Proof. rewrite Pos2Z.inj_xO, inject_Z_mult. reflexivity. Qed.

Lemma inj_xI p : (inject_Z (Z.pos p~1) == 2 * inject_Z (Z.pos p) + 1)%Q.
Proof. rewrite Pos2Z.inj_xI, inject_Z_plus, inject_Z_mult. reflexivity. Qed.

Lemma shr_1_located mrs u :
  0 <= shr_m mrs ->
  located (shr_m mrs) (loc_of_shr_record mrs) u ->
  0 <= shr_m (shr_1 mrs) /\
  located (shr_m (shr_1 mrs)) (loc_of_shr_record (shr_1 mrs)) (u * (1 # 2)).
Proof.
  destruct mrs as [m r s]. simpl shr_m. intros Hm.
  destruct m as [| p | p]; [| | lia].
  - destruct r, s; simpl; unfold inject_Z; intros H; split; try lia; lra.
  - destruct p as [p | p |]; destruct r, s; simpl;
      rewrite ?inj_xI, ?inj_xO; intros H; split; try lia;
      try change (inject_Z 1) with 1%Q in *; try change (inject_Z 0) with 0%Q in *; lra.
Qed.

Lemma iter_shr_1_located p : forall mrs u,
  0 <= shr_m mrs ->
  located (shr_m mrs) (loc_of_shr_record mrs) u ->
  0 <= shr_m (SpecFloat.iter_pos shr_1 p mrs) /\
  located (shr_m (SpecFloat.iter_pos shr_1 p mrs))
          (loc_of_shr_record (SpecFloat.iter_pos shr_1 p mrs)) (u * pow2 (- Z.pos p)).
Proof.
  induction p as [p IH | p IH |]; intros mrs u Hm Hl; simpl SpecFloat.iter_pos.
  - destruct (shr_1_located mrs u Hm Hl) as [H0 H1].
    destruct (IH _ _ H0 H1) as [H2 H3].
    destruct (IH _ _ H2 H3) as [H4 H5].
    split; [exact H4 |]. eapply located_ext; [| exact H5].
    replace (- Z.pos p~1) with (-1 + (- Z.pos p + - Z.pos p)) by lia.
    rewrite !pow2_add, pow2_m1. ring.
  - destruct (IH _ _ Hm Hl) as [H2 H3].
    destruct (IH _ _ H2 H3) as [H4 H5].
    split; [exact H4 |]. eapply located_ext; [| exact H5].
    replace (- Z.pos p~0) with (- Z.pos p + - Z.pos p) by lia.
    rewrite !pow2_add. ring.
  - destruct (shr_1_located mrs u Hm Hl) as [H0 H1].
    split; [exact H0 |]. eapply located_ext; [| exact H1].
    change (- Z.pos 1) with (-1). rewrite pow2_m1. reflexivity.
Qed.

Lemma loc_of_shr_record_of_loc m l :
  loc_of_shr_record (shr_record_of_loc m l) = l /\ shr_m (shr_record_of_loc m l) = m.
Proof. destruct l as [| []]; split; reflexivity. Qed.

Lemma shr_fexp_located m e l x :
  0 <= m ->
  located m l (x * pow2 (- e)) ->
  e <= fexp prec emax (Zdigits2 m + e) ->
  0 <= shr_m (fst (shr_fexp prec emax m e l)) /\
  snd (shr_fexp prec emax m e l) = fexp prec emax (Zdigits2 m + e) /\
  located (shr_m (fst (shr_fexp prec emax m e l)))
          (loc_of_shr_record (fst (shr_fexp prec emax m e l)))
          (x * pow2 (- fexp prec emax (Zdigits2 m + e))).
Proof.
  intros Hm Hl He. unfold shr_fexp, shr.
  set (c := fexp prec emax (Zdigits2 m + e)) in *.
  destruct (loc_of_shr_record_of_loc m l) as [E1 E2].
  destruct (c - e) as [| n | n] eqn:Hn; simpl fst; simpl snd.
  - assert (c = e) by lia. subst c. rewrite E1, E2, H. repeat split; assumption.
  - destruct (iter_shr_1_located n (shr_record_of_loc m l) (x * pow2 (- e))) as [H0 H1].
    + rewrite E2; exact Hm.
    + rewrite E1, E2; exact Hl.
    + repeat split; [exact H0 | lia |].
      eapply located_ext; [| exact H1].
      replace (- c) with (- e + - Z.pos n) by lia. rewrite pow2_add. ring.
  - lia.
Qed.

Lemma located_bounds m l u :
  located m l u -> (inject_Z m <= u /\ u < inject_Z m + 1)%Q.
Proof. destruct l as [| []]; simpl; intros H; lra. Qed.

Lemma rne_bounds m l :
  m <= round_nearest_even m l <= m + 1.
Proof. destruct l as [| []]; simpl; try lia. destruct (Z.even m); lia. Qed.

Lemma Zdigits2_bounds m : 0 <= m -> m + 1 <= 2 ^ Zdigits2 m.
Proof.
  intros H. destruct m as [| p | p]; [simpl; lia | | lia].
  simpl Zdigits2. pose proof (digits2_bounds p). lia.
Qed.

Lemma Zdigits2_lower m : 0 < m -> 2 ^ (Zdigits2 m - 1) <= m /\ 0 < Zdigits2 m.
Proof.
  intros H. destruct m as [| p | p]; [lia | | lia].
  simpl Zdigits2. pose proof (digits2_bounds p). lia.
Qed.

Lemma Zdigits2_nonneg m : 0 <= Zdigits2 m.
Proof. destruct m; simpl; lia. Qed.

Lemma inject_Z_lt_inv a b : (inject_Z a < inject_Z b)%Q -> a < b.
Proof. rewrite <- Zlt_Qlt. tauto. Qed.

Lemma inject_Z_le_inv a b : (inject_Z a <= inject_Z b)%Q -> a <= b.
Proof. rewrite <- Zle_Qle. tauto. Qed.

(* the scaled value stays below 2^(d+e-c) *)
Lemma scaled_upper m e l x c :
  0 <= m -> located m l (x * pow2 (- e)) ->
  (x * pow2 (- c) < pow2 (Zdigits2 m + e - c))%Q.
Proof.
  intros Hm Hl. apply located_bounds in Hl. destruct Hl as [_ Hu].
  assert (H1 : (inject_Z m + 1 <= pow2 (Zdigits2 m))%Q).
  { rewrite pow2_Z by apply Zdigits2_nonneg.
    change 1%Q with (inject_Z 1). rewrite <- inject_Z_plus, <- Zle_Qle.
    apply Zdigits2_bounds, Hm. }
  replace (- c) with (- e + (e - c)) by lia.
  replace (Zdigits2 m + e - c) with (Zdigits2 m + (e - c)) by lia.
  rewrite !pow2_add. pose proof (pow2_pos (e - c)).
  rewrite Qmult_assoc. apply Qmult_lt_compat_r; [assumption | lra].
Qed.

Lemma fexp_eq z : fexp prec emax z = Z.max (z - 53) (-1074).
Proof. reflexivity. Qed.

Lemma shr_fexp_small mr c :
  0 <= mr < 2 ^ 53 -> -1074 <= c ->
  shr_fexp prec emax mr c loc_Exact = (shr_record_of_loc mr loc_Exact, c).
Proof.
  intros Hm Hc. unfold shr_fexp, shr.
  assert (Hd : Zdigits2 mr <= 53).
  { destruct (Z.eq_dec mr 0) as [-> | Hn]; [simpl; lia |].
    destruct (Zdigits2_lower mr) as [H1 H2]; [lia |].
    assert (2 ^ (Zdigits2 mr - 1) < 2 ^ 53) by lia.
    apply Z.pow_lt_mono_r_iff in H; lia. }
  rewrite fexp_eq.
  destruct (Z.max (Zdigits2 mr + c - 53) (-1074) - c) eqn:E; try reflexivity. lia.
Qed.

Lemma binary_round_aux_spec m e l x :
  0 <= m -> located m l (x * pow2 (- e)) ->
  e <= fexp prec emax (Zdigits2 m + e) ->
  Zdigits2 m + e < emax ->
  exists m1 l1,
    0 <= m1 /\
    located m1 l1 (x * pow2 (- fexp prec emax (Zdigits2 m + e))) /\
    nonneg_finite (binary_round_aux prec emax false m e l) /\
    (SF2Q (binary_round_aux prec emax false m e l) ==
       inject_Z (round_nearest_even m1 l1) * pow2 (fexp prec emax (Zdigits2 m + e)))%Q.
Proof.
  intros Hm Hl He Hmax.
  destruct (shr_fexp_located m e l x Hm Hl He) as (H0 & H1 & H2).
  pose proof (scaled_upper m e l x (fexp prec emax (Zdigits2 m + e)) Hm Hl) as Hup.
  unfold binary_round_aux.
  destruct (shr_fexp prec emax m e l) as [mrs' e'] eqn:E1.
  simpl fst in *; simpl snd in *. subst e'.
  set (c := fexp prec emax (Zdigits2 m + e)) in *.
  set (m1 := shr_m mrs') in *. set (l1 := loc_of_shr_record mrs') in *.
  exists m1, l1. split; [exact H0 |]. split; [exact H2 |].
  assert (Hc : -1074 <= c /\ Zdigits2 m + e - 53 <= c /\ c <= emax - prec - 1).
  { unfold c. rewrite fexp_eq. unfold emax, prec in *. lia. }
  assert (Hm1 : m1 + 1 <= 2 ^ 53).
  { apply located_bounds in H2. destruct H2 as [Hlo _].
    assert (Hp : (pow2 (Zdigits2 m + e - c) <= pow2 53)%Q) by (apply pow2_le; lia).
    rewrite (pow2_Z 53) in Hp by lia.
    assert (Hlt : (inject_Z m1 < inject_Z (2 ^ 53))%Q) by lra.
    apply inject_Z_lt_inv in Hlt. lia. }
  pose proof (rne_bounds m1 l1) as Hr.
  set (mr := round_nearest_even m1 l1) in *.
  destruct (Z.eq_dec mr (2 ^ 53)) as [Hbig | Hsmall].
  - rewrite Hbig. change (2 ^ 53) with 9007199254740992.
    unfold shr_fexp. rewrite fexp_eq.
    change (Zdigits2 9007199254740992) with 54.
    replace (Z.max (54 + c - 53) (-1074) - c) with 1 by lia.
    unfold shr, shr_record_of_loc, SpecFloat.iter_pos, shr_1, shr_m.
    replace (c + 1 <=? emax - prec) with true
      by (symmetry; apply Z.leb_le; lia).
    split; [exact I |]. unfold SF2Q. rewrite pow2_add, pow2_1.
    change (inject_Z 9007199254740992) with (2 * inject_Z 4503599627370496)%Q. ring.
  - rewrite shr_fexp_small by lia. simpl shr_m.
    destruct mr as [| p | p] eqn:Emr; [| | lia].
    + split; [exact I |]. simpl. ring.
    + replace (c <=? emax - prec) with true by (symmetry; apply Z.leb_le; lia).
      split; [exact I |]. simpl SF2Q. ring.
Qed.

Lemma rne_mono m1 l1 u1 m2 l2 u2 :
  located m1 l1 u1 -> located m2 l2 u2 -> (u1 <= u2)%Q ->
  round_nearest_even m1 l1 <= round_nearest_even m2 l2.
Proof.
  intros H1 H2 Hle.
  pose proof (rne_bounds m1 l1) as B1. pose proof (rne_bounds m2 l2) as B2.
  destruct (Z_lt_le_dec m1 m2) as [Hlt | Hge]; [lia |].
  destruct (Z.eq_dec m1 m2) as [-> | Hne].
  - destruct l1 as [| []], l2 as [| []]; simpl in *;
      try destruct (Z.even m2); try lia; exfalso; lra.
  - exfalso. assert (Hz : m2 + 1 <= m1) by lia.
    apply located_bounds in H1, H2.
    rewrite Zle_Qle, inject_Z_plus in Hz. change (inject_Z 1) with 1%Q in Hz. lra.
Qed.

Lemma scaled_lower m e l x c :
  0 < m -> located m l (x * pow2 (- e)) ->
  (pow2 (Zdigits2 m - 1 + e - c) <= x * pow2 (- c))%Q.
Proof.
  intros Hm Hl. apply located_bounds in Hl. destruct Hl as [Hlo _].
  destruct (Zdigits2_lower m Hm) as [Hd Hd0].
  assert (H1 : (pow2 (Zdigits2 m - 1) <= inject_Z m)%Q).
  { rewrite pow2_Z by lia. rewrite <- Zle_Qle. exact Hd. }
  replace (- c) with (- e + (e - c)) by lia.
  replace (Zdigits2 m - 1 + e - c) with (Zdigits2 m - 1 + (e - c)) by lia.
  rewrite !pow2_add. pose proof (pow2_pos (e - c)).
  rewrite Qmult_assoc. apply Qmult_le_compat_r; lra.
Qed.

Lemma unscale x c : (x == x * pow2 (- c) * pow2 c)%Q.
Proof.
  rewrite <- Qmult_assoc, <- pow2_add. replace (- c + c) with 0 by lia.
  rewrite pow2_0. ring.
Qed.

Lemma binary_round_aux_mono m e l x m' e' l' y :
  0 <= m -> located m l (x * pow2 (- e)) ->
  e <= fexp prec emax (Zdigits2 m + e) -> Zdigits2 m + e < emax ->
  0 <= m' -> located m' l' (y * pow2 (- e')) ->
  e' <= fexp prec emax (Zdigits2 m' + e') -> Zdigits2 m' + e' < emax ->
  (x <= y)%Q ->
  (SF2Q (binary_round_aux prec emax false m e l) <=
   SF2Q (binary_round_aux prec emax false m' e' l'))%Q.
Proof.
  intros Hm Hl He Hmax Hm' Hl' He' Hmax' Hxy.
  destruct (binary_round_aux_spec m e l x Hm Hl He Hmax) as (m1 & l1 & P1 & L1 & _ & V1).
  destruct (binary_round_aux_spec m' e' l' y Hm' Hl' He' Hmax') as (m2 & l2 & P2 & L2 & _ & V2).
  rewrite V1, V2. clear V1 V2.
  pose proof (scaled_upper m e l x (fexp prec emax (Zdigits2 m + e)) Hm Hl) as U1.
  revert L1 L2 U1. rewrite !fexp_eq in *.
  set (d1 := Zdigits2 m) in *. set (d2 := Zdigits2 m') in *.
  pose proof (Zdigits2_nonneg m) as Hd1. pose proof (Zdigits2_nonneg m') as Hd2.
  fold d1 in Hd1. fold d2 in Hd2.
  (* the magnitude of x is at most that of y *)
  assert (Hmag : m = 0 \/ d1 + e <= d2 + e').
  { destruct (Z.eq_dec m 0) as [-> | Hn]; [left; reflexivity | right].
    assert (Hpos : 0 < m) by lia.
    pose proof (scaled_lower m e l x 0 Hpos Hl) as A.
    pose proof (scaled_upper m' e' l' y 0 Hm' Hl') as B.
    change (- 0) with 0 in A, B. rewrite pow2_0 in A, B.
    fold d1 in A. fold d2 in B.
    assert (C : (pow2 (d1 - 1 + e - 0) < pow2 (d2 + e' - 0))%Q) by lra.
    apply pow2_lt_inv in C. lia. }
  set (c1 := Z.max (d1 + e - 53) (-1074)) in *.
  set (c2 := Z.max (d2 + e' - 53) (-1074)) in *.
  assert (Hc : c1 <= c2).
  { destruct Hmag as [-> | Hmag]; [| lia]. simpl in d1. lia. }
  intros L1 L2 U1.
  pose proof (rne_bounds m1 l1) as B1. pose proof (rne_bounds m2 l2) as B2.
  destruct (Z.eq_dec c1 c2) as [Heq | Hne].
  - rewrite <- Heq in *.
    assert (Hu : (x * pow2 (- c1) <= y * pow2 (- c1))%Q).
    { apply Qmult_le_compat_r; [exact Hxy | apply Qlt_le_weak, pow2_pos]. }
    pose proof (rne_mono _ _ _ _ _ _ L1 L2 Hu) as R.
    apply Qmult_le_compat_r; [| apply Qlt_le_weak, pow2_pos].
    rewrite <- Zle_Qle. exact R.
  - assert (Hlt : c1 < c2) by lia.
    assert (Hm'pos : 0 < m').
    { destruct (Z.eq_dec m' 0) as [E0 | ?]; [| lia]. exfalso.
      subst m'. simpl in d2. lia. }
    (* the larger result is at least 2^(c2+52) *)
    assert (Hbig : (pow2 (c2 + 52) <= inject_Z (round_nearest_even m2 l2) * pow2 c2)%Q).
    { pose proof (scaled_lower m' e' l' y c2 Hm'pos Hl') as A. fold d2 in A.
      replace (d2 - 1 + e' - c2) with 52 in A by lia.
      apply located_bounds in L2. destruct L2 as [_ L2].
      rewrite (pow2_Z 52) in A by lia.
      assert (Hq : (inject_Z (2 ^ 52) < inject_Z (m2 + 1))%Q).
      { rewrite inject_Z_plus. change (inject_Z 1) with 1%Q. lra. }
      apply inject_Z_lt_inv in Hq.
      assert (Hr : 2 ^ 52 <= round_nearest_even m2 l2) by lia.
      rewrite Z.add_comm, pow2_add, (pow2_Z 52) by lia.
      apply Qmult_le_compat_r; [| apply Qlt_le_weak, pow2_pos].
      rewrite <- Zle_Qle. exact Hr. }
    (* the smaller one is at most 2^(c2+52) *)
    assert (Hsmall : (inject_Z (round_nearest_even m1 l1) * pow2 c1 <= pow2 (c2 + 52))%Q).
    { apply located_bounds in L1. destruct L1 as [L1 _].
      destruct (Z_le_gt_dec 0 (d1 + e - c1)) as [Hk | Hk].
      - rewrite (pow2_Z (d1 + e - c1)) in U1 by exact Hk.
        assert (Hq : (inject_Z m1 < inject_Z (2 ^ (d1 + e - c1)))%Q) by lra.
        apply inject_Z_lt_inv in Hq.
        assert (Hr : round_nearest_even m1 l1 <= 2 ^ (d1 + e - c1)) by lia.
        apply Qle_trans with (pow2 (d1 + e - c1) * pow2 c1)%Q.
        + apply Qmult_le_compat_r; [| apply Qlt_le_weak, pow2_pos].
          rewrite pow2_Z by exact Hk. rewrite <- Zle_Qle. exact Hr.
        + rewrite <- pow2_add. apply pow2_le. lia.
      - assert (Hone : (pow2 (d1 + e - c1) <= pow2 0)%Q) by (apply pow2_le; lia).
        rewrite pow2_0 in Hone.
        assert (Hq : (inject_Z m1 < inject_Z 1)%Q) by (change (inject_Z 1) with 1%Q; lra).
        apply inject_Z_lt_inv in Hq.
        assert (Hr : round_nearest_even m1 l1 <= 1) by lia.
        apply Qle_trans with (1 * pow2 c1)%Q.
        + apply Qmult_le_compat_r; [| apply Qlt_le_weak, pow2_pos].
          change 1%Q with (inject_Z 1). rewrite <- Zle_Qle. exact Hr.
        + rewrite Qmult_1_l. apply pow2_le. lia. }
    lra.
Qed.

Lemma new_location_located q r p :
  0 <= r < Z.pos p ->
  located q (new_location (Z.pos p) r) (inject_Z q + (r # p)).
Proof.
  intros Hr.
  assert (Hlt : 2 * r < Z.pos p -> ((r # p) < (1 # 2))%Q)
    by (intros H; unfold Qlt; simpl; lia).
  assert (Hgt : Z.pos p < 2 * r -> ((1 # 2) < (r # p))%Q)
    by (intros H; unfold Qlt; simpl; lia).
  assert (Heq : 2 * r = Z.pos p -> ((r # p) == (1 # 2))%Q)
    by (intros H; unfold Qeq; simpl; lia).
  assert (H0 : 0 < r -> (0 < (r # p))%Q) by (intros H; unfold Qlt; simpl; lia).
  assert (H1 : ((r # p) < 1)%Q) by (unfold Qlt; simpl; lia).
  unfold new_location, new_location_even, new_location_odd.
  destruct (Z.even (Z.pos p)) eqn:Ev; destruct (Z.eqb_spec r 0) as [-> | Hn].
  - simpl. unfold Qeq; simpl; lia.
  - destruct (Z.compare_spec (2 * r) (Z.pos p)) as [E | E | E]; simpl.
    + rewrite (Heq E). reflexivity.
    + specialize (Hlt E). specialize (H0 ltac:(lia)). lra.
    + specialize (Hgt E). lra.
  - simpl. unfold Qeq; simpl; lia.
  - assert (Hodd : 2 * r <> Z.pos p).
    { intros E. rewrite <- E, Z.even_mul in Ev. discriminate. }
    destruct (Z.compare_spec (2 * r + 1) (Z.pos p)) as [E | E | E]; simpl.
    + specialize (Hlt ltac:(lia)). specialize (H0 ltac:(lia)). lra.
    + specialize (Hlt ltac:(lia)). specialize (H0 ltac:(lia)). lra.
    + specialize (Hgt ltac:(lia)). lra.
Qed.

Lemma Zdigits2_le m k : 0 <= m < 2 ^ k -> 0 <= k -> Zdigits2 m <= k.
Proof.
  intros [H0 H1] Hk. destruct (Z.eq_dec m 0) as [-> | Hn]; [simpl; lia |].
  destruct (Zdigits2_lower m) as [H2 H3]; [lia |].
  assert (H : 2 ^ (Zdigits2 m - 1) < 2 ^ k) by lia.
  apply Z.pow_lt_mono_r_iff in H; lia.
Qed.

Lemma Zdigits2_ge m k : 2 ^ k <= m -> 0 <= k -> k < Zdigits2 m.
Proof.
  intros H Hk. assert (0 < 2 ^ k) by (apply Z.pow_pos_nonneg; lia).
  pose proof (Zdigits2_bounds m ltac:(lia)) as B.
  assert (H1 : 2 ^ k < 2 ^ Zdigits2 m) by lia.
  pose proof (Zdigits2_nonneg m).
  apply Z.pow_lt_mono_r_iff in H1; lia.
Qed.

Lemma rounds_mono f x g y :
  rounds f x -> rounds g y -> (x <= y)%Q -> (SF2Q f <= SF2Q g)%Q.
Proof.
  intros (m & e & l & -> & H1 & H2 & H3 & H4) (m' & e' & l' & -> & H1' & H2' & H3' & H4') Hxy.
  eapply binary_round_aux_mono; eassumption.
Qed.

Lemma rounds_nonneg_finite f x : rounds f x -> nonneg_finite f.
Proof.
  intros (m & e & l & -> & H1 & H2 & H3 & H4).
  destruct (binary_round_aux_spec m e l x H1 H2 H3 H4) as (? & ? & ? & ? & H & ?).
  exact H.
Qed.

Lemma Qmake_div r p : ((r # p) == inject_Z r / inject_Z (Z.pos p))%Q.
Proof. unfold Qeq, Qdiv, Qinv, Qmult, inject_Z; simpl. lia. Qed.

Lemma pow2_opp e : (pow2 (- e) == / pow2 e)%Q.
Proof. apply Qpower_opp. Qed.

Lemma SFdiv_rounds a ea t et :
  (inject_Z (Z.pos a) * pow2 ea / (inject_Z (Z.pos t) * pow2 et) <= 1)%Q ->
  rounds (SFdiv prec emax (S754_finite false a ea) (S754_finite false t et))
         (inject_Z (Z.pos a) * pow2 ea / (inject_Z (Z.pos t) * pow2 et)).
Proof.
  set (x := (inject_Z (Z.pos a) * pow2 ea / (inject_Z (Z.pos t) * pow2 et))%Q).
  intros Hx1. unfold SFdiv, SFdiv_core_binary.
  set (d1 := Zdigits2 (Z.pos a)). set (d2 := Zdigits2 (Z.pos t)).
  remember (Z.min (fexp prec emax (d1 + ea - (d2 + et))) (ea - et)) as e' eqn:He'.
  rewrite fexp_eq in He'.
  remember (ea - et - e') as s eqn:Es0.
  assert (Hs : 0 <= s) by lia.
  set (m' := match s with Z.pos _ => Z.shiftl (Z.pos a) s | 0 => Z.pos a | Z.neg _ => 0 end).
  assert (Hm' : m' = Z.pos a * 2 ^ s).
  { unfold m'. destruct s as [| ps | ps] eqn:Es; [simpl; lia | | lia].
    apply Z.shiftl_mul_pow2. lia. }
  clearbody m'.
  pose proof (Z_div_mod m' (Z.pos t) ltac:(lia)) as Hdiv.
  destruct (Z.div_eucl m' (Z.pos t)) as [q r]. destruct Hdiv as [Hqr Hr].
  simpl xorb.
  assert (Hpow : 0 < 2 ^ s) by (apply Z.pow_pos_nonneg; lia).
  assert (Hq : 0 <= q) by nia.
  exists q, e', (new_location (Z.pos t) r).
  split; [reflexivity |]. split; [exact Hq |].
  pose proof (pow2_pos ea) as Pea. pose proof (pow2_pos et) as Pet.
  pose proof (pow2_pos (- e')) as Pe'.
  assert (Tpos : (0 < inject_Z (Z.pos t))%Q) by (unfold Qlt; simpl; lia).
  assert (Hval : (x * pow2 (- e') == inject_Z q + (r # t))%Q).
  { rewrite Qmake_div.
    assert (E1 : (inject_Z (Z.pos a) * pow2 s == inject_Z (Z.pos t) * inject_Z q + inject_Z r)%Q).
    { rewrite pow2_Z by exact Hs. rewrite <- !inject_Z_mult, <- inject_Z_plus.
      rewrite <- Hm', Hqr. reflexivity. }
    assert (E2 : (pow2 s == pow2 ea * / pow2 et * pow2 (- e'))%Q).
    { replace s with (ea + (- et) + (- e')) by lia.
      rewrite !pow2_add, (pow2_opp et). reflexivity. }
    rewrite E2 in E1. unfold x.
    assert (Ht : ~ (inject_Z (Z.pos t) == 0)%Q) by (unfold Qeq; simpl; lia).
    assert (Het : ~ (pow2 et == 0)%Q) by lra.
    setoid_replace (inject_Z q + inject_Z r / inject_Z (Z.pos t))%Q
      with ((inject_Z (Z.pos t) * inject_Z q + inject_Z r) / inject_Z (Z.pos t))%Q
      using relation Qeq by (field; exact Ht).
    rewrite <- E1. field. split; assumption. }
  assert (Hloc : located q (new_location (Z.pos t) r) (x * pow2 (- e'))).
  { eapply located_ext; [symmetry; exact Hval |]. apply new_location_located. lia. }
  split; [exact Hloc |].
  pose proof (digits2_bounds a) as Ba. pose proof (digits2_bounds t) as Bt.
  fold (Zdigits2 (Z.pos a)) in Ba. fold (Zdigits2 (Z.pos t)) in Bt.
  change (Zdigits2 (Z.pos a)) with d1 in Ba. change (Zdigits2 (Z.pos t)) with d2 in Bt.
  assert (Hd1 : 0 < d1) by (unfold d1; simpl; lia).
  assert (Hd2 : 0 < d2) by (unfold d2; simpl; lia).
  pose proof (Zdigits2_nonneg q) as Hdq.
  assert (Hdig : d1 + s - d2 <= Zdigits2 q).
  { destruct (Z_le_gt_dec (d1 + s - d2) 0) as [Hk | Hk]; [lia |].
    assert (Hge : 2 ^ (d1 - 1 + s - d2) <= q).
    { assert (E : 2 ^ (d1 - 1 + s) = 2 ^ (d1 - 1 + s - d2) * 2 ^ d2).
      { rewrite <- Z.pow_add_r by lia. f_equal. lia. }
      assert (E' : 2 ^ (d1 - 1 + s) = 2 ^ (d1 - 1) * 2 ^ s).
      { rewrite <- Z.pow_add_r by lia. reflexivity. }
      assert (0 < 2 ^ (d1 - 1 + s - d2)) by (apply Z.pow_pos_nonneg; lia).
      nia. }
    pose proof (Zdigits2_ge q (d1 - 1 + s - d2) Hge ltac:(lia)). lia. }
  split.
  - rewrite fexp_eq. lia.
  - (* no overflow: the quotient is at most one *)
    destruct (Z.eq_dec q 0) as [-> | Hn].
    + simpl Zdigits2.
      assert (A : (pow2 (d1 - 1 + ea - (d2 + et)) <= x)%Q).
      { unfold x. apply Qle_shift_div_l; [apply Qmult_lt_0_compat; assumption |].
        replace (d1 - 1 + ea - (d2 + et)) with ((d1 - 1) + ea + (- d2) + (- et)) by lia.
        rewrite !pow2_add, (pow2_opp d2), (pow2_opp et).
        assert (B1 : (pow2 (d1 - 1) <= inject_Z (Z.pos a))%Q).
        { rewrite pow2_Z by lia. rewrite <- Zle_Qle. lia. }
        assert (B2 : (inject_Z (Z.pos t) <= pow2 d2)%Q).
        { rewrite pow2_Z by lia. rewrite <- Zle_Qle. lia. }
        pose proof (pow2_pos d2) as Pd2. pose proof (pow2_pos (d1 - 1)) as Pd1.
        assert (C : (pow2 (d1 - 1) * pow2 ea * / pow2 d2 * / pow2 et * (inject_Z (Z.pos t) * pow2 et)
                 == pow2 (d1 - 1) * pow2 ea * (inject_Z (Z.pos t) / pow2 d2))%Q)
          by (field; split; lra).
        rewrite C.
        assert (D : (inject_Z (Z.pos t) / pow2 d2 <= 1)%Q)
          by (apply Qle_shift_div_r; lra).
        assert (0 <= inject_Z (Z.pos t) / pow2 d2)%Q.
        { apply Qle_shift_div_l; [lra |]. rewrite Qmult_0_l.
          unfold Qle; simpl; lia. }
        apply Qle_trans with (pow2 (d1 - 1) * pow2 ea * 1)%Q.
        - apply Qmult_le_l; [apply Qmult_lt_0_compat; assumption | exact D].
        - rewrite Qmult_1_r. apply Qmult_le_compat_r; lra. }
      assert (A' : (pow2 (d1 - 1 + ea - (d2 + et)) <= pow2 0)%Q) by (rewrite pow2_0; lra).
      apply pow2_le_inv in A'. unfold emax. lia.
    + pose proof (scaled_lower q e' _ x 0 ltac:(lia) Hloc) as A.
      change (- 0) with 0 in A. rewrite pow2_0 in A.
      assert (A' : (pow2 (Zdigits2 q - 1 + e' - 0) <= pow2 0)%Q) by (rewrite pow2_0; lra).
      apply pow2_le_inv in A'. unfold emax. lia.
Qed.

Lemma hundred_eq : hundred = S754_finite false 7036874417766400 (-46).
Proof. vm_compute. reflexivity. Qed.

Lemma SF2Q_pos_nonneg f : nonneg_finite f -> (0 <= SF2Q f)%Q.
Proof.
  destruct f as [[] | | | [] m e]; simpl; try tauto; intros _; [lra |].
  pose proof (pow2_pos e). assert (0 < inject_Z (Z.pos m))%Q by (unfold Qlt; simpl; lia).
  nra.
Qed.

Lemma SFmul_hundred_rounds m e :
  (SF2Q (S754_finite false m e) <= 1)%Q ->
  rounds (SFmul prec emax (S754_finite false m e) hundred)
         (SF2Q (S754_finite false m e) * 100).
Proof.
  intros Hle. rewrite hundred_eq. unfold SFmul. simpl xorb.
  exists (Z.pos (m * 7036874417766400)), (e + -46), loc_Exact.
  split; [reflexivity |]. split; [lia |].
  pose proof (pow2_pos e) as Pe.
  assert (Hmpos : (0 < inject_Z (Z.pos m))%Q) by (unfold Qlt; simpl; lia).
  split.
  - simpl located. simpl SF2Q.
    replace (- (e + -46)) with (- e + 46) by lia.
    rewrite pow2_add, pow2_opp, (pow2_Z 46) by lia.
    rewrite Pos2Z.inj_mul, inject_Z_mult.
    change (inject_Z (2 ^ 46)) with (inject_Z 70368744177664).
    change (inject_Z 7036874417766400) with (100 * inject_Z 70368744177664)%Q.
    field. lra.
  - assert (Hd : Zdigits2 (Z.pos m) + e <= 1).
    { simpl SF2Q in Hle.
      destruct (Zdigits2_lower (Z.pos m) ltac:(lia)) as [H1 H2].
      assert (A : (pow2 (Zdigits2 (Z.pos m) - 1) <= inject_Z (Z.pos m))%Q).
      { rewrite pow2_Z by lia. rewrite <- Zle_Qle. exact H1. }
      assert (B : (pow2 (Zdigits2 (Z.pos m) - 1 + e) <= pow2 0)%Q).
      { rewrite pow2_add, pow2_0.
        apply Qle_trans with (inject_Z (Z.pos m) * pow2 e)%Q; [| lra].
        apply Qmult_le_compat_r; lra. }
      apply pow2_le_inv in B. lia. }
    pose proof (Zdigits2_bounds (Z.pos m) ltac:(lia)) as Bm.
    pose proof (Zdigits2_nonneg (Z.pos m)) as Nm.
    assert (Hlo : 52 < Zdigits2 (Z.pos (m * 7036874417766400))).
    { apply Zdigits2_ge; lia. }
    assert (Hhi : Zdigits2 (Z.pos (m * 7036874417766400)) <= Zdigits2 (Z.pos m) + 53).
    { apply Zdigits2_le; [| lia]. split; [lia |].
      rewrite Z.pow_add_r by lia. rewrite Pos2Z.inj_mul.
      assert (7036874417766400 < 2 ^ 53) by (vm_compute; reflexivity). nia. }
    rewrite fexp_eq. unfold emax. lia.
Qed.

Lemma py_int_floor m e :
  py_int (S754_finite false m e) = Some (Qfloor (SF2Q (S754_finite false m e))).
Proof.
  unfold py_int, cond_Zopp, SF2Q. f_equal. destruct (Z_le_gt_dec 0 e) as [He | He].
  - rewrite Z.shiftl_mul_pow2 by exact He. symmetry.
    erewrite Qfloor_comp; [apply Qfloor_Z |].
    rewrite pow2_Z by exact He. rewrite Qmult_1_l, <- inject_Z_mult. reflexivity.
  - rewrite Z.shiftl_div_pow2 by lia. rewrite Zdiv_Qdiv.
    apply Qfloor_comp. rewrite Qmult_1_l.
    assert (E : (pow2 e == / inject_Z (2 ^ (- e)))%Q).
    { rewrite <- pow2_Z by lia. rewrite <- pow2_opp.
      replace (- - e) with e by lia. reflexivity. }
    rewrite E. reflexivity.
Qed.

Lemma py_int_spec f :
  nonneg_finite f -> py_int f = Some (Qfloor (SF2Q f)).
Proof.
  destruct f as [[] | | | [] m e]; simpl nonneg_finite; intros H; try contradiction.
  - reflexivity.
  - exact (py_int_floor m e).
Qed.

Lemma one_rounds : rounds one 1.
Proof.
  exists 4503599627370496, (-52), loc_Exact.
  split; [vm_compute; reflexivity |]. split; [lia |].
  split; [| split; vm_compute; congruence].
  vm_compute. reflexivity.
Qed.

Lemma hundred_rounds : rounds hundred 100.
Proof.
  exists 7036874417766400, (-46), loc_Exact.
  split; [vm_compute; reflexivity |]. split; [lia |].
  split; [| split; vm_compute; congruence].
  vm_compute. reflexivity.
Qed.

Lemma py_truediv_rounds a t :
  (Z.pos a <= 2 * Z.pos t) ->
  rounds (py_truediv (Z.pos a) (Z.pos t)) (ratio (Z.pos a) (Z.pos t)).
Proof.
  intros H. unfold py_truediv, SF_of_Z.
  assert (Tpos : (0 < inject_Z (Z.pos t))%Q) by (unfold Qlt; simpl; lia).
  assert (E : (inject_Z (Z.pos a) * pow2 (-1) / (inject_Z (Z.pos t) * pow2 0)
               == ratio (Z.pos a) (Z.pos t))%Q).
  { unfold ratio. rewrite pow2_m1, pow2_0. field. lra. }
  assert (Hle : (inject_Z (Z.pos a) * pow2 (-1) / (inject_Z (Z.pos t) * pow2 0) <= 1)%Q).
  { rewrite E. unfold ratio. apply Qle_shift_div_r; [lra |].
    rewrite Zle_Qle, inject_Z_mult in H. change (inject_Z 2) with 2%Q in H. lra. }
  destruct (SFdiv_rounds a (-1) t 0 Hle) as (m & e & l & Hf & H1 & H2 & H3 & H4).
  exists m, e, l. split; [exact Hf |]. split; [exact H1 |]. split; [| tauto].
  eapply located_ext; [| exact H2]. rewrite E. reflexivity.
Qed.

Lemma py_truediv_le_one a t :
  (Z.pos a <= 2 * Z.pos t) ->
  nonneg_finite (py_truediv (Z.pos a) (Z.pos t)) /\
  (SF2Q (py_truediv (Z.pos a) (Z.pos t)) <= 1)%Q.
Proof.
  intros H. pose proof (py_truediv_rounds a t H) as R. split.
  - eapply rounds_nonneg_finite; exact R.
  - apply Qle_trans with (SF2Q one); [| vm_compute; discriminate].
    eapply rounds_mono; [exact R | exact one_rounds |].
    unfold ratio. apply Qle_shift_div_r.
    + assert (0 < inject_Z (Z.pos t))%Q by (unfold Qlt; simpl; lia). lra.
    + rewrite Zle_Qle, inject_Z_mult in H. change (inject_Z 2) with 2%Q in H. lra.
Qed.

Lemma times_hundred f :
  nonneg_finite f -> (SF2Q f <= 1)%Q ->
  nonneg_finite (SFmul prec emax f hundred) /\
  (SF2Q (SFmul prec emax f hundred) <= 100)%Q.
Proof.
  intros Hf Hle. destruct f as [[] | | | [] m e]; simpl in Hf; try contradiction.
  - rewrite hundred_eq. simpl. split; [exact I | lra].
  - pose proof (SFmul_hundred_rounds m e Hle) as R. split.
    + eapply rounds_nonneg_finite; exact R.
    + apply Qle_trans with (SF2Q hundred); [| vm_compute; discriminate].
      eapply rounds_mono; [exact R | exact hundred_rounds |].
      lra.
Qed.

Lemma times_hundred_mono f g :
  nonneg_finite f -> nonneg_finite g -> (SF2Q f <= SF2Q g)%Q -> (SF2Q g <= 1)%Q ->
  (SF2Q (SFmul prec emax f hundred) <= SF2Q (SFmul prec emax g hundred))%Q.
Proof.
  intros Hf Hg Hfg Hg1.
  destruct f as [[] | | | [] m e]; simpl in Hf; try contradiction.
  - destruct (times_hundred g Hg Hg1) as [N _].
    apply SF2Q_pos_nonneg in N. rewrite hundred_eq at 1. simpl SF2Q at 1. exact N.
  - destruct g as [[] | | | [] m' e']; simpl in Hg; try contradiction.
    + exfalso. simpl in Hfg. pose proof (pow2_pos e).
      assert (0 < inject_Z (Z.pos m))%Q by (unfold Qlt; simpl; lia). nra.
    + eapply rounds_mono.
      * apply SFmul_hundred_rounds. lra.
      * apply SFmul_hundred_rounds. exact Hg1.
      * lra.
Qed.

Lemma py_percent_bounds h t :
  0 <= h <= 2 * t -> 0 < t ->
  exists z, py_percent h t = Some z /\ 0 <= z <= 100.
Proof.
  intros Hh Ht. unfold py_percent.
  assert (Hq : nonneg_finite (py_truediv h t) /\ (SF2Q (py_truediv h t) <= 1)%Q).
  { destruct t as [| t | t]; try lia. destruct h as [| a | a]; try lia.
    - simpl. split; [exact I | lra].
    - apply py_truediv_le_one. lia. }
  destruct Hq as [Hn Hle].
  destruct (times_hundred _ Hn Hle) as [Hn' Hle'].
  rewrite (py_int_spec _ Hn'). eexists; split; [reflexivity |].
  pose proof (SF2Q_pos_nonneg _ Hn') as H0.
  split.
  - change 0 with (Qfloor 0). apply Qfloor_resp_le. exact H0.
  - change 100 with (Qfloor 100). apply Qfloor_resp_le. exact Hle'.
Qed.

Lemma py_percent_mono h h' t z z' :
  0 <= h <= h' -> h' <= 2 * t -> 0 < t ->
  py_percent h t = Some z -> py_percent h' t = Some z' -> z <= z'.
Proof.
  intros Hh Hh' Ht. unfold py_percent.
  assert (Hq : nonneg_finite (py_truediv h t) /\ nonneg_finite (py_truediv h' t) /\
               (SF2Q (py_truediv h t) <= SF2Q (py_truediv h' t))%Q /\
               (SF2Q (py_truediv h' t) <= 1)%Q).
  { destruct t as [| t | t]; try lia.
    destruct h' as [| a' | a']; try lia.
    - assert (h = 0) by lia. subst h. simpl. repeat split; lra.
    - destruct (py_truediv_le_one a' t ltac:(lia)) as [N' L'].
      destruct h as [| a | a]; try lia.
      + repeat split; try assumption. simpl SF2Q at 1.
        apply SF2Q_pos_nonneg. exact N'.
      + destruct (py_truediv_le_one a t ltac:(lia)) as [N L].
        repeat split; try assumption.
        eapply rounds_mono; [apply py_truediv_rounds; lia | apply py_truediv_rounds; lia |].
        unfold ratio.
        assert (0 < inject_Z (Z.pos t))%Q by (unfold Qlt; simpl; lia).
        apply Qmult_le_compat_r.
        * rewrite <- Zle_Qle. lia.
        * apply Qlt_le_weak, Qinv_lt_0_compat. lra. }
  destruct Hq as (N & N' & Hle & Hle1).
  assert (Hle0 : (SF2Q (py_truediv h t) <= 1)%Q) by lra.
  destruct (times_hundred _ N Hle0) as [M _].
  destruct (times_hundred _ N' Hle1) as [M' _].
  rewrite (py_int_spec _ M), (py_int_spec _ M').
  intros [= <-] [= <-]. apply Qfloor_resp_le.
  apply times_hundred_mono; assumption.
Qed.

(** ** How far rounding moves a value *)

Lemma rne_error m l u :
  located m l u ->
  (- (1 # 2) <= inject_Z (round_nearest_even m l) - u <= 1 # 2)%Q.
Proof.
  destruct l as [| []]; cbn [located round_nearest_even]; intros Hl.
  - lra.
  - destruct (Z.even m); [lra |].
    rewrite inject_Z_plus. change (inject_Z 1) with 1%Q. lra.
  - lra.
  - rewrite inject_Z_plus. change (inject_Z 1) with 1%Q. lra.
Qed.

Lemma pow2_half c : (pow2 (c - 1) == (1 # 2) * pow2 c)%Q.
Proof.
  replace (c - 1) with (-1 + c) by lia. rewrite pow2_add, pow2_m1. reflexivity.
Qed.

(** Rounding a value of at most [2^k] moves it by at most [2^(k-53)]. *)
Lemma rounds_error f x k :
  rounds f x -> (x <= pow2 k)%Q -> -1022 <= k ->
  (- pow2 (k - 53) <= SF2Q f - x <= pow2 (k - 53))%Q.
Proof.
  intros (m & e & l & -> & Hm & Hl & He & Hmax) Hx Hk.
  destruct (binary_round_aux_spec m e l x Hm Hl He Hmax) as (m1 & l1 & _ & L1 & _ & V).
  rewrite V. clear V.
  set (c := fexp prec emax (Zdigits2 m + e)) in *.
  assert (Hc : c - 1 <= k - 53).
  { subst c. rewrite fexp_eq in *. destruct (Z.eq_dec m 0) as [-> | Hn].
    - cbn [Zdigits2] in *. lia.
    - pose proof (scaled_lower m e l x 0 ltac:(lia) Hl) as A.
      change (- 0) with 0 in A. rewrite pow2_0 in A.
      assert (B : (pow2 (Zdigits2 m - 1 + e - 0) <= pow2 k)%Q) by lra.
      apply pow2_le_inv in B. lia. }
  pose proof (pow2_le _ _ Hc) as Hp. rewrite pow2_half in Hp.
  pose proof (rne_error _ _ _ L1) as Hr.
  pose proof (pow2_pos c) as Pc.
  pose proof (unscale x c) as Ex.
  set (r := inject_Z (round_nearest_even m1 l1)) in *.
  set (u := (x * pow2 (- c))%Q) in *.
  set (C := pow2 c) in *. set (P := pow2 (k - 53)) in *.
  assert (Hlo : (- (1 # 2) * C <= (r - u) * C)%Q)
    by (apply Qmult_le_compat_r; lra).
  assert (Hhi : ((r - u) * C <= (1 # 2) * C)%Q)
    by (apply Qmult_le_compat_r; lra).
  lra.
Qed.

(** The computed percentage is within [2^(-45)] of the exact one. *)
Lemma py_percent_error h t :
  0 <= h <= 2 * t -> 0 < t ->
  exists f,
    nonneg_finite f /\ py_percent h t = Some (Qfloor (SF2Q f)) /\
    (- pow2 (-45) <= SF2Q f - 100 * ratio h t <= pow2 (-45))%Q.
Proof.
  intros Hh Ht. unfold py_percent.
  destruct t as [| t | t]; try lia.
  assert (Tpos : (0 < inject_Z (Z.pos t))%Q) by (unfold Qlt; simpl; lia).
  destruct h as [| a | a]; try lia.
  - exists (S754_zero false).
    split; [exact I |]. split; [reflexivity |].
    assert (E : (SF2Q (S754_zero false) - 100 * ratio 0 (Z.pos t) == 0)%Q).
    { unfold ratio, SF2Q. change (inject_Z 0) with 0%Q. field. lra. }
    rewrite E. pose proof (pow2_pos (-45)). lra.
  - pose proof (py_truediv_rounds a t ltac:(lia)) as R.
    destruct (py_truediv_le_one a t ltac:(lia)) as [N L].
    assert (Hx1 : (ratio (Z.pos a) (Z.pos t) <= pow2 0)%Q).
    { rewrite pow2_0. unfold ratio. apply Qle_shift_div_r; [lra |].
      assert (Ha : Z.pos a <= 2 * Z.pos t) by lia.
      rewrite Zle_Qle, inject_Z_mult in Ha. change (inject_Z 2) with 2%Q in Ha. lra. }
    pose proof (rounds_error _ _ 0 R Hx1 ltac:(lia)) as E1.
    change (0 - 53) with (-53) in E1.
    set (q := py_truediv (Z.pos a) (Z.pos t)) in *.
    destruct (times_hundred q N L) as [N' L'].
    exists (SFmul prec emax q hundred). split; [exact N' |].
    split; [apply py_int_spec, N' |].
    assert (E2 : (- pow2 (-46) <= SF2Q (SFmul prec emax q hundred) - SF2Q q * 100 <= pow2 (-46))%Q).
    { destruct q as [[] | | | [] m e] eqn:Eq; cbn in N; try contradiction.
      - change (SFmul prec emax (S754_zero false) hundred) with (S754_zero false).
        unfold SF2Q. pose proof (pow2_pos (-46)). lra.
      - pose proof (SFmul_hundred_rounds m e L) as R2.
        assert (Hx2 : (SF2Q (S754_finite false m e) * 100 <= pow2 7)%Q).
        { rewrite (pow2_Z 7) by lia. change (inject_Z (2 ^ 7)) with 128%Q. lra. }
        pose proof (rounds_error _ _ 7 R2 Hx2 ltac:(lia)) as E2.
        exact E2. }
    assert (P53 : (pow2 (-53) == pow2 (-45) * (1 # 256))%Q) by (vm_compute; reflexivity).
    assert (P46 : (pow2 (-46) == pow2 (-45) * (1 # 2))%Q) by (vm_compute; reflexivity).
    pose proof (pow2_pos (-45)) as P45.
    rewrite P53 in E1. rewrite P46 in E2.
    set (v := SF2Q (SFmul prec emax q hundred)) in *.
    set (w := SF2Q q) in *. set (x := ratio (Z.pos a) (Z.pos t)) in *.
    set (p := pow2 (-45)) in *. lra.
Qed.

Lemma exact_percent_floor h t :
  0 < t -> (100 * h) / (2 * t) = Qfloor (100 * ratio h t).
Proof.
  intros Ht. rewrite Zdiv_Qdiv. apply Qfloor_comp.
  unfold ratio. rewrite !inject_Z_mult.
  change (inject_Z 100) with 100%Q. change (inject_Z 2) with 2%Q.
  assert (0 < inject_Z t)%Q by (rewrite Zlt_Qlt in Ht; exact Ht).
  field. lra.
Qed.

(** [int((x / total) * 100)] is within one of the exact floor. *)
Lemma py_percent_near_floor h t :
  0 <= h <= 2 * t -> 0 < t ->
  exists z, py_percent h t = Some z /\
            (100 * h) / (2 * t) - 1 <= z <= (100 * h) / (2 * t) + 1.
Proof.
  intros Hh Ht. destruct (py_percent_error h t Hh Ht) as (f & _ & Hz & He).
  exists (Qfloor (SF2Q f)). split; [exact Hz |].
  rewrite (exact_percent_floor h t Ht).
  set (y := (100 * ratio h t)%Q) in *. set (v := SF2Q f) in *.
  assert (P : (pow2 (-45) < 1)%Q) by (vm_compute; reflexivity).
  pose proof (Qfloor_le y) as Y1. pose proof (Qlt_floor y) as Y2.
  pose proof (Qfloor_le v) as V1. pose proof (Qlt_floor v) as V2.
  rewrite inject_Z_plus in Y2, V2. change (inject_Z 1) with 1%Q in Y2, V2.
  split.
  - assert (A : (inject_Z (Qfloor y - 1) < inject_Z (Qfloor v + 1))%Q).
    { unfold Z.sub. rewrite !inject_Z_plus, inject_Z_opp.
      change (inject_Z 1) with 1%Q. lra. }
    rewrite <- Zlt_Qlt in A. lia.
  - assert (A : (inject_Z (Qfloor v) < inject_Z (Qfloor y + 2))%Q).
    { rewrite !inject_Z_plus. change (inject_Z 2) with 2%Q. lra. }
    rewrite <- Zlt_Qlt in A. lia.
Qed.

(** It never exceeds the exact floor while the total stays below [2^44]. *)
Lemma py_percent_at_most_floor h t z :
  0 <= h <= 2 * t -> 0 < t -> t < 2 ^ 44 ->
  py_percent h t = Some z -> z <= (100 * h) / (2 * t).
Proof.
  intros Hh Ht Hs. destruct (py_percent_error h t Hh Ht) as (f & _ & Hz & He).
  rewrite Hz. intros [= <-].
  set (k := (100 * h) / (2 * t)).
  assert (Hk : 100 * h + 1 <= (k + 1) * (2 * t)).
  { pose proof (Z.div_mod (100 * h) (2 * t) ltac:(lia)) as D.
    pose proof (Z.mod_pos_bound (100 * h) (2 * t) ltac:(lia)) as B.
    fold k in D. lia. }
  assert (Hy : (100 * ratio h t * inject_Z (2 * t) == inject_Z (100 * h))%Q).
  { unfold ratio. rewrite !inject_Z_mult.
    change (inject_Z 100) with 100%Q. change (inject_Z 2) with 2%Q.
    assert (0 < inject_Z t)%Q by (rewrite Zlt_Qlt in Ht; exact Ht).
    field. lra. }
  assert (P : (pow2 (-45) == 1 # 35184372088832)%Q) by (vm_compute; reflexivity).
  rewrite P in He.
  assert (HT : (0 < inject_Z (2 * t) < 35184372088832)%Q).
  { change 0%Q with (inject_Z 0). change 35184372088832%Q with (inject_Z (2 ^ 45)).
    rewrite <- !Zlt_Qlt. lia. }
  assert (HkQ : (inject_Z (100 * h) + 1 <= (inject_Z k + 1) * inject_Z (2 * t))%Q).
  { change 1%Q with (inject_Z 1).
    rewrite <- !inject_Z_plus, <- inject_Z_mult, <- Zle_Qle. exact Hk. }
  set (y := (100 * ratio h t)%Q) in *. set (v := SF2Q f) in *.
  set (T := inject_Z (2 * t)) in *.
  pose proof (Qfloor_le v) as V1.
  assert (A : (inject_Z (Qfloor v) < inject_Z (k + 1))%Q).
  { rewrite inject_Z_plus. change (inject_Z 1) with 1%Q.
    set (K := inject_Z k) in *. set (F := inject_Z (Qfloor v)) in *.
    destruct (Qlt_le_dec F (K + 1)) as [L | G]; [exact L | exfalso].
    assert (M : ((K + 1) * T <= v * T)%Q) by (apply Qmult_le_compat_r; lra).
    assert (N : (v * T <= (y + (1 # 35184372088832)) * T)%Q)
      by (apply Qmult_le_compat_r; lra).
    lra. }
  rewrite <- Zlt_Qlt in A. lia.
Qed.

(** ** Comparing two percentages *)

Lemma ratio_le h t h' t' :
  0 < t -> 0 < t' -> h * t' <= h' * t -> (ratio h t <= ratio h' t')%Q.
Proof.
  intros Ht Ht' Hc. unfold ratio.
  assert (T : (0 < inject_Z t)%Q) by (rewrite Zlt_Qlt in Ht; exact Ht).
  assert (T' : (0 < inject_Z t')%Q) by (rewrite Zlt_Qlt in Ht'; exact Ht').
  rewrite Zle_Qle, !inject_Z_mult in Hc.
  apply Qle_shift_div_l; [lra |].
  assert (E : (inject_Z h / (2 * inject_Z t) * (2 * inject_Z t')
               == inject_Z h * inject_Z t' / inject_Z t)%Q) by (field; lra).
  rewrite E. apply Qle_shift_div_r; [exact T | exact Hc].
Qed.

(** [int((h / t) * 100) <= int((h' / t') * 100)] as soon as the exact
    quotients compare so. *)
Lemma py_percent_le h t h' t' z z' :
  0 <= h <= 2 * t -> 0 < t -> 0 <= h' <= 2 * t' -> 0 < t' ->
  h * t' <= h' * t ->
  py_percent h t = Some z -> py_percent h' t' = Some z' -> z <= z'.
Proof.
  intros Hh Ht Hh' Ht' Hc. unfold py_percent.
  assert (Hq : nonneg_finite (py_truediv h t) /\ nonneg_finite (py_truediv h' t') /\
               (SF2Q (py_truediv h t) <= SF2Q (py_truediv h' t'))%Q /\
               (SF2Q (py_truediv h' t') <= 1)%Q).
  { destruct t as [| t | t]; try lia. destruct t' as [| t' | t']; try lia.
    destruct h' as [| a' | a']; try lia.
    - assert (h = 0) by nia. subst h. simpl. repeat split; lra.
    - destruct (py_truediv_le_one a' t' ltac:(lia)) as [N' L'].
      destruct h as [| a | a]; try lia.
      + repeat split; try assumption. simpl SF2Q at 1.
        apply SF2Q_pos_nonneg. exact N'.
      + destruct (py_truediv_le_one a t ltac:(lia)) as [N L].
        repeat split; try assumption.
        eapply rounds_mono; [apply py_truediv_rounds; lia | apply py_truediv_rounds; lia |].
        apply ratio_le; lia. }
  destruct Hq as (N & N' & Hle & Hle1).
  assert (Hle0 : (SF2Q (py_truediv h t) <= 1)%Q) by lra.
  destruct (times_hundred _ N Hle0) as [M _].
  destruct (times_hundred _ N' Hle1) as [M' _].
  rewrite (py_int_spec _ M), (py_int_spec _ M').
  intros [= <-] [= <-]. apply Qfloor_resp_le.
  apply times_hundred_mono; assumption.
Qed.

(** All the points earned make 100. *)
Lemma py_percent_full t : 0 < t -> py_percent (2 * t) t = Some 100.
Proof.
  intros Ht.
  destruct (py_percent_bounds (2 * t) t ltac:(lia) Ht) as (z & Hz & Hr).
  assert (H1 : py_percent 2 1 = Some 100) by (vm_compute; reflexivity).
  pose proof (py_percent_le 2 1 (2 * t) t 100 z ltac:(lia) ltac:(lia) ltac:(lia) Ht
                ltac:(lia) H1 Hz).
  rewrite Hz. f_equal. lia.
Qed.

(** One half point short of the total stays below 100, as long as the
    total is below [2^44]. *)
Lemma py_percent_not_full h t z :
  0 <= h < 2 * t -> t < 2 ^ 44 -> py_percent h t = Some z -> z < 100.
Proof.
  intros Hh Ht Hz.
  pose proof (py_percent_at_most_floor h t z ltac:(lia) ltac:(lia) Ht Hz) as Hle.
  assert ((100 * h) / (2 * t) < 100) by (apply Z.div_lt_upper_bound; lia).
  lia.
Qed.

(* ===================================================================== *)
(** * The matcher decides membership in the language of a pattern *)
(* ===================================================================== *)

Lemma nullable_spec r : nullable r = true <-> re_lang r [].
Proof.
  induction r as [| | p | r1 IH1 r2 IH2 | r IH]; cbn [nullable].
  - split; [discriminate | intros Hl; inversion Hl].
  - split; [intros _; constructor | reflexivity].
  - split; [discriminate | intros Hl; inversion Hl].
  - rewrite andb_true_iff, IH1, IH2. split.
    + intros [H1 H2]. exact (L_Cat r1 r2 [] [] H1 H2).
    + intros Hl. inversion Hl; subst.
      match goal with
      | E : _ ++ _ = [] |- _ => apply List.app_eq_nil in E; destruct E as [-> ->]
      end.
      split; assumption.
  - split; [intros _; constructor | reflexivity].
Qed.

Lemma cat_cons_inv r1 r2 c s :
  re_lang (Cat r1 r2) (c :: s) ->
  (re_lang r1 [] /\ re_lang r2 (c :: s)) \/
  (exists s1 s2, s = s1 ++ s2 /\ re_lang r1 (c :: s1) /\ re_lang r2 s2).
Proof.
  intros Hl. inversion Hl as [| | ra rb s1 s2 H1 H2 | |]; subst.
  destruct s1 as [| c1 s1].
  - left. cbn in *. subst. split; assumption.
  - right. cbn in *.
    match goal with E : _ :: _ = _ :: _ |- _ => injection E as -> <- end.
    exists s1, s2. split; [reflexivity |]. split; assumption.
Qed.

Lemma star_cons_inv r c s :
  re_lang (Star r) (c :: s) ->
  exists s1 s2, s = s1 ++ s2 /\ re_lang r (c :: s1) /\ re_lang (Star r) s2.
Proof.
  intros Hl. inversion Hl; subst. eauto.
Qed.

Lemma deriv_spec r : forall c s,
  (exists d, List.In d (deriv c r) /\ re_lang d s) <-> re_lang r (c :: s).
Proof.
  induction r as [| | p | r1 IH1 r2 IH2 | r IH]; intros c s; cbn [deriv].
  - split; [intros (d & [] & _) | intros Hl; inversion Hl].
  - split; [intros (d & [] & _) | intros Hl; inversion Hl].
  - split.
    + intros (d & Hin & Hd). destruct (p c) eqn:Hp; [| destruct Hin].
      destruct Hin as [<- | []]. inversion Hd; subst. constructor. exact Hp.
    + intros Hl. inversion Hl; subst.
      match goal with E : p c = true |- _ => rewrite E end.
      exists Eps. split; [left; reflexivity | constructor].
  - split.
    + intros (d & Hin & Hd). apply List.in_app_or in Hin. destruct Hin as [Hin | Hin].
      * apply List.in_map_iff in Hin. destruct Hin as (d1 & <- & Hd1).
        inversion Hd as [| | ra rb s1 s2 H1 H2 | |]; subst.
        change (c :: s1 ++ s2) with ((c :: s1) ++ s2). constructor; [| exact H2].
        apply IH1. exists d1. split; assumption.
      * destruct (nullable r1) eqn:Hn; [| destruct Hin].
        change (c :: s) with ([] ++ c :: s). constructor.
        -- apply nullable_spec, Hn.
        -- apply IH2. exists d. split; assumption.
    + intros Hl. apply cat_cons_inv in Hl.
      destruct Hl as [[H1 H2] | (s1 & s2 & -> & H1 & H2)].
      * apply IH2 in H2. destruct H2 as (d & Hin & Hd).
        exists d. split; [| exact Hd]. apply List.in_or_app. right.
        apply nullable_spec in H1. rewrite H1. exact Hin.
      * apply IH1 in H1. destruct H1 as (d1 & Hin & Hd1).
        exists (Cat d1 r2). split; [| constructor; assumption].
        apply List.in_or_app. left. apply List.in_map_iff.
        exists d1. split; [reflexivity | exact Hin].
  - split.
    + intros (d & Hin & Hd). apply List.in_map_iff in Hin. destruct Hin as (d1 & <- & Hd1).
      inversion Hd as [| | ra rb s1 s2 H1 H2 | |]; subst.
      constructor; [| exact H2]. apply IH. exists d1. split; assumption.
    + intros Hl. apply star_cons_inv in Hl. destruct Hl as (s1 & s2 & -> & H1 & H2).
      apply IH in H1. destruct H1 as (d1 & Hin & Hd1).
      exists (Cat d1 (Star r)). split; [| constructor; assumption].
      apply List.in_map_iff. exists d1. split; [reflexivity | exact Hin].
Qed.

Lemma matches_any_spec s : forall rs,
  matches_any rs s = true <-> exists r, List.In r rs /\ re_lang r s.
Proof.
  induction s as [| c s IH]; intros rs; cbn [matches_any].
  - rewrite List.existsb_exists. split; intros (r & Hin & Hr); exists r; split; trivial;
      apply nullable_spec; exact Hr.
  - rewrite IH. split.
    + intros (d & Hin & Hd). apply List.in_concat in Hin.
      destruct Hin as (ds & Hds & Hd_in). apply List.in_map_iff in Hds.
      destruct Hds as (r & <- & Hr). exists r. split; [exact Hr |].
      apply deriv_spec. exists d. split; assumption.
    + intros (r & Hin & Hr). apply deriv_spec in Hr. destruct Hr as (d & Hd_in & Hd).
      exists d. split; [| exact Hd]. apply List.in_concat.
      exists (deriv c r). split; [| exact Hd_in].
      apply List.in_map_iff. exists r. split; [reflexivity | exact Hin].
Qed.

Lemma fullmatch_spec r s : fullmatch r s = true <-> re_lang r s.
Proof.
  unfold fullmatch. rewrite matches_any_spec. split.
  - intros (r' & [<- | []] & Hr). exact Hr.
  - intros Hr. exists r. split; [left; reflexivity | exact Hr].
Qed.

(** The languages of the pieces the patterns are built from. *)
Lemma lang_class p s : re_lang (Class p) s <-> exists c, s = [c] /\ p c = true.
Proof.
  split.
  - intros Hl. inversion Hl; subst. eauto.
  - intros (c & -> & Hp). constructor. exact Hp.
Qed.

Lemma lang_cat r1 r2 s :
  re_lang (Cat r1 r2) s <-> exists s1 s2, s = s1 ++ s2 /\ re_lang r1 s1 /\ re_lang r2 s2.
Proof.
  split.
  - intros Hl. inversion Hl; subst. eauto.
  - intros (s1 & s2 & -> & H1 & H2). constructor; assumption.
Qed.

Lemma lang_star_class p s : re_lang (Star (Class p)) s <-> List.forallb p s = true.
Proof.
  split.
  - intros Hl. remember (Star (Class p)) as r eqn:Er.
    induction Hl as [| | | r' | r' c s1 s2 H1 _ H2 IH2]; try discriminate; [reflexivity |].
    injection Er as ->. inversion H1; subst. cbn. rewrite IH2 by reflexivity.
    rewrite andb_true_r. assumption.
  - induction s as [| c s IH]; cbn; [constructor |].
    rewrite andb_true_iff. intros [Hc Hs].
    change (c :: s) with (c :: [] ++ s). constructor; [constructor; exact Hc | apply IH, Hs].
Qed.

Lemma lang_plus_class p s :
  re_lang (Plus (Class p)) s <-> s <> [] /\ List.forallb p s = true.
Proof.
  unfold Plus. rewrite lang_cat. split.
  - intros (s1 & s2 & -> & H1 & H2). apply lang_class in H1. destruct H1 as (c & -> & Hc).
    apply lang_star_class in H2. cbn. rewrite Hc, H2. split; [discriminate | reflexivity].
  - intros [Hne Hall]. destruct s as [| c s]; [contradiction |]. cbn in Hall.
    apply andb_true_iff in Hall. destruct Hall as [Hc Hs].
    exists [c], s. split; [reflexivity |]. split; [constructor; exact Hc | apply lang_star_class, Hs].
Qed.

Lemma lang_times_class p n s :
  re_lang (Times n (Class p)) s <-> List.length s = n /\ List.forallb p s = true.
Proof.
  revert s. induction n as [| n IH]; intros s; cbn [Times].
  - split.
    + intros Hl. inversion Hl; subst. split; reflexivity.
    + intros [Hlen _]. destruct s; [constructor | discriminate].
  - rewrite lang_cat. split.
    + intros (s1 & s2 & -> & H1 & H2). apply lang_class in H1. destruct H1 as (c & -> & Hc).
      apply IH in H2. destruct H2 as [Hlen Hall]. cbn. rewrite Hc, Hall, Hlen.
      split; reflexivity.
    + intros [Hlen Hall]. destruct s as [| c s]; [discriminate |]. cbn in Hall, Hlen.
      apply andb_true_iff in Hall. destruct Hall as [Hc Hs].
      exists [c], s. split; [reflexivity |]. split; [constructor; exact Hc |].
      apply IH. split; [congruence | exact Hs].
Qed.

Lemma lang_at_least_class p n s :
  re_lang (AtLeast n (Class p)) s <-> (n <= List.length s)%nat /\ List.forallb p s = true.
Proof.
  unfold AtLeast. rewrite lang_cat. split.
  - intros (s1 & s2 & -> & H1 & H2). apply lang_times_class in H1. destruct H1 as [Hlen H1].
    apply lang_star_class in H2. rewrite List.length_app, List.forallb_app, H1, H2.
    split; [lia | reflexivity].
  - intros [Hlen Hall]. exists (List.firstn n s), (List.skipn n s).
    rewrite <- (List.firstn_skipn n s) in Hall. rewrite List.forallb_app in Hall.
    apply andb_true_iff in Hall. destruct Hall as [H1 H2].
    split; [symmetry; apply List.firstn_skipn |]. split.
    + apply lang_times_class. split; [apply List.firstn_length_le, Hlen | exact H1].
    + apply lang_star_class, H2.
Qed.

(** What [$] adds: the same strings followed by a line feed. *)
Lemma re_match_anchored_spec r s :
  re_match_anchored r s = true <->
  re_lang r s \/ exists s', s = s' ++ [10%N] /\ re_lang r s'.
Proof.
  unfold re_match_anchored. rewrite orb_true_iff, !fullmatch_spec, lang_cat.
  split; (intros [Hl | Hr]; [left; exact Hl | right]).
  - destruct Hr as (s1 & s2 & -> & H1 & H2). apply lang_class in H2.
    destruct H2 as (c & -> & Hc). apply N.eqb_eq in Hc. subst c. eauto.
  - destruct Hr as (s' & -> & Hs'). exists s', [10%N].
    split; [reflexivity |]. split; [exact Hs' |]. constructor. reflexivity.
Qed.

(* ===================================================================== *)
(** * Properties of the profile completion score *)
(* ===================================================================== *)

Section Scorer.

Lemma count_fields_eq w l pts :
  count_fields w l pts =
  {| earned2 := earned2 pts + 2 * w * filled_count l;
     total_points := total_points pts + w * Z.of_nat (List.length l) |}.
Proof.
  unfold count_fields, filled_count. revert pts.
  induction l as [| f l IH]; intros [e t]; cbn [List.fold_left List.filter List.length].
  - cbn. f_equal; lia.
  - rewrite IH. cbn [earned2 total_points].
    destruct (filled f); cbn [List.length]; f_equal; lia.
Qed.

Lemma count_entries_eq {A} (ok : A -> bool) l pts :
  count_entries ok l pts =
  {| earned2 := earned2 pts + 4 * ok_count ok l;
     total_points := total_points pts + 2 * Z.of_nat (List.length l) |}.
Proof.
  unfold count_entries, ok_count. revert pts.
  induction l as [| x l IH]; intros [e t]; cbn [List.fold_left List.filter List.length].
  - cbn. f_equal; lia.
  - rewrite IH. cbn [earned2 total_points].
    destruct (ok x); cbn [List.length]; f_equal; lia.
Qed.

Lemma filter_length_le {A} (ok : A -> bool) l :
  0 <= Z.of_nat (List.length (List.filter ok l)) <= Z.of_nat (List.length l).
Proof.
  split; [lia |]. apply inj_le. induction l as [| x l IH]; cbn; [lia |].
  destruct (ok x); cbn; lia.
Qed.

Lemma profile_points_eq p :
  profile_points p =
  {| earned2 := 4 * filled_count (required_fields p) + 2 * filled_count (optional_fields p)
                + 4 * ok_count experience_ok (Profile.experience p)
                + 4 * ok_count education_ok (Profile.education p)
                + skills_earned2 (Profile.skills p)
                + 4 * ok_count project_ok (Profile.projects p);
     total_points := 9 + 2 * Z.of_nat (List.length (Profile.experience p))
                     + 2 * Z.of_nat (List.length (Profile.education p))
                     + skills_total (Profile.skills p)
                     + projects_total (Profile.projects p) |}.
Proof.
  unfold profile_points. rewrite !count_fields_eq, !count_entries_eq.
  cbn [earned2 total_points].
  unfold count_skills, count_projects.
  destruct (Profile.skills p) as [| s ss]; destruct (Profile.projects p) as [| q qs];
    rewrite ?count_entries_eq; cbn [earned2 total_points skills_earned2 skills_total projects_total];
    unfold required_fields, optional_fields; cbn [List.length];
    f_equal; unfold ok_count; cbn [List.filter List.length]; lia.
Qed.

Lemma profile_points_bounds p :
  0 <= earned2 (profile_points p) <= 2 * total_points (profile_points p) /\
  11 <= total_points (profile_points p).
Proof.
  rewrite profile_points_eq. cbn [earned2 total_points].
  pose proof (filter_length_le filled (required_fields p)) as R.
  pose proof (filter_length_le filled (optional_fields p)) as O.
  pose proof (filter_length_le experience_ok (Profile.experience p)) as X.
  pose proof (filter_length_le education_ok (Profile.education p)) as D.
  pose proof (filter_length_le project_ok (Profile.projects p)) as P.
  unfold filled_count, ok_count.
  change (List.length (required_fields p)) with 2%nat in R.
  change (List.length (optional_fields p)) with 5%nat in O.
  assert (S : 0 <= skills_earned2 (Profile.skills p) <= 2 * skills_total (Profile.skills p)).
  { destruct (Profile.skills p); cbn [skills_earned2 skills_total]; [lia |].
    cbn [List.length]. lia. }
  assert (T : 2 <= projects_total (Profile.projects p) /\
              2 * Z.of_nat (List.length (Profile.projects p)) <= projects_total (Profile.projects p)).
  { destruct (Profile.projects p); cbn [projects_total List.length]; lia. }
  assert (0 <= skills_total (Profile.skills p))
    by (destruct (Profile.skills p); cbn; lia).
  lia.
Qed.

(** The score is always defined and lies between 0 and 100, already
    before the final [min]. *)
Lemma completion_percentage_range p :
  exists c, completion_percentage p = Some c /\ 0 <= c <= 100.
Proof.
  destruct (profile_points_bounds p) as [He Ht].
  unfold completion_percentage. apply py_percent_bounds; lia.
Qed.

Lemma calculate_profile_completion_range p :
  exists s, calculate_profile_completion p = Some s /\ 0 <= s <= 100.
Proof.
  destruct (profile_points_bounds p) as [He Ht].
  destruct (completion_percentage_range p) as (c & Hc & Hr).
  unfold calculate_profile_completion.
  replace (total_points (profile_points p) =? 0) with false
    by (symmetry; apply Z.eqb_neq; lia).
  rewrite Hc. exists (Z.min c 100). split; [reflexivity | lia].
Qed.

Lemma calculate_profile_completion_empty :
  calculate_profile_completion empty_profile = Some 0.
Proof. vm_compute. reflexivity. Qed.

(** C4: the score is meant to be floor(100 * earned / total) clamped to
    [0, 100].  On [profile_58], with 14.5 points earned out of 25, the
    exact percentage is 58, but the binary64 product (14.5 / 25) * 100 is
    57.99999999999999 and its truncation makes the score 57. *)
Theorem score_differs_from_floor :
  earned2 (profile_points profile_58) = 29 /\
  total_points (profile_points profile_58) = 25 /\
  spec_score profile_58 = 58 /\
  calculate_profile_completion profile_58 = Some 57.
Proof. vm_compute. repeat split; reflexivity. Qed.

(** C10, as stated, fails: with one project listed the denominator is
    4 + 5 + 2 = 11, below 13. *)
Lemma total_points_below_13 :
  total_points (profile_points one_project_profile) = 11 /\
  ~ (13 <= total_points (profile_points one_project_profile)).
Proof. vm_compute. split; [reflexivity | intros H; apply H; reflexivity]. Qed.

(** C10, amended: for every profile the points earned never exceed the
    total, the total is at least 11 (and at least 13 when no project is
    listed), so the branch for a zero denominator is never taken, and the
    value before the final [min] already lies in [0, 100]: the [min]
    changes nothing. *)
Theorem points_bounded_and_clamp_idle p :
  0 <= earned2 (profile_points p) <= 2 * total_points (profile_points p) /\
  11 <= total_points (profile_points p) /\
  match Profile.projects p with
  | [] => 13 <= total_points (profile_points p)
  | _ :: _ => True
  end /\
  (total_points (profile_points p) =? 0) = false /\
  exists c, completion_percentage p = Some c /\ 0 <= c <= 100 /\
            calculate_profile_completion p = Some c.
Proof.
  destruct (profile_points_bounds p) as [He Ht].
  destruct (completion_percentage_range p) as (c & Hc & Hr).
  assert (Hz : (total_points (profile_points p) =? 0) = false)
    by (apply Z.eqb_neq; lia).
  repeat split; try lia; try exact Hz.
  - rewrite profile_points_eq. cbn [total_points].
    destruct (Profile.projects p); [| exact I].
    cbn [projects_total].
    assert (0 <= skills_total (Profile.skills p))
      by (destruct (Profile.skills p); cbn; lia).
    lia.
  - exists c. split; [exact Hc |]. split; [exact Hr |].
    unfold calculate_profile_completion. rewrite Hz, Hc. f_equal. lia.
Qed.

Lemma score_defined p :
  exists c, completion_percentage p = Some c /\
            calculate_profile_completion p = Some c.
Proof.
  destruct (profile_points_bounds p) as [He Ht].
  destruct (completion_percentage_range p) as (c & Hc & Hr).
  exists c. split; [exact Hc |].
  unfold calculate_profile_completion. rewrite Hc.
  replace (total_points (profile_points p) =? 0) with false
    by (symmetry; apply Z.eqb_neq; lia).
  f_equal. lia.
Qed.

(** Inside its range the specified score is the plain floor. *)
Lemma spec_score_eq p :
  spec_score p =
  (100 * earned2 (profile_points p)) / (2 * total_points (profile_points p)).
Proof.
  destruct (profile_points_bounds p) as [He Ht]. unfold spec_score.
  set (e := earned2 (profile_points p)) in *.
  set (t := total_points (profile_points p)) in *. cbv zeta.
  replace (t =? 0) with false by (symmetry; apply Z.eqb_neq; lia).
  assert (0 <= (100 * e) / (2 * t)) by (apply Z.div_pos; lia).
  assert ((100 * e) / (2 * t) <= 100).
  { apply Z.div_le_upper_bound; lia. }
  lia.
Qed.

(** The score of the code is never more than one away from the specified
    floor. *)
Lemma score_near_floor p :
  exists s, calculate_profile_completion p = Some s /\
            spec_score p - 1 <= s <= spec_score p + 1.
Proof.
  destruct (profile_points_bounds p) as [He Ht].
  destruct (score_defined p) as (c & Hc & Hs).
  exists c. split; [exact Hs |]. rewrite spec_score_eq.
  destruct (py_percent_near_floor _ _ He ltac:(lia)) as (z & Hz & Hr).
  unfold completion_percentage in Hc. congruence.
Qed.

(** It is never above the specified floor as long as the denominator stays
    below 2^44. *)
Lemma score_at_most_floor p s :
  total_points (profile_points p) < 2 ^ 44 ->
  calculate_profile_completion p = Some s -> s <= spec_score p.
Proof.
  intros Hsmall Hs. destruct (profile_points_bounds p) as [He Ht].
  destruct (score_defined p) as (c & Hc & Hs').
  assert (c = s) by congruence. subst c. rewrite spec_score_eq.
  apply py_percent_at_most_floor; [exact He | lia | exact Hsmall | exact Hc].
Qed.

Lemma set_optional_points f v p :
  filled (get_optional f p) = false ->
  total_points (profile_points (set_optional f v p)) = total_points (profile_points p) /\
  earned2 (profile_points p) <= earned2 (profile_points (set_optional f v p)).
Proof.
  intros Hf. rewrite !profile_points_eq. cbn [earned2 total_points].
  destruct f; unfold set_optional, get_optional in *;
    cbn [Profile.fullName Profile.email Profile.phone Profile.address Profile.headline
         Profile.summary Profile.profilePicture Profile.experience Profile.education
         Profile.skills Profile.projects];
    (split; [reflexivity |]);
    unfold required_fields, optional_fields, filled_count;
    cbn [Profile.fullName Profile.email Profile.phone Profile.address Profile.headline
         Profile.summary Profile.profilePicture List.filter];
    rewrite Hf;
    repeat match goal with |- context [filled ?x] => destruct (filled x) end;
    cbn [List.length]; lia.
Qed.

(** C5: filling in one more of the optional fields (phone, address,
    headline, summary, picture) of a profile, everything else unchanged,
    never lowers the score. *)
Theorem score_monotone_in_optional_fields p f v :
  filled (get_optional f p) = false ->
  exists s s',
    calculate_profile_completion p = Some s /\
    calculate_profile_completion (set_optional f v p) = Some s' /\
    s <= s'.
Proof.
  intros Hf. destruct (set_optional_points f v p Hf) as [Ht He].
  destruct (score_defined p) as (c & Hc & Hs).
  destruct (score_defined (set_optional f v p)) as (c' & Hc' & Hs').
  exists c, c'. split; [exact Hs |]. split; [exact Hs' |].
  destruct (profile_points_bounds p) as [B1 B2].
  destruct (profile_points_bounds (set_optional f v p)) as [B1' B2'].
  unfold completion_percentage in Hc, Hc'. rewrite Ht in Hc', B1'.
  eapply py_percent_mono; [| | | exact Hc | exact Hc']; lia.
Qed.

Lemma score_monotone_in_optional_fields_witness :
  filled (get_optional phone empty_profile) = false /\
  exists s s',
    calculate_profile_completion empty_profile = Some s /\
    calculate_profile_completion (set_optional phone (Some (lit "5550100000")) empty_profile)
      = Some s' /\
    s <= s'.
Proof.
  split; [reflexivity |].
  apply (score_monotone_in_optional_fields empty_profile phone (Some (lit "5550100000"))).
  reflexivity.
Defined.

(** Outside the optional fields the score is not monotone: listing a first
    skill on a profile whose fields are all filled adds 0.5 points to the
    points earned and 10 to the total. *)
Example first_skill_lowers_score :
  calculate_profile_completion full_fields_profile = Some 69 /\
  calculate_profile_completion (with_skills [lit "Go"] full_fields_profile) = Some 41.
Proof. vm_compute. split; reflexivity. Qed.

End Scorer.

(* ===================================================================== *)
(** * Properties of queries and collections *)
(* ===================================================================== *)

Section StoreFacts.
Context `{Platform}.

Lemma matches_spec (q : query) (d : doc) :
  matches q d = true <->
  forall k cl, q !! k = Some cl -> eval_clause d k cl = true.
Proof.
  unfold matches. rewrite List.forallb_forall. split.
  - intros Hq k cl Hk. apply (Hq (k, cl)).
    apply list_elem_of_In, elem_of_map_to_list, Hk.
  - intros Hq [k cl] Hin. apply Hq.
    apply elem_of_map_to_list, list_elem_of_In, Hin.
Qed.

Lemma matches_singleton k c (d : doc) :
  matches {[ k := Field c ]} d = eval_cond c (d !! k).
Proof.
  unfold matches. rewrite map_to_list_singleton. cbn. apply andb_true_r.
Qed.

Lemma matches_by_email e (d : doc) :
  matches (by_email e) d = holds_eq (d !! "email") e.
Proof. apply matches_singleton. Qed.

Lemma matches_by_id oid (d : doc) :
  matches (by_id oid) d = holds_eq (d !! "_id") (VOid oid).
Proof. apply matches_singleton. Qed.

Lemma value_eqb_eq a b : value_eqb a b = true <-> a = b.
Proof. unfold value_eqb. apply bool_decide_eq_true. Qed.

(** A string equals a field when the field holds it, or holds a list
    with it. *)
Lemma holds_eq_str (f : option value) (s : str) :
  holds_eq f (VStr s) = true <->
  f = Some (VStr s) \/ exists l, f = Some (VList l) /\ List.In s l.
Proof.
  unfold holds_eq. rewrite List.existsb_exists. split.
  - intros (v & Hin & Hv). apply value_eqb_eq in Hv. subst v.
    destruct f as [[| | | | x | l | |] |]; cbn in Hin;
      try (destruct Hin as [Hin | []]; discriminate Hin).
    + destruct Hin as [[= ->] | []]. left; reflexivity.
    + destruct Hin as [Hin | Hin]; [discriminate Hin |].
      apply List.in_map_iff in Hin. destruct Hin as (y & [= ->] & Hy).
      right. exists l. split; [reflexivity | exact Hy].
  - intros [-> | (l & -> & Hin)].
    + exists (VStr s). split; [left; reflexivity | apply value_eqb_eq; reflexivity].
    + exists (VStr s). split; [| apply value_eqb_eq; reflexivity].
      right. apply List.in_map, Hin.
Qed.

(** A scalar that is no string and no list equals a field only when the
    field holds exactly it. *)
Lemma holds_eq_oid (f : option value) (n : N) :
  holds_eq f (VOid n) = true <-> f = Some (VOid n).
Proof.
  unfold holds_eq. rewrite List.existsb_exists. split.
  - intros (v & Hin & Hv). apply value_eqb_eq in Hv. subst v.
    destruct f as [[| | | | x | l | |] |]; cbn in Hin;
      try (destruct Hin as [Hin | []]; congruence).
    destruct Hin as [Hin | Hin]; [discriminate Hin |].
    apply List.in_map_iff in Hin. destruct Hin as (y & Hy & _). discriminate Hy.
  - intros ->. exists (VOid n). split; [left; reflexivity | apply value_eqb_eq; reflexivity].
Qed.

Lemma holds_eq_bool (f : option value) (b : bool) :
  holds_eq f (VBool b) = true <-> f = Some (VBool b).
Proof.
  unfold holds_eq. rewrite List.existsb_exists. split.
  - intros (v & Hin & Hv). apply value_eqb_eq in Hv. subst v.
    destruct f as [[| | | | x | l | |] |]; cbn in Hin;
      try (destruct Hin as [Hin | []]; congruence).
    destruct Hin as [Hin | Hin]; [discriminate Hin |].
    apply List.in_map_iff in Hin. destruct Hin as (y & Hy & _). discriminate Hy.
  - intros ->. exists (VBool b). split; [left; reflexivity | apply value_eqb_eq; reflexivity].
Qed.

Lemma find_one_some (c : collection) (q : query) (d : doc) :
  find_one c q = Some d -> List.In d (docs c) /\ matches q d = true.
Proof. unfold find_one. apply List.find_some. Qed.

Lemma find_one_none (c : collection) (q : query) :
  find_one c q = None -> forall d, List.In d (docs c) -> matches q d = false.
Proof. unfold find_one. apply List.find_none. Qed.
(** An insert succeeds when no unique index stands in the way and the
    identifier the driver picks is new. *)
Lemma insert_one_fresh (c : collection) (fresh : N) (d : doc) :
  d !! "_id" = None ->
  (forall ix, List.In ix (indexes c) -> idx_unique ix = false) ->
  (forall d', List.In d' (docs c) -> d' !! "_id" <> Some (VOid fresh)) ->
  insert_one c fresh d
  = Return (<["_id" := VOid fresh]> d,
            {| docs := docs c ++ [<["_id" := VOid fresh]> d]; indexes := indexes c |}).
Proof.
  intros Hid Hix Hfresh. unfold insert_one. rewrite Hid.
  match goal with
  | |- context [List.existsb ?f ?l] => assert (Hex : List.existsb f l = false)
  end.
  { apply not_true_is_false. intros Hex.
    apply List.existsb_exists in Hex. destruct Hex as (ix & Hin & Hv).
    unfold violates in Hv. apply andb_true_iff in Hv. destruct Hv as [Hu Hv].
    destruct Hin as [<- | Hin].
    - apply List.existsb_exists in Hv. destruct Hv as (d' & Hd' & Heq).
      apply bool_decide_eq_true in Heq. unfold index_key in Heq.
      cbn [id_index idx_keys List.map] in Heq.
      rewrite lookup_insert_eq in Heq.
      apply (Hfresh d' Hd').
      destruct (d' !! "_id") as [v |]; cbn in Heq; congruence.
    - rewrite (Hix ix Hin) in Hu. discriminate Hu. }
  rewrite Hex. reflexivity.
Qed.

End StoreFacts.

(* ===================================================================== *)
(** * Properties of token verification and login *)
(* ===================================================================== *)

(** Case analysis on the innermost scrutinee of the goal. *)
Ltac case_inner :=
  match goal with
  | |- context [match ?x with _ => _ end] =>
      lazymatch x with
      | context [match _ with _ => _ end] => fail
      | _ => destruct x eqn:?
      end
  end.

Section AuthFacts.
Context `{Platform}.

Lemma find_map_invariant {A} (P : A -> bool) (f : A -> A) (l : list A) :
  (forall x, P (f x) = P x) ->
  List.find P (List.map f l) = option_map f (List.find P l).
Proof.
  intros HP. induction l as [| x l IH]; cbn; [reflexivity |].
  rewrite HP. destruct (P x); [reflexivity | exact IH].
Qed.

(** Verification reads [_id] and [email] of the stored user and nothing
    else: changing any other field of the stored users changes nothing. *)
Lemma get_current_user_other_field k v db now t :
  k <> "_id"%string -> k <> "email"%string ->
  get_current_user (with_user_field k v db) now t = get_current_user db now t.
Proof.
  intros Hid Hemail. unfold get_current_user. f_equal.
  destruct (jwt_decode now t) as [payload | e]; [| reflexivity]. cbn.
  destruct (payload !! "sub") as [email |]; [| reflexivity].
  destruct email; try reflexivity;
    destruct (default (VInt 0) (payload !! "exp")); try reflexivity;
    destruct (_ <? now); try reflexivity;
    unfold find_one, with_user_field, set_users; cbn [users docs];
    (rewrite find_map_invariant
       by (intros d; rewrite !matches_by_email, lookup_insert_ne by congruence; reflexivity));
    destruct (List.find _ _) as [user |]; cbn [option_map]; try reflexivity;
    unfold getitem; rewrite !lookup_insert_ne by congruence; reflexivity.
Qed.

Lemma seconds_le now e : now <= e * 1000000 -> (e <? seconds now) = false.
Proof.
  intros Hle. apply Z.ltb_ge. unfold seconds.
  apply Z.div_le_upper_bound; lia.
Qed.

(** A token with a good signature and a live expiry whose subject is the
    email of a stored user verifies. *)
Lemma get_current_user_ok db now t email e user uid :
  signature_ok t = true ->
  claims t !! "sub" = Some (VStr email) ->
  claims t !! "exp" = Some (VInt e) ->
  now <= e * 1000000 ->
  find_one (users db) (by_email (VStr email)) = Some user ->
  user !! "_id" = Some uid ->
  exists uemail,
    user !! "email" = Some uemail /\
    get_current_user db now t =
    Return {| Identity.id := py_str uid; Identity.email := uemail;
              Identity.role := default (VStr (lit "job_seeker")) (claims t !! "role") |}.
Proof.
  intros Hsig Hsub Hexp Hnow Hfind Hid.
  destruct (find_one_some _ _ _ Hfind) as [_ Hm].
  rewrite matches_by_email in Hm. apply holds_eq_str in Hm.
  assert (Hem : exists uemail, user !! "email" = Some uemail).
  { destruct Hm as [-> | (l & -> & _)]; eauto. }
  destruct Hem as [uemail Hem]. exists uemail. split; [exact Hem |].
  unfold get_current_user, jwt_decode. rewrite Hsig, Hexp, Hsub. cbn [negb].
  rewrite (seconds_le _ _ Hnow). cbn. rewrite Hsub, Hexp. cbn.
  replace (e * 1000000 <? now) with false by (symmetry; apply Z.ltb_ge; lia).
  rewrite Hfind. unfold getitem. rewrite Hid, Hem. reflexivity.
Qed.

(** [login] never succeeds for an account whose active flag is false. *)
Lemma login_deactivated db now email password user :
  find_one (users db) (by_email (VStr email)) = Some user ->
  user !! "is_active" = Some (VBool false) ->
  exists code detail, login db now email password = Raise (HTTPException code detail).
Proof.
  intros Hfind Hact. unfold login.
  set (pw := if 72 <? Z.of_nat (List.length password) then List.firstn 72 password else password).
  destruct (72 <? utf8_len pw); [eauto |].
  destruct (negb (nonempty email) || negb (nonempty pw)); [eauto |].
  rewrite Hfind. unfold getitem.
  destruct (user !! "hashed_password") as [hashed |]; cbn; [| eauto].
  destruct (negb _); cbn; [eauto |].
  rewrite Hact. cbn. eauto.
Qed.
End AuthFacts.

(** C8: the role of the identity that verification returns is the role claim
    of the token, or job_seeker when the token has none; the stored user
    record is not consulted for it, so changing the stored role of the users
    changes nothing of what verification answers. *)
Theorem role_comes_from_token `{Platform} db now t r :
  get_current_user (with_user_field "role" r db) now t = get_current_user db now t /\
  match get_current_user db now t with
  | Return ident =>
      Identity.role ident = default (VStr (lit "job_seeker")) (claims t !! "role")
  | Raise _ => True
  end.
Proof.
  split; [apply get_current_user_other_field; discriminate |].
  unfold get_current_user, jwt_decode, getitem.
  repeat first [ exact I | reflexivity | case_inner | progress cbn ].
Qed.

(** A token issued for an employer keeps saying employer after the stored
    role has become admin. *)
Example stale_role :
  Identity.role <$>
    (match get_current_user (H := example_platform)
             (with_user_field "role" (VStr (lit "admin")) example_db)
             example_now (example_token "erin@acme.example" "employer") with
     | Return ident => Some ident
     | Raise _ => None
     end) = Some (VStr (lit "employer")).
Proof. vm_compute. reflexivity. Qed.

(** C9: verification does not look at the active flag.  A token with a good
    signature and a live expiry whose subject is the email of a stored user
    verifies although that account is deactivated, while [login] refuses the
    same account whatever the password. *)
Theorem verification_ignores_active_flag `{Platform} db now t email e user uid :
  signature_ok t = true ->
  claims t !! "sub" = Some (VStr email) ->
  claims t !! "exp" = Some (VInt e) ->
  now <= e * 1000000 ->
  find_one (users db) (by_email (VStr email)) = Some user ->
  user !! "_id" = Some uid ->
  user !! "is_active" = Some (VBool false) ->
  (exists ident, get_current_user db now t = Return ident /\
                 Identity.id ident = py_str uid) /\
  (forall password,
     exists code detail, login db now email password = Raise (HTTPException code detail)) /\
  get_current_user (with_user_field "is_active" (VBool true) db) now t
  = get_current_user db now t.
Proof.
  intros Hsig Hsub Hexp Hnow Hfind Hid Hact. split; [| split].
  - destruct (get_current_user_ok db now t email e user uid Hsig Hsub Hexp Hnow Hfind Hid)
      as (uemail & _ & Hok).
    eexists. split; [exact Hok | reflexivity].
  - intros password. eapply login_deactivated; eassumption.
  - apply get_current_user_other_field; discriminate.
Qed.

Lemma verification_ignores_active_flag_witness :
  let t := example_token "dana@mail.example" "job_seeker" in
  let user := user_doc 4 "dana@mail.example" "Dana" "job_seeker" false in
  (exists ident, get_current_user (H := example_platform) example_db example_now t = Return ident /\
                 Identity.id ident = py_str (H := example_platform) (VOid 4)) /\
  (forall password,
     exists code detail,
       login (H := example_platform) example_db example_now (lit "dana@mail.example") password
       = Raise (HTTPException code detail)) /\
  get_current_user (H := example_platform)
    (with_user_field "is_active" (VBool true) example_db) example_now t
  = get_current_user (H := example_platform) example_db example_now t.
Proof.
  intros t user.
  apply (verification_ignores_active_flag (H := example_platform) example_db example_now t
           (lit "dana@mail.example") 1700001800 user (VOid 4)).
  - reflexivity.
  - by_evaluation.
  - by_evaluation.
  - vm_compute. discriminate.
  - by_evaluation.
  - by_evaluation.
  - by_evaluation.
Defined.

(* ===================================================================== *)
(** * Properties of registration *)
(* ===================================================================== *)

Section RegistrationFacts.
Context `{Platform}.

Lemma length_le_utf8_len s : Z.of_nat (List.length s) <= utf8_len s.
Proof.
  induction s as [| c s IH]; cbn [List.length utf8_len List.fold_right]; [lia |].
  fold (utf8_len s).
  assert (1 <= utf8_width c) by (unfold utf8_width; repeat case_inner; lia).
  lia.
Qed.

(** A password outside 8 to 72 bytes, or without a capital letter, a
    digit or a special character, does not get past the two password
    checks. *)
Lemma password_checks password :
  utf8_len password < 8 \/ 72 < utf8_len password \/
  re_search_class is_upper password = false \/
  re_search_class is_digit09 password = false \/
  re_search_class is_special password = false ->
  (72 <? utf8_len password) = true \/ validate_password password = false.
Proof.
  pose proof (length_le_utf8_len password) as Hlen.
  intros [Hs | [Hl | [Hu | [Hd | Hp]]]]; unfold validate_password.
  - right. replace (Z.of_nat (List.length password) <? 8) with true
      by (symmetry; apply Z.ltb_lt; lia). reflexivity.
  - left. apply Z.ltb_lt, Hl.
  - right. rewrite Hu. cbn. destruct (_ <? 8); reflexivity.
  - right. rewrite Hd. cbn. destruct (_ <? 8); [reflexivity |].
    destruct (negb _); reflexivity.
  - right. rewrite Hp. cbn. destruct (_ <? 8); [reflexivity |].
    destruct (negb _); [reflexivity |]. destruct (negb _); reflexivity.
Qed.

(** Whatever fails one of the checks is answered with a 400 and leaves
    the store as it was. *)
Lemma register_rejects db now salt user :
  validate_email (UserCreate.email user) = false \/
  (72 <? utf8_len (UserCreate.password user)) = true \/
  validate_password (UserCreate.password user) = false \/
  validate_mobile (UserCreate.mobile user) = false ->
  exists detail, register db now salt user = (db, Raise (HTTPException 400 detail)).
Proof.
  intros Hbad. unfold register.
  destruct (validate_email _); cbn [negb]; [| eauto].
  destruct (72 <? utf8_len _); [eauto |].
  destruct (validate_password _); cbn [negb]; [| eauto].
  destruct (validate_mobile _); cbn [negb]; [| eauto].
  exfalso. destruct Hbad as [Hb | [Hb | [Hb | Hb]]]; discriminate Hb.
Qed.

(** What the two patterns accept. *)
Lemma validate_mobile_spec mobile :
  validate_mobile mobile = true <->
  exists digits,
    List.length digits = 10%nat /\ List.forallb re_digit digits = true /\
    (mobile = digits \/ mobile = digits ++ [10%N]).
Proof.
  unfold validate_mobile, mobile_pattern. rewrite re_match_anchored_spec. split.
  - intros [Hl | (s' & -> & Hl)]; apply lang_times_class in Hl; destruct Hl as [Hlen Hall].
    + exists mobile. auto.
    + exists s'. auto.
  - intros (digits & Hlen & Hall & [-> | ->]).
    + left. apply lang_times_class. auto.
    + right. exists digits. split; [reflexivity |]. apply lang_times_class. auto.
Qed.

Lemma email_pattern_spec s :
  re_lang email_pattern s <->
  exists local domain tld,
    s = local ++ [64%N] ++ domain ++ [46%N] ++ tld /\
    local <> [] /\ List.forallb email_local local = true /\
    domain <> [] /\ List.forallb email_domain domain = true /\
    (2 <= List.length tld)%nat /\ List.forallb is_alpha tld = true.
Proof.
  unfold email_pattern. split.
  - intros Hl.
    apply lang_cat in Hl. destruct Hl as (local & r1 & -> & Hlocal & Hl).
    apply lang_cat in Hl. destruct Hl as (at_ & r2 & -> & Hat & Hl).
    apply lang_cat in Hl. destruct Hl as (domain & r3 & -> & Hdomain & Hl).
    apply lang_cat in Hl. destruct Hl as (dot & tld & -> & Hdot & Htld).
    apply lang_plus_class in Hlocal. apply lang_plus_class in Hdomain.
    apply lang_at_least_class in Htld.
    apply lang_class in Hat. destruct Hat as (c & -> & Hc). apply N.eqb_eq in Hc. subst c.
    apply lang_class in Hdot. destruct Hdot as (c & -> & Hc). apply N.eqb_eq in Hc. subst c.
    exists local, domain, tld. tauto.
  - intros (local & domain & tld & -> & Hl1 & Hl2 & Hd1 & Hd2 & Ht1 & Ht2).
    apply lang_cat. exists local, ([64%N] ++ domain ++ [46%N] ++ tld).
    split; [reflexivity |]. split; [apply lang_plus_class; auto |].
    apply lang_cat. exists [64%N], (domain ++ [46%N] ++ tld).
    split; [reflexivity |]. split; [constructor; reflexivity |].
    apply lang_cat. exists domain, ([46%N] ++ tld).
    split; [reflexivity |]. split; [apply lang_plus_class; auto |].
    apply lang_cat. exists [46%N], tld.
    split; [reflexivity |]. split; [constructor; reflexivity |].
    apply lang_at_least_class. auto.
Qed.

Lemma validate_email_spec email :
  validate_email email = true <->
  re_lang email_pattern email \/
  exists s, email = s ++ [10%N] /\ re_lang email_pattern s.
Proof. apply re_match_anchored_spec. Qed.

(** A mobile number that is neither ten digits nor ten digits and a line
    feed is refused. *)
Lemma register_rejects_mobile db now salt user :
  (forall digits, List.length digits = 10%nat -> List.forallb re_digit digits = true ->
                  UserCreate.mobile user <> digits /\
                  UserCreate.mobile user <> digits ++ [10%N]) ->
  exists detail, register db now salt user = (db, Raise (HTTPException 400 detail)).
Proof.
  intros Hno. apply register_rejects. right. right. right.
  apply not_true_is_false. intros Hv. apply validate_mobile_spec in Hv.
  destruct Hv as (digits & Hlen & Hall & Hm).
  destruct (Hno digits Hlen Hall) as [H1 H2]. destruct Hm; contradiction.
Qed.

Lemma role_is_listed (r : UserRole) :
  bool_decide (r ∈ [JOB_SEEKER; EMPLOYER; ADMIN]) = true.
Proof. destruct r; reflexivity. Qed.

(** With the unique index on the email in place, registering an email
    that is already stored is answered with "Email already exists": the
    insert itself reports the duplicate. *)
Lemma register_existing_email db now salt user d :
  validate_email (UserCreate.email user) = true ->
  (72 <? utf8_len (UserCreate.password user)) = false ->
  validate_password (UserCreate.password user) = true ->
  validate_mobile (UserCreate.mobile user) = true ->
  List.In email_index (indexes (users db)) ->
  List.In d (docs (users db)) ->
  d !! "email" = Some (VStr (UserCreate.email user)) ->
  register db now salt user
  = (db, Raise (HTTPException 400 (lit "Email already exists"))).
Proof.
  intros He Hl Hp Hm Hix Hd Hdemail. unfold register.
  rewrite He, Hl, Hp, Hm, role_is_listed. cbn [negb].
  unfold insert_one.
  match goal with
  | |- context [List.existsb ?f ?l] =>
      assert (Hex : List.existsb f l = true)
  end.
  { apply List.existsb_exists. exists email_index. split; [right; exact Hix |].
    unfold violates. cbn [idx_unique email_index andb idx_keys].
    apply List.existsb_exists. exists d. split; [exact Hd |].
    apply bool_decide_eq_true. unfold index_key. cbn [List.map].
    rewrite Hdemail. unfold UserCreate_model_dump. cbn [default].
    now simplify_map_eq. }
  rewrite Hex. reflexivity.
Qed.

(** Without a unique index nothing looks for the email: the request is
    stored whether or not the email is there already. *)
Lemma register_without_index db now salt user :
  validate_email (UserCreate.email user) = true ->
  (72 <? utf8_len (UserCreate.password user)) = false ->
  validate_password (UserCreate.password user) = true ->
  validate_mobile (UserCreate.mobile user) = true ->
  (forall ix, List.In ix (indexes (users db)) -> idx_unique ix = false) ->
  (forall d, List.In d (docs (users db)) -> d !! "_id" <> Some (VOid (next_oid db))) ->
  is_return (snd (register db now salt user)) = true.
Proof.
  intros He Hl Hp Hm Hix Hfresh. unfold register.
  rewrite He, Hl, Hp, Hm, role_is_listed. cbn [negb].
  rewrite insert_one_fresh; [reflexivity | | exact Hix | exact Hfresh].
  unfold UserCreate_model_dump. now simplify_map_eq.
Qed.
End RegistrationFacts.

(** C3: a mobile number that is not exactly ten digits must be refused.
    [mobile_with_newline] has eleven characters, ten digits and a line
    feed; [validate_mobile] accepts it, since [$] also matches before a
    final line feed, and [register] stores the account. *)
Theorem register_accepts_mobile_with_newline `{Platform} now salt :
  List.length mobile_with_newline = 11%nat /\
  validate_mobile mobile_with_newline = true /\
  is_return (snd (register empty_database now salt
                    (example_registration mobile_with_newline))) = true.
Proof. vm_compute. repeat split; reflexivity. Qed.

(** The same request with ten digits and nothing else is accepted as well,
    and one digit less is refused. *)
Example register_mobile_examples :
  is_return (snd (register (H := example_platform) empty_database example_now (lit "salt")
                    (example_registration (lit "9876543210")))) = true /\
  snd (register (H := example_platform) empty_database example_now (lit "salt")
         (example_registration (lit "987654321")))
  = Raise (HTTPException 400 (lit "Mobile number must be 10 digits")).
Proof. vm_compute. split; reflexivity. Qed.

(** On the example store, whose users have the unique index on the email,
    registering a stored email answers "Email already exists". *)
Example register_twice :
  let user := example_registration (lit "9876543210") in
  let '(db1, r1) := register (H := example_platform) example_db example_now (lit "salt") user in
  is_return r1 = true /\
  snd (register (H := example_platform) db1 example_now (lit "salt") user)
  = Raise (HTTPException 400 (lit "Email already exists")).
Proof. vm_compute. split; reflexivity. Qed.

(* ===================================================================== *)
(** * Properties of the application and job handlers *)
(* ===================================================================== *)

Section HandlerFacts.
Context `{Platform}.

Lemma find_snoc {A} (P : A -> bool) (l : list A) (x : A) :
  List.find P l = None -> P x = true -> List.find P (l ++ [x]) = Some x.
Proof.
  intros Hn Hx. induction l as [| y l IH]; cbn in *.
  - rewrite Hx. reflexivity.
  - destruct (P y); [discriminate | apply IH, Hn].
Qed.

Lemma filter_snoc_none {A} (P : A -> bool) (l : list A) (x : A) :
  List.find P l = None -> P x = true -> List.filter P (l ++ [x]) = [x].
Proof.
  intros Hn Hx. induction l as [| y l IH]; cbn in *.
  - rewrite Hx. reflexivity.
  - destruct (P y); [discriminate | apply IH, Hn].
Qed.

Lemma application_dict_matches now (u : Identity.t) a fresh :
  matches (by_user_and_job (Identity.id u) (ApplicationCreate.job_id a))
          (<["_id" := VOid fresh]> (application_dict now u a)) = true.
Proof.
  apply matches_spec. intros k cl Hk. unfold by_user_and_job in Hk.
  apply lookup_insert_Some in Hk. destruct Hk as [[<- <-] | [Hne Hk]].
  - cbn [eval_clause eval_cond]. apply holds_eq_str. left.
    unfold application_dict. now simplify_map_eq.
  - apply lookup_singleton_Some in Hk. destruct Hk as [<- <-].
    cbn [eval_clause eval_cond]. apply holds_eq_str. left.
    unfold application_dict. now simplify_map_eq.
Qed.

(** What a passed check says about the store. *)
Lemma create_application_check_inv db now t a u :
  create_application_check db now t a = Return u ->
  get_current_user db now t = Return u /\
  find_one (applications db)
    (by_user_and_job (Identity.id u) (ApplicationCreate.job_id a)) = None /\
  forall db',
    users db' = users db -> jobs db' = jobs db ->
    create_application_check db' now t a =
    match find_one (applications db')
            (by_user_and_job (Identity.id u) (ApplicationCreate.job_id a)) with
    | Some _ => Raise (HTTPException 400 (lit "Application already submitted for this job"))
    | None => Return u
    end.
Proof.
  unfold create_application_check. intros Hc.
  assert (Hsame : forall db', users db' = users db ->
                              get_current_user db' now t = get_current_user db now t).
  { intros db' Hu. unfold get_current_user. rewrite Hu. reflexivity. }
  destruct (get_current_user db now t) as [cu | e] eqn:Hg; [| discriminate Hc].
  cbn in Hc.
  destruct (ObjectId (ApplicationCreate.job_id a)) as [joid |] eqn:Hj; [| discriminate Hc].
  destruct (find_one (jobs db) (by_id joid)) as [job |] eqn:Hjob; [| discriminate Hc].
  destruct (ObjectId (Identity.id cu)) as [uoid |] eqn:Hu; [| discriminate Hc].
  destruct (find_one (users db) (by_id uoid)) as [user |] eqn:Huser; [| discriminate Hc].
  destruct (find_one (applications db) _) as [existing |] eqn:Hex; [discriminate Hc |].
  injection Hc as <-. split; [reflexivity |]. split; [exact Hex |].
  intros db' Hus Hjs. rewrite (Hsame db' Hus). cbn.
  rewrite ?Hj, ?Hjs, ?Hjob, ?Hu, ?Hus, ?Huser. reflexivity.
Qed.
(** What makes the check pass. *)
Lemma create_application_check_ok db now t a u job_object_id job user_object_id user :
  get_current_user db now t = Return u ->
  ObjectId (ApplicationCreate.job_id a) = Some job_object_id ->
  find_one (jobs db) (by_id job_object_id) = Some job ->
  ObjectId (Identity.id u) = Some user_object_id ->
  find_one (users db) (by_id user_object_id) = Some user ->
  find_one (applications db)
    (by_user_and_job (Identity.id u) (ApplicationCreate.job_id a)) = None ->
  create_application_check db now t a = Return u.
Proof.
  intros Hg Hj Hjob Hu Huser Hnone. unfold create_application_check.
  rewrite Hg. cbn. rewrite Hj, Hjob, Hu, Huser, Hnone. reflexivity.
Qed.
End HandlerFacts.

(** C1, as stated, fails: nothing in the store keeps applications unique.
    The indexes that [create_indexes] puts on the applications are not
    unique, and when the handlers of two requests for the same user and job
    interleave (both check, then both insert) the store ends with two
    applications linking that user to that job. *)
Lemma duplicate_applications_when_interleaved :
  List.existsb idx_unique (indexes (applications example_db)) = false /\
  (fun db => List.length (applications_of (H := example_platform) db
                            (ObjectId_str 3) (ObjectId_str 10)))
    <$> two_requests_interleaved = Some 2%nat.
Proof. vm_compute. split; reflexivity. Qed.

(** C1, amended: when a request passes the handler's own check (the token
    verifies, job and user exist, no application links them yet) on a store
    whose applications have no unique index and no clash of identifiers,
    the application is stored with the status that was submitted (applied
    by default) under the caller's id, it is then the only application
    linking that user to that job, and submitting it again afterwards is
    refused with a 400.  Uniqueness rests on this check before the insert,
    for requests served one after the other. *)
Theorem application_submitted_twice `{Platform} db now t a u :
  create_application_check db now t a = Return u ->
  (forall ix, List.In ix (indexes (applications db)) -> idx_unique ix = false) ->
  (forall d, List.In d (docs (applications db)) -> d !! "_id" <> Some (VOid (next_oid db))) ->
  exists db' app,
    create_application db now t a = (db', Return app) /\
    app !! "status" = Some (VStr (ApplicationStatus_value (ApplicationCreate.status a))) /\
    app !! "user_id" = Some (VStr (Identity.id u)) /\
    app !! "job_id" = Some (VStr (ApplicationCreate.job_id a)) /\
    List.length (applications_of db' (Identity.id u) (ApplicationCreate.job_id a)) = 1%nat /\
    create_application db' now t a
    = (db', Raise (HTTPException 400 (lit "Application already submitted for this job"))).
Proof.
  intros Hcheck Hix Hfresh.
  destruct (create_application_check_inv db now t a u Hcheck) as (Hg & Hnone & Hagain).
  assert (Hins : insert_one (applications db) (next_oid db) (application_dict now u a)
                 = Return (<["_id" := VOid (next_oid db)]> (application_dict now u a),
                           {| docs := docs (applications db)
                                      ++ [<["_id" := VOid (next_oid db)]> (application_dict now u a)];
                              indexes := indexes (applications db) |})).
  { apply insert_one_fresh; [| exact Hix | exact Hfresh].
    unfold application_dict. now simplify_map_eq. }
  eexists. eexists. split.
  { unfold create_application. rewrite Hcheck.
    unfold create_application_insert. rewrite Hins. cbn. reflexivity. }
  split; [unfold application_dict; now simplify_map_eq |].
  split; [unfold application_dict; now simplify_map_eq |].
  split; [unfold application_dict; now simplify_map_eq |].
  pose proof (application_dict_matches now u a (next_oid db)) as Hm.
  split.
  - unfold applications_of. cbn [bump_oid set_applications applications docs].
    unfold find_one in Hnone. rewrite (filter_snoc_none _ _ _ Hnone Hm). reflexivity.
  - unfold create_application. rewrite Hagain by reflexivity.
    unfold find_one at 1. cbn [bump_oid set_applications applications docs].
    unfold find_one in Hnone. rewrite (find_snoc _ _ _ Hnone Hm). reflexivity.
Qed.

Lemma application_submitted_twice_witness :
  let t := example_token "sam@mail.example" "job_seeker" in
  let a := example_application 10 in
  let u := {| Identity.id := ObjectId_str 3;
              Identity.email := VStr (lit "sam@mail.example");
              Identity.role := VStr (lit "job_seeker") |} in
  exists db' app,
    create_application (H := example_platform) example_db example_now t a = (db', Return app) /\
    app !! "status" = Some (VStr (lit "applied")) /\
    app !! "user_id" = Some (VStr (Identity.id u)) /\
    app !! "job_id" = Some (VStr (ApplicationCreate.job_id a)) /\
    List.length (applications_of (H := example_platform) db' (Identity.id u)
                   (ApplicationCreate.job_id a)) = 1%nat /\
    create_application (H := example_platform) db' example_now t a
    = (db', Raise (HTTPException 400 (lit "Application already submitted for this job"))).
Proof.
  intros t a u.
  apply (application_submitted_twice (H := example_platform) example_db example_now t a u).
  - by_evaluation.
  - intros ix Hin. vm_compute in Hin.
    repeat (destruct Hin as [<- | Hin]; [reflexivity |]). destruct Hin.
  - intros d Hin. vm_compute in Hin. destruct Hin.
Defined.

(* ===================================================================== *)
(** * Properties of the job update *)
(* ===================================================================== *)

Section JobFacts.
Context `{Platform}.

Lemma set_first_spec (P : doc -> bool) (upd : doc) (l : list doc) (d : doc) :
  List.find P l = Some d ->
  P (upd ∪ d) = true ->
  List.find P (fst (set_first P upd l)) = Some (upd ∪ d) /\
  snd (set_first P upd l) = (if bool_decide (upd ∪ d = d) then 0 else 1).
Proof.
  intros Hf Hp. induction l as [| x r IH]; cbn in Hf; [discriminate |].
  cbn [set_first]. destruct (P x) eqn:Hx.
  - injection Hf as ->. cbn [fst snd List.find]. rewrite Hp. split; reflexivity.
  - destruct (set_first P upd r) as [r' n] eqn:Hr. cbn [fst snd] in *.
    cbn [List.find]. rewrite Hx. apply IH, Hf.
Qed.

Lemma update_data_no_id now job_update : update_data now job_update !! "_id" = None.
Proof. unfold update_data, JobUpdate_model_dump. now simplify_map_eq. Qed.

Lemma update_data_lookup now job_update k :
  update_data now job_update !! k =
  if bool_decide (k = "updated_at"%string) then Some (VDate now)
  else JobUpdate_model_dump job_update !! k.
Proof.
  unfold update_data. destruct (bool_decide_reflect (k = "updated_at"%string)) as [-> | Hne].
  - apply lookup_insert_eq.
  - apply lookup_insert_ne. congruence.
Qed.

(** A member of [JobBase_fields] is a key of every dumped update, and
    every key of it is such a member. *)
Lemma model_dump_keys job_update k :
  k ∈ JobBase_fields <-> is_Some (JobUpdate_model_dump job_update !! k).
Proof.
  unfold JobBase_fields, JobUpdate_model_dump. split.
  - intros Hin. repeat (apply elem_of_cons in Hin; destruct Hin as [-> | Hin];
                        [simplify_map_eq; eauto |]).
    apply elem_of_nil in Hin. destruct Hin.
  - intros [v Hv].
    repeat (apply lookup_insert_Some in Hv; destruct Hv as [[<- _] | [_ Hv]];
            [set_solver |]).
    apply lookup_singleton_Some in Hv. destruct Hv as [<- _]. set_solver.
Qed.

(** Someone who neither owns the job nor is an administrator: the body
    raises 403, and the handler answers 400 "Invalid job ID". *)
Lemma update_job_not_owner db now t job_id oid job_update job created_by u :
  get_current_user db now t = Return u ->
  ObjectId job_id = Some oid ->
  stored_job db oid = Some job ->
  job !! "created_by" = Some created_by ->
  created_by <> VStr (Identity.id u) ->
  Identity.role u <> VStr (lit "admin") ->
  update_job_body db now u job_id job_update
  = (db, Raise (HTTPException 403 (lit "Not authorized to update this job"))) /\
  update_job db now t job_id job_update
  = (db, Raise (HTTPException 400 (lit "Invalid job ID"))).
Proof.
  intros Hg Ho Hj Hc Hnot Hrole.
  assert (Hbody : update_job_body db now u job_id job_update
                  = (db, Raise (HTTPException 403 (lit "Not authorized to update this job")))).
  { unfold update_job_body. unfold stored_job in Hj. rewrite Ho, Hj, Hc.
    replace (value_eqb created_by (VStr (Identity.id u))) with false
      by (symmetry; apply not_true_is_false; rewrite value_eqb_eq; exact Hnot).
    replace (value_eqb (Identity.role u) (VStr (lit "admin"))) with false
      by (symmetry; apply not_true_is_false; rewrite value_eqb_eq; exact Hrole).
    reflexivity. }
  split; [exact Hbody |].
  unfold update_job. rewrite Hg, Hbody. reflexivity.
Qed.

(** The owner's update. *)
Lemma update_job_owner db now t job_id oid job_update job u :
  get_current_user db now t = Return u ->
  ObjectId job_id = Some oid ->
  stored_job db oid = Some job ->
  job !! "created_by" = Some (VStr (Identity.id u)) ->
  let job' := update_data now job_update ∪ job in
  stored_job (fst (update_job db now t job_id job_update)) oid = Some job' /\
  snd (update_job db now t job_id job_update)
  = (if bool_decide (job' = job)
     then Raise (HTTPException 400 (lit "Invalid job ID"))
     else if Job_validates (read_back job')
          then Return (filter (fun kv => bool_decide (kv.1 ∈ Job_fields)) (read_back job'))
          else Raise (HTTPException 400 (lit "Invalid job ID"))).
Proof.
  intros Hg Ho Hj Hc job'. unfold stored_job in Hj.
  assert (Hm : matches (by_id oid) job' = true).
  { destruct (find_one_some _ _ _ Hj) as [_ Hm].
    rewrite matches_by_id in *. unfold job'.
    rewrite lookup_union_r by apply update_data_no_id. exact Hm. }
  destruct (set_first_spec (matches (by_id oid)) (update_data now job_update)
              (docs (jobs db)) job Hj Hm) as [Hfind Hcount].
  unfold update_job. rewrite Hg. unfold update_job_body. rewrite Ho, Hj, Hc.
  replace (value_eqb (VStr (Identity.id u)) (VStr (Identity.id u))) with true
    by (symmetry; apply value_eqb_eq; reflexivity).
  cbn [negb andb]. unfold update_one.
  destruct (set_first (matches (by_id oid)) (update_data now job_update) (docs (jobs db)))
    as [ds n] eqn:Hs.
  cbn [fst snd] in Hfind, Hcount. subst n. fold job'.
  destruct (bool_decide (job' = job)).
  - cbn. split; [exact Hfind | reflexivity].
  - cbn. rewrite Hfind. cbn [fst snd].
    split; [exact Hfind |].
    unfold Job. fold job'. destruct (Job_validates (read_back job')); reflexivity.
Qed.
End JobFacts.

(** C2: an employer who does not own a job and is no administrator must get
    403 from the update.  Omar updates a job that Erin created: the body of
    the handler raises the 403, but the [except Exception] around it catches
    it like any other exception, and the answer is 400 "Invalid job ID". *)
Theorem update_by_other_employer_answers_400 :
  let t := example_token "omar@other.example" "employer" in
  let u := {| Identity.id := ObjectId_str 2;
              Identity.email := VStr (lit "omar@other.example");
              Identity.role := VStr (lit "employer") |} in
  get_current_user (H := example_platform) example_db example_now t = Return u /\
  update_job_body (H := example_platform) example_db example_now u (ObjectId_str 10)
    example_job_update
  = (example_db, Raise (HTTPException 403 (lit "Not authorized to update this job"))) /\
  update_job (H := example_platform) example_db example_now t (ObjectId_str 10)
    example_job_update
  = (example_db, Raise (HTTPException 400 (lit "Invalid job ID"))).
Proof.
  intros t u.
  assert (Hg : get_current_user (H := example_platform) example_db example_now t = Return u)
    by by_evaluation.
  split; [exact Hg |].
  apply (update_job_not_owner (H := example_platform) example_db example_now t
           (ObjectId_str 10) 10 example_job_update
           (job_doc 10 "Backend engineer" 1 ["Go"; "SQL"]%string)
           (VStr (ObjectId_str 1)) u Hg).
  - by_evaluation.
  - by_evaluation.
  - by_evaluation.
  - vm_compute. discriminate.
  - vm_compute. discriminate.
Qed.

(** C7, as stated, fails: [updated_at] is not part of the payload, and the
    update changes it. *)
Lemma update_changes_updated_at :
  let t := example_token "erin@acme.example" "employer" in
  let db' := fst (update_job (H := example_platform) example_db example_now t
                    (ObjectId_str 10) example_job_update) in
  JobUpdate_model_dump example_job_update !! "updated_at" = None /\
  (stored_job (H := example_platform) example_db 10 ≫= (fun d => d !! "updated_at"))
  = Some (VDate (example_now - 1000000)) /\
  (stored_job (H := example_platform) db' 10 ≫= (fun d => d !! "updated_at"))
  = Some (VDate example_now).
Proof. vm_compute. repeat split; reflexivity. Qed.

(** C7, amended: when the owner of a job updates it, the stored job
    afterwards has the submitted value in each of the twelve fields of the
    payload (the update model requires all of them, so no request carries
    only some), has [updated_at] set to the time of the request, and keeps
    the value of every other field.  The call returns the updated job when
    the write changed the document and the result validates, and answers
    400 otherwise. *)
Theorem update_by_owner_frame `{Platform} db now t job_id oid job_update job u :
  get_current_user db now t = Return u ->
  ObjectId job_id = Some oid ->
  stored_job db oid = Some job ->
  job !! "created_by" = Some (VStr (Identity.id u)) ->
  exists job',
    stored_job (fst (update_job db now t job_id job_update)) oid = Some job' /\
    (forall k v, JobUpdate_model_dump job_update !! k = Some v -> job' !! k = Some v) /\
    (forall k, k ∈ JobBase_fields <-> is_Some (JobUpdate_model_dump job_update !! k)) /\
    job' !! "updated_at" = Some (VDate now) /\
    (forall k, JobUpdate_model_dump job_update !! k = None -> k <> "updated_at"%string ->
               job' !! k = job !! k) /\
    snd (update_job db now t job_id job_update)
    = (if bool_decide (job' = job)
       then Raise (HTTPException 400 (lit "Invalid job ID"))
       else if Job_validates (read_back job')
            then Return (filter (fun kv => bool_decide (kv.1 ∈ Job_fields)) (read_back job'))
            else Raise (HTTPException 400 (lit "Invalid job ID"))).
Proof.
  intros Hg Ho Hj Hc.
  destruct (update_job_owner db now t job_id oid job_update job u Hg Ho Hj Hc) as [Hs Hr].
  exists (update_data now job_update ∪ job).
  split; [exact Hs |]. split; [| split; [| split; [| split]]].
  - intros k v Hk. apply lookup_union_Some_l.
    rewrite update_data_lookup. destruct (bool_decide_reflect (k = "updated_at"%string)) as [-> | _].
    + exfalso. unfold JobUpdate_model_dump in Hk. now simplify_map_eq.
    + exact Hk.
  - apply model_dump_keys.
  - apply lookup_union_Some_l. rewrite update_data_lookup. reflexivity.
  - intros k Hk Hne. apply lookup_union_r.
    rewrite update_data_lookup.
    destruct (bool_decide_reflect (k = "updated_at"%string)); [contradiction | exact Hk].
  - exact Hr.
Qed.

Lemma update_by_owner_frame_witness :
  let t := example_token "erin@acme.example" "employer" in
  let u := {| Identity.id := ObjectId_str 1;
              Identity.email := VStr (lit "erin@acme.example");
              Identity.role := VStr (lit "employer") |} in
  let job := job_doc 10 "Backend engineer" 1 ["Go"; "SQL"]%string in
  exists job',
    stored_job (H := example_platform)
      (fst (update_job (H := example_platform) example_db example_now t (ObjectId_str 10)
              example_job_update)) 10 = Some job' /\
    (forall k v, JobUpdate_model_dump example_job_update !! k = Some v -> job' !! k = Some v) /\
    (forall k, k ∈ JobBase_fields <-> is_Some (JobUpdate_model_dump example_job_update !! k)) /\
    job' !! "updated_at" = Some (VDate example_now) /\
    (forall k, JobUpdate_model_dump example_job_update !! k = None -> k <> "updated_at"%string ->
               job' !! k = job !! k) /\
    snd (update_job (H := example_platform) example_db example_now t (ObjectId_str 10)
           example_job_update)
    = (if bool_decide (job' = job)
       then Raise (HTTPException 400 (lit "Invalid job ID"))
       else if Job_validates (Platform := example_platform) (read_back (H := example_platform) job')
            then Return (filter (fun kv => bool_decide (kv.1 ∈ Job_fields))
                           (read_back (H := example_platform) job'))
            else Raise (HTTPException 400 (lit "Invalid job ID"))).
Proof.
  intros t u job.
  apply (update_by_owner_frame (H := example_platform) example_db example_now t
           (ObjectId_str 10) 10 example_job_update job u).
  - by_evaluation.
  - by_evaluation.
  - by_evaluation.
  - by_evaluation.
Defined.

(* ===================================================================== *)
(** * Properties of the search filter and of the alert filter *)
(* ===================================================================== *)

Section QueryFacts.
Context `{Platform}.

Lemma holds_eq_skill (job : doc) (s : str) :
  holds_eq (job !! "skills") (VStr s) = true <-> List.In s (job_skills job).
Proof.
  rewrite holds_eq_str. unfold job_skills. split.
  - intros [-> | (l & -> & Hin)]; [left; reflexivity | exact Hin].
  - destruct (job !! "skills") as [[| | | | x | l | |] |]; cbn; try tauto.
    + intros [-> | []]. left; reflexivity.
    + intros Hin. right. exists l. split; [reflexivity | exact Hin].
Qed.

Lemma split_not_nil sep s : split sep s <> [].
Proof.
  destruct s as [| c r]; cbn; [discriminate |].
  destruct (c =? sep)%N; [discriminate |].
  destruct (split sep r); discriminate.
Qed.

(** The alert filter carries the listed skills under [$all]. *)
Lemma alert_query_skills search_params last_triggered now v :
  search_params !! "skills" = Some v -> truthy v = true ->
  get_recent_jobs_for_alerts_query search_params last_triggered now !! "skills" = Some (Field (CAll v)).
Proof.
  intros Hs Ht. unfold get_recent_jobs_for_alerts_query.
  assert (Hg : get_truthy search_params "skills" = true)
    by (unfold get_truthy; rewrite Hs; exact Ht).
  rewrite Hg, Hs. cbn [default from_option id].
  destruct last_triggered as [lt |]; [destruct (truthy lt) |];
    rewrite lookup_insert_ne by discriminate; apply lookup_insert_eq.
Qed.

(** The search filter with only [skills] given. *)
Lemma search_query_skills_only skills :
  nonempty skills = true ->
  search_jobs_query [] [] [] [] 0 0 100 skills
  = <["skills" := Field (CIn (List.map (fun s => VStr (strip s)) (split 44 skills)))]>
      {["is_active"%string := Field (CEq (VBool true))]}.
Proof. intros Hn. unfold search_jobs_query. rewrite Hn. reflexivity. Qed.

(** Whatever else is asked for, the search filter carries the skills
    under [$in]. *)
Lemma search_query_skills search location job_type work_mode
      salary_min experience_min experience_max skills :
  nonempty skills = true ->
  search_jobs_query search location job_type work_mode
    salary_min experience_min experience_max skills !! "skills"
  = Some (Field (CIn (List.map (fun s => VStr (strip s)) (split 44 skills)))).
Proof. intros Hn. unfold search_jobs_query. rewrite Hn. apply lookup_insert_eq. Qed.

Lemma all_listed (job : doc) (wanted : list str) :
  eval_cond (CAll (VList wanted)) (job !! "skills") = true ->
  forall s, List.In s wanted -> List.In s (job_skills job).
Proof.
  cbn [eval_cond]. destruct wanted as [| w ws]; [discriminate |].
  intros Hall s Hin. rewrite List.forallb_forall in Hall.
  apply holds_eq_skill, Hall, Hin.
Qed.

Lemma any_listed (job : doc) (wanted : list str) :
  eval_cond (CIn (List.map VStr wanted)) (job !! "skills") = true <->
  exists s, List.In s wanted /\ List.In s (job_skills job).
Proof.
  cbn [eval_cond]. rewrite List.existsb_exists. split.
  - intros (v & Hin & Hv). apply List.in_map_iff in Hin.
    destruct Hin as (s & <- & Hs). exists s. split; [exact Hs |].
    apply holds_eq_skill, Hv.
  - intros (s & Hs & Hj). exists (VStr s). split; [apply List.in_map, Hs |].
    apply holds_eq_skill, Hj.
Qed.
End QueryFacts.

(** C6: with the same list of skills, the filter of the alert matcher only
    lets through jobs that list every one of them, while the filter of the
    job search asks for one of them: given nothing but the skills it lets
    through exactly the active jobs that list at least one, and whatever
    else it is given it lets through no job that lists none. *)
Theorem alert_needs_all_search_takes_any `{Platform}
        (search_params : doc) last_triggered now (skills : str) (wanted : list str)
        (job : doc) :
  nonempty skills = true ->
  wanted = List.map strip (split 44 skills) ->
  search_params !! "skills" = Some (VList wanted) ->
  (matches (get_recent_jobs_for_alerts_query search_params last_triggered now) job = true ->
   forall s, List.In s wanted -> List.In s (job_skills job)) /\
  (matches (search_jobs_query [] [] [] [] 0 0 100 skills) job = true <->
   job_is_active job = true /\ exists s, List.In s wanted /\ List.In s (job_skills job)) /\
  (forall search location job_type work_mode salary_min experience_min experience_max,
     matches (search_jobs_query search location job_type work_mode
                salary_min experience_min experience_max skills) job = true ->
     exists s, List.In s wanted /\ List.In s (job_skills job)).
Proof.
  intros Hn Hw Hp.
  assert (Hmap : List.map (fun s => VStr (strip s)) (split 44 skills) = List.map VStr wanted)
    by (subst wanted; rewrite List.map_map; reflexivity).
  split; [| split].
  - intros Hm. apply all_listed.
    assert (Ht : truthy (VList wanted) = true).
    { subst wanted. cbn. pose proof (split_not_nil 44 skills).
      destruct (split 44 skills); [contradiction | reflexivity]. }
    pose proof (alert_query_skills search_params last_triggered now _ Hp Ht) as Hq.
    rewrite matches_spec in Hm. exact (Hm _ _ Hq).
  - rewrite (search_query_skills_only skills Hn), matches_spec.
    rewrite Hmap. split.
    + intros Hm. split.
      * apply (Hm "is_active"%string (Field (CEq (VBool true)))). reflexivity.
      * apply any_listed.
        apply (Hm "skills"%string (Field (CIn (List.map VStr wanted)))).
        apply lookup_insert_eq.
    + intros [Ha Hs] k cl Hk.
      apply lookup_insert_Some in Hk. destruct Hk as [[<- <-] | [Hne Hk]].
      * apply any_listed, Hs.
      * apply lookup_singleton_Some in Hk. destruct Hk as [<- <-]. exact Ha.
  - intros search location job_type work_mode salary_min experience_min experience_max Hm.
    apply any_listed. rewrite <- Hmap.
    rewrite matches_spec in Hm.
    exact (Hm _ _ (search_query_skills search location job_type work_mode
                     salary_min experience_min experience_max skills Hn)).
Qed.

Lemma alert_needs_all_search_takes_any_witness :
  let wanted := [lit "Go"; lit "SQL"] in
  let search_params : doc := {["skills"%string := VList wanted]} in
  let job := job_doc 11 "Go developer" 1 ["Go"]%string in
  (matches (H := example_platform) (get_recent_jobs_for_alerts_query (H := example_platform) search_params None example_now) job = true ->
   forall s, List.In s wanted -> List.In s (job_skills job)) /\
  (matches (H := example_platform) (search_jobs_query [] [] [] [] 0 0 100 (lit "Go,SQL")) job = true <->
   job_is_active job = true /\ exists s, List.In s wanted /\ List.In s (job_skills job)) /\
  (forall search location job_type work_mode salary_min experience_min experience_max,
     matches (H := example_platform)
       (search_jobs_query search location job_type work_mode
          salary_min experience_min experience_max (lit "Go,SQL")) job = true ->
     exists s, List.In s wanted /\ List.In s (job_skills job)).
Proof.
  intros wanted search_params job.
  apply (alert_needs_all_search_takes_any (H := example_platform) search_params None example_now
           (lit "Go,SQL") wanted job).
  - reflexivity.
  - by_evaluation.
  - by_evaluation.
Defined.

(** An alert for Go and SQL matches the job that lists both and not the one
    that lists Go alone; the search for "Go,SQL" returns both jobs. *)
Example go_and_sql :
  let alert := get_recent_jobs_for_alerts_query (H := example_platform)
                 {["skills"%string := VList [lit "Go"; lit "SQL"]]} None example_now in
  let search := search_jobs_query [] [] [] [] 0 0 100 (lit "Go,SQL") in
  List.map (matches (H := example_platform) alert) (docs (jobs example_db)) = [true; false] /\
  List.map (matches (H := example_platform) search) (docs (jobs example_db)) = [true; true].
Proof. vm_compute. split; reflexivity. Qed.

(* ===================================================================== *)
(** * More on the profile completion score *)
(* ===================================================================== *)

Section ScorerMore.

Lemma filter_all_length {A} (ok : A -> bool) (l : list A) :
  Z.of_nat (List.length (List.filter ok l)) = Z.of_nat (List.length l) <->
  List.forallb ok l = true.
Proof.
  induction l as [| x l IH]; cbn [List.filter List.forallb List.length]; [tauto |].
  pose proof (filter_length_le ok l) as Hle.
  destruct (ok x); cbn [List.length andb].
  - rewrite <- IH. lia.
  - split; [lia | discriminate].
Qed.

(** The score is defined, and two profiles compare as their exact
    quotients do. *)
Lemma score_le p p' :
  earned2 (profile_points p) * total_points (profile_points p')
  <= earned2 (profile_points p') * total_points (profile_points p) ->
  exists s s',
    calculate_profile_completion p = Some s /\
    calculate_profile_completion p' = Some s' /\ s <= s'.
Proof.
  intros Hc.
  destruct (score_defined p) as (c & Hp & Hs).
  destruct (score_defined p') as (c' & Hp' & Hs').
  exists c, c'. split; [exact Hs |]. split; [exact Hs' |].
  destruct (profile_points_bounds p) as [B1 B2].
  destruct (profile_points_bounds p') as [B1' B2'].
  unfold completion_percentage in Hp, Hp'.
  eapply py_percent_le; [| | | | exact Hc | exact Hp | exact Hp']; lia.
Qed.

Lemma score_full p :
  earned2 (profile_points p) = 2 * total_points (profile_points p) ->
  calculate_profile_completion p = Some 100.
Proof.
  intros He. destruct (profile_points_bounds p) as [_ Ht].
  destruct (score_defined p) as (c & Hp & Hs). rewrite Hs. rewrite <- Hp.
  unfold completion_percentage. rewrite He. apply py_percent_full. lia.
Qed.

Lemma score_not_full p s :
  total_points (profile_points p) < 2 ^ 44 ->
  earned2 (profile_points p) < 2 * total_points (profile_points p) ->
  calculate_profile_completion p = Some s -> s < 100.
Proof.
  intros Hsmall He Hs. destruct (profile_points_bounds p) as [B _].
  destruct (score_defined p) as (c & Hp & Hs').
  assert (c = s) by congruence. subst c.
  unfold completion_percentage in Hp.
  eapply py_percent_not_full; [| exact Hsmall | exact Hp]. lia.
Qed.

(** Nothing is missing from the counters exactly when nothing is missing
    from the profile. *)
Lemma all_points_iff p :
  earned2 (profile_points p) = 2 * total_points (profile_points p) <->
  List.forallb filled (required_fields p) = true /\
  List.forallb filled (optional_fields p) = true /\
  List.forallb experience_ok (Profile.experience p) = true /\
  List.forallb education_ok (Profile.education p) = true /\
  (Profile.skills p = [] \/ (20 <= List.length (Profile.skills p))%nat) /\
  Profile.projects p <> [] /\
  List.forallb project_ok (Profile.projects p) = true.
Proof.
  rewrite profile_points_eq. cbn [earned2 total_points].
  rewrite <- !filter_all_length.
  pose proof (filter_length_le filled (required_fields p)) as R.
  pose proof (filter_length_le filled (optional_fields p)) as O.
  pose proof (filter_length_le experience_ok (Profile.experience p)) as X.
  pose proof (filter_length_le education_ok (Profile.education p)) as D.
  pose proof (filter_length_le project_ok (Profile.projects p)) as P.
  unfold filled_count, ok_count.
  change (List.length (required_fields p)) with 2%nat in *.
  change (List.length (optional_fields p)) with 5%nat in *.
  destruct (Profile.skills p) as [| s ss] eqn:Hs;
    destruct (Profile.projects p) as [| q qs] eqn:Hq;
    cbn [skills_earned2 skills_total projects_total] in *.
  - cbn [List.filter List.length] in *. split; [lia |].
    intros (_ & _ & _ & _ & _ & Hn & _). congruence.
  - split.
    + intros He. repeat split; first [lia | left; reflexivity | discriminate].
    + intros (H1 & H2 & H3 & H4 & _ & _ & H5). lia.
  - cbn [List.filter List.length] in *. split; [lia |].
    intros (_ & _ & _ & _ & _ & Hn & _). congruence.
  - split.
    + intros He. repeat split; first [lia | right; cbn [List.length] in *; lia | discriminate].
    + intros (H1 & H2 & H3 & H4 & [Hn | H20] & _ & H5); [discriminate |]. lia.
Qed.

Lemma lstrip_spaces s : List.forallb is_space s = true -> lstrip s = [].
Proof.
  induction s as [| c s IH]; cbn [List.forallb lstrip]; [reflexivity |].
  intros Hs. apply andb_true_iff in Hs. destruct Hs as [-> Hs]. apply IH, Hs.
Qed.

Lemma lstrip_nil_inv s : lstrip s = [] -> List.forallb is_space s = true.
Proof.
  induction s as [| c s IH]; cbn [List.forallb lstrip]; [reflexivity |].
  destruct (is_space c); [exact IH | discriminate].
Qed.

Lemma lstrip_suffix s : exists pre, s = pre ++ lstrip s /\ List.forallb is_space pre = true.
Proof.
  induction s as [| c s IH]; cbn [lstrip].
  - exists []. split; reflexivity.
  - destruct (is_space c) eqn:Hc.
    + destruct IH as (pre & Hpre & Hall). exists (c :: pre). split.
      * cbn. f_equal. exact Hpre.
      * cbn. rewrite Hc. exact Hall.
    + exists []. split; reflexivity.
Qed.

(** A string strips to nothing exactly when it holds white space only. *)
Lemma strip_nil s : strip s = [] <-> List.forallb is_space s = true.
Proof.
  unfold strip. split.
  - intros Hs.
    assert (Hr : lstrip (List.rev (lstrip s)) = []).
    { apply (f_equal (@List.rev N)) in Hs. rewrite List.rev_involutive in Hs. exact Hs. }
    apply lstrip_nil_inv in Hr.
    destruct (lstrip_suffix s) as (pre & Hpre & Hall).
    rewrite Hpre. rewrite List.forallb_app, Hall. cbn [andb].
    rewrite List.forallb_forall in *. intros c Hc. apply Hr.
    apply List.in_rev. rewrite List.rev_involutive. exact Hc.
  - intros Hs. rewrite (lstrip_spaces s Hs). reflexivity.
Qed.

Lemma filled_spec s :
  filled (Some s) = true <-> List.existsb (fun c => negb (is_space c)) s = true.
Proof.
  unfold filled. split.
  - intros Hf. apply andb_true_iff in Hf. destruct Hf as [_ Hf].
    destruct (List.existsb _ s) eqn:He; [reflexivity |].
    assert (Hall : List.forallb is_space s = true).
    { apply List.forallb_forall. intros c Hc.
      destruct (is_space c) eqn:Hsp; [reflexivity |].
      assert (List.existsb (fun c => negb (is_space c)) s = true)
        by (apply List.existsb_exists; exists c; rewrite Hsp; auto).
      congruence. }
    apply strip_nil in Hall. rewrite Hall in Hf. discriminate Hf.
  - intros He. apply List.existsb_exists in He. destruct He as (c & Hc & Hsp).
    assert (Hn : strip s <> []).
    { intros Hs. apply strip_nil in Hs. rewrite List.forallb_forall in Hs.
      rewrite (Hs c Hc) in Hsp. discriminate Hsp. }
    destruct s; [destruct Hc |]. destruct (strip _); [congruence | reflexivity].
Qed.

(** The counters see an optional field only through [filled]. *)
Lemma set_optional_filled f v v' p :
  filled v = filled v' ->
  profile_points (set_optional f v p) = profile_points (set_optional f v' p).
Proof.
  intros Hf. rewrite !profile_points_eq.
  destruct f; unfold set_optional, required_fields, optional_fields, filled_count;
    cbn [Profile.fullName Profile.email Profile.phone Profile.address Profile.headline
         Profile.summary Profile.profilePicture Profile.experience Profile.education
         Profile.skills Profile.projects List.filter];
    rewrite Hf;
    repeat match goal with |- context [filled ?x] => destruct (filled x) end;
    reflexivity.
Qed.

Lemma calculate_by_points p p' :
  profile_points p = profile_points p' ->
  calculate_profile_completion p = calculate_profile_completion p'.
Proof.
  intros Hp. unfold calculate_profile_completion, completion_percentage.
  rewrite Hp. reflexivity.
Qed.

Lemma ok_count_app {A} (ok : A -> bool) (l : list A) (x : A) :
  ok_count ok (l ++ [x]) = ok_count ok l + (if ok x then 1 else 0).
Proof.
  unfold ok_count. rewrite List.filter_app, List.length_app. cbn [List.filter].
  destruct (ok x); cbn [List.length]; lia.
Qed.

Lemma with_experience_points l p :
  profile_points (with_experience l p) =
  {| earned2 := earned2 (profile_points p)
                + 4 * (ok_count experience_ok l - ok_count experience_ok (Profile.experience p));
     total_points := total_points (profile_points p)
                     + 2 * (Z.of_nat (List.length l)
                            - Z.of_nat (List.length (Profile.experience p))) |}.
Proof.
  rewrite !profile_points_eq. unfold with_experience, required_fields, optional_fields.
  cbn [Profile.fullName Profile.email Profile.phone Profile.address Profile.headline
       Profile.summary Profile.profilePicture Profile.experience Profile.education
       Profile.skills Profile.projects earned2 total_points].
  f_equal; lia.
Qed.

Lemma with_skills_points l p :
  Profile.skills p <> [] -> l <> [] ->
  profile_points (with_skills l p) =
  {| earned2 := earned2 (profile_points p)
                + (Z.min (Z.of_nat (List.length l)) 20
                   - Z.min (Z.of_nat (List.length (Profile.skills p))) 20);
     total_points := total_points (profile_points p) |}.
Proof.
  intros Hs Hl. rewrite !profile_points_eq.
  unfold with_skills, required_fields, optional_fields.
  cbn [Profile.fullName Profile.email Profile.phone Profile.address Profile.headline
       Profile.summary Profile.profilePicture Profile.experience Profile.education
       Profile.skills Profile.projects earned2 total_points].
  destruct (Profile.skills p); [congruence |]. destruct l; [congruence |].
  cbn [skills_earned2 skills_total]. f_equal; lia.
Qed.
End ScorerMore.

(** X1: the score is 100 exactly when nothing is missing: the seven scalar
    fields are filled, every listed position, degree and project is
    complete, at least one project is listed, and the skills are either
    left out or at least twenty.  In particular a profile without a
    project never reaches 100.  (The denominator is assumed below 2^44.) *)
Theorem full_score_iff_nothing_missing p :
  total_points (profile_points p) < 2 ^ 44 ->
  calculate_profile_completion p = Some 100 <->
  List.forallb filled (required_fields p) = true /\
  List.forallb filled (optional_fields p) = true /\
  List.forallb experience_ok (Profile.experience p) = true /\
  List.forallb education_ok (Profile.education p) = true /\
  (Profile.skills p = [] \/ (20 <= List.length (Profile.skills p))%nat) /\
  Profile.projects p <> [] /\
  List.forallb project_ok (Profile.projects p) = true.
Proof.
  intros Hsmall. rewrite <- all_points_iff. split.
  - intros Hs. destruct (profile_points_bounds p) as [[_ Hle] _].
    destruct (Z.eq_dec (earned2 (profile_points p)) (2 * total_points (profile_points p)))
      as [He | Hne]; [exact He |].
    pose proof (score_not_full p 100 Hsmall ltac:(lia) Hs). lia.
  - apply score_full.
Qed.

Lemma full_score_iff_nothing_missing_witness :
  total_points (profile_points complete_profile) < 2 ^ 44 /\
  (calculate_profile_completion complete_profile = Some 100 <->
   List.forallb filled (required_fields complete_profile) = true /\
   List.forallb filled (optional_fields complete_profile) = true /\
   List.forallb experience_ok (Profile.experience complete_profile) = true /\
   List.forallb education_ok (Profile.education complete_profile) = true /\
   (Profile.skills complete_profile = [] \/
    (20 <= List.length (Profile.skills complete_profile))%nat) /\
   Profile.projects complete_profile <> [] /\
   List.forallb project_ok (Profile.projects complete_profile) = true).
Proof.
  split; [vm_compute; reflexivity |].
  apply (full_score_iff_nothing_missing complete_profile).
  vm_compute. reflexivity.
Defined.

(** X2: a value made of white space only counts as missing: it is not
    filled, and the profile scores as if the field were absent.  (A field
    counts as filled exactly when it holds a character that is not white
    space, [filled_spec].) *)
Theorem blank_field_scores_like_missing f s p :
  List.forallb is_space s = true ->
  filled (Some s) = false /\
  calculate_profile_completion (set_optional f (Some s) p)
  = calculate_profile_completion (set_optional f None p).
Proof.
  intros Hs.
  assert (Hf : filled (Some s) = false).
  { cbn [filled]. apply strip_nil in Hs. rewrite Hs. apply andb_false_r. }
  split; [exact Hf |].
  apply calculate_by_points, set_optional_filled. exact Hf.
Qed.

Lemma blank_field_scores_like_missing_witness :
  filled (Some (lit "   ")) = false /\
  calculate_profile_completion (set_optional headline (Some (lit "   ")) profile_58)
  = calculate_profile_completion (set_optional headline None profile_58).
Proof.
  apply (blank_field_scores_like_missing headline (lit "   ") profile_58). reflexivity.
Defined.

(** X3: one more position on the list never lowers the score when it has
    both a title and a company, and never raises it when one of the two is
    missing. *)
Theorem listed_position_moves_score p e :
  exists s s',
    calculate_profile_completion p = Some s /\
    calculate_profile_completion (with_experience (Profile.experience p ++ [e]) p) = Some s' /\
    (if experience_ok e then s <= s' else s' <= s).
Proof.
  set (p' := with_experience (Profile.experience p ++ [e]) p).
  assert (Hp' : profile_points p' =
                {| earned2 := earned2 (profile_points p) + (if experience_ok e then 4 else 0);
                   total_points := total_points (profile_points p) + 2 |}).
  { unfold p'. rewrite with_experience_points, ok_count_app, List.length_app.
    cbn [List.length]. destruct (experience_ok e); f_equal; lia. }
  destruct (profile_points_bounds p) as [B1 B2].
  destruct (experience_ok e) eqn:Hok.
  - destruct (score_le p p') as (s & s' & Hs & Hs' & Hle).
    { rewrite Hp'. cbn [earned2 total_points]. nia. }
    exists s, s'. auto.
  - destruct (score_le p' p) as (s' & s & Hs' & Hs & Hle).
    { rewrite Hp'. cbn [earned2 total_points]. nia. }
    exists s, s'. auto.
Qed.

(** X4: once some skill is listed, one more skill never lowers the score,
    and from the twentieth on it changes nothing. *)
Theorem further_skill_moves_score p skill :
  Profile.skills p <> [] ->
  exists s s',
    calculate_profile_completion p = Some s /\
    calculate_profile_completion (with_skills (Profile.skills p ++ [skill]) p) = Some s' /\
    s <= s' /\
    ((20 <= List.length (Profile.skills p))%nat -> s' = s).
Proof.
  intros Hne. set (p' := with_skills (Profile.skills p ++ [skill]) p).
  assert (Hp' : profile_points p' =
                {| earned2 := earned2 (profile_points p)
                              + (Z.min (Z.of_nat (List.length (Profile.skills p)) + 1) 20
                                 - Z.min (Z.of_nat (List.length (Profile.skills p))) 20);
                   total_points := total_points (profile_points p) |}).
  { unfold p'. rewrite with_skills_points; [| exact Hne | destruct (Profile.skills p); discriminate].
    rewrite List.length_app. cbn [List.length]. f_equal. f_equal. lia. }
  destruct (profile_points_bounds p) as [B1 B2].
  destruct (score_le p p') as (s & s' & Hs & Hs' & Hle).
  { rewrite Hp'. cbn [earned2 total_points]. nia. }
  exists s, s'. split; [exact Hs |]. split; [exact Hs' |]. split; [exact Hle |].
  intros H20.
  assert (Heq : profile_points p' = profile_points p).
  { rewrite Hp'. destruct (profile_points p) as [e t]. cbn [earned2 total_points].
    f_equal. lia. }
  apply calculate_by_points in Heq. congruence.
Qed.

Lemma further_skill_moves_score_witness :
  Profile.skills profile_58 <> [] /\
  exists s s',
    calculate_profile_completion profile_58 = Some s /\
    calculate_profile_completion
      (with_skills (Profile.skills profile_58 ++ [lit "h"]) profile_58) = Some s' /\
    s <= s' /\
    ((20 <= List.length (Profile.skills profile_58))%nat -> s' = s).
Proof.
  split; [discriminate |].
  apply (further_skill_moves_score profile_58 (lit "h")). discriminate.
Defined.

(** A position without a company takes the score of [profile_58] from 57
    down to 53. *)
Example unfinished_position_lowers_score :
  calculate_profile_completion profile_58 = Some 57 /\
  calculate_profile_completion
    (with_experience (Profile.experience profile_58 ++ [unfinished_experience]) profile_58)
  = Some 53.
Proof. vm_compute. split; reflexivity. Qed.

(* ===================================================================== *)
(** * More on identifiers and collections *)
(* ===================================================================== *)

Section StoreMore.
Context `{Platform}.

Lemma hex_value_digit d : (d < 16)%N -> hex_value (hex_digit d) = Some d.
Proof.
  intros Hd. unfold hex_digit, hex_value, is_digit09, in_range.
  destruct (N.ltb_spec d 10) as [Hlt | Hge].
  - replace (48 <=? 48 + d)%N with true by (symmetry; apply N.leb_le; lia).
    replace (48 + d <=? 57)%N with true by (symmetry; apply N.leb_le; lia).
    cbn [andb]. f_equal. lia.
  - replace (87 + d <=? 57)%N with false by (symmetry; apply N.leb_gt; lia).
    rewrite andb_false_r.
    replace (97 <=? 87 + d)%N with true by (symmetry; apply N.leb_le; lia).
    replace (87 + d <=? 102)%N with true by (symmetry; apply N.leb_le; lia).
    cbn [andb]. f_equal. lia.
Qed.

Lemma hex_digits_length k n acc :
  List.length (hex_digits k n acc) = (k + List.length acc)%nat.
Proof.
  revert n acc. induction k as [| k IH]; intros n acc; cbn [hex_digits]; [reflexivity |].
  rewrite IH. cbn [List.length]. lia.
Qed.

Lemma hex_number_digits k n acc a :
  hex_number (hex_digits k n acc) a
  = hex_number acc (a * 16 ^ N.of_nat k + n mod 16 ^ N.of_nat k)%N.
Proof.
  revert n acc a. induction k as [| k IH]; intros n acc a.
  - cbn [hex_digits]. change (N.of_nat 0) with 0%N. rewrite N.pow_0_r, N.mod_1_r.
    f_equal. lia.
  - cbn [hex_digits]. rewrite IH. cbn [hex_number].
    rewrite hex_value_digit by (apply N.mod_lt; discriminate).
    f_equal. rewrite Nat2N.inj_succ, N.pow_succ_r'.
    rewrite (N.Div0.mod_mul_r n 16 (16 ^ N.of_nat k)). lia.
Qed.

(** Reading back the text of an identifier gives the identifier. *)
Lemma ObjectId_of_str n : (n < 2 ^ 96)%N -> ObjectId (ObjectId_str n) = Some n.
Proof.
  intros Hn. unfold ObjectId, ObjectId_str.
  rewrite hex_digits_length. cbn [List.length Nat.add Nat.eqb].
  rewrite hex_number_digits. cbn [hex_number]. f_equal.
  change (16 ^ N.of_nat 24)%N with (2 ^ 96)%N.
  rewrite N.mod_small by exact Hn. lia.
Qed.

Lemma ObjectId_is_valid_spec s : ObjectId_is_valid s = true <-> is_Some (ObjectId s).
Proof.
  unfold ObjectId_is_valid. destruct (ObjectId s); split; intros Hs;
    try reflexivity; try discriminate; eauto.
  destruct Hs as [? Hs]. discriminate Hs.
Qed.

Lemma remove_first_none (P : doc -> bool) (l : list doc) :
  List.find P l = None -> remove_first P l = (l, 0).
Proof.
  induction l as [| x l IH]; cbn [List.find remove_first]; [reflexivity |].
  destruct (P x); [discriminate |]. intros Hn. rewrite (IH Hn). reflexivity.
Qed.

(** Deleting takes out the first matching document and nothing else. *)
Lemma remove_first_some (P : doc -> bool) (l : list doc) (d : doc) :
  List.find P l = Some d ->
  exists l1 l2,
    l = l1 ++ d :: l2 /\ List.find P l1 = None /\ remove_first P l = (l1 ++ l2, 1).
Proof.
  induction l as [| x l IH]; cbn [List.find remove_first]; [discriminate |].
  destruct (P x) eqn:Hx.
  - intros [= ->]. exists [], l. repeat split.
  - intros Hf. destruct (IH Hf) as (l1 & l2 & -> & Hn & Hr).
    exists (x :: l1), l2. rewrite Hr. cbn [List.find]. rewrite Hx. repeat split. exact Hn.
Qed.

Lemma find_app_none {A} (P : A -> bool) (l1 l2 : list A) :
  List.find P l1 = None -> List.find P (l1 ++ l2) = List.find P l2.
Proof.
  induction l1 as [| x l1 IH]; cbn [List.find List.app]; [reflexivity |].
  destruct (P x); [discriminate | exact IH].
Qed.

(** A query that the deleted document does not satisfy finds what it found
    before. *)
Lemma remove_first_find_other (P Q : doc -> bool) (l : list doc) :
  (forall d, P d = true -> Q d = false) ->
  List.find Q (fst (remove_first P l)) = List.find Q l.
Proof.
  intros Hd. induction l as [| x l IH]; cbn [remove_first]; [reflexivity |].
  destruct (P x) eqn:Hx.
  - cbn [fst List.find]. rewrite (Hd x Hx). reflexivity.
  - destruct (remove_first P l) as [r n]. cbn [fst List.find] in *.
    rewrite IH. reflexivity.
Qed.

Lemma set_first_none (P : doc -> bool) (upd : doc) (l : list doc) :
  List.find P l = None -> set_first P upd l = (l, 0).
Proof.
  induction l as [| x l IH]; cbn [List.find set_first]; [reflexivity |].
  destruct (P x); [discriminate |]. intros Hn. rewrite (IH Hn). reflexivity.
Qed.

(** An update replaces the first matching document by its updated
    version and touches nothing else. *)
Lemma set_first_some (P : doc -> bool) (upd : doc) (l : list doc) (d : doc) :
  List.find P l = Some d ->
  exists l1 l2,
    l = l1 ++ d :: l2 /\ List.find P l1 = None /\
    set_first P upd l
    = (l1 ++ (upd ∪ d) :: l2, if bool_decide (upd ∪ d = d) then 0 else 1).
Proof.
  induction l as [| x l IH]; cbn [List.find set_first]; [discriminate |].
  destruct (P x) eqn:Hx.
  - intros [= ->]. exists [], l. repeat split.
  - intros Hf. destruct (IH Hf) as (l1 & l2 & -> & Hn & Hr).
    exists (x :: l1), l2. rewrite Hr. cbn [List.find]. rewrite Hx. repeat split. exact Hn.
Qed.

(** A query that does not look at the fields written finds the same
    document, updated if it is the one that was written. *)
Lemma set_first_find (P Q : doc -> bool) (upd : doc) (l : list doc) :
  (forall d, Q (upd ∪ d) = Q d) ->
  List.find Q (fst (set_first P upd l))
  = match List.find Q l with
    | Some d => Some (if bool_decide (List.find P l = Some d) then upd ∪ d else d)
    | None => None
    end.
Proof.
  intros HQ. induction l as [| x l IH]; cbn [set_first List.find fst]; [reflexivity |].
  destruct (P x) eqn:Hx.
  - cbn [fst List.find]. rewrite HQ. destruct (Q x) eqn:Hqx.
    + rewrite bool_decide_eq_true_2 by reflexivity. reflexivity.
    + destruct (List.find Q l) as [d |] eqn:Hf; [| reflexivity].
      f_equal. rewrite bool_decide_eq_false_2; [reflexivity |].
      intros [= ->]. apply List.find_some in Hf. destruct Hf as [_ Hf]. congruence.
  - destruct (set_first P upd l) as [r n]. cbn [fst List.find] in *.
    destruct (Q x) eqn:Hqx.
    + f_equal. rewrite bool_decide_eq_false_2; [reflexivity |].
      intros Hf. apply List.find_some in Hf. destruct Hf as [_ Hf]. congruence.
    + exact IH.
Qed.

Lemma matches_by_id_spec oid (d : doc) :
  matches (by_id oid) d = true <-> d !! "_id" = Some (VOid oid).
Proof. rewrite matches_by_id. apply holds_eq_oid. Qed.

(** No document has two identifiers. *)
Lemma by_id_disjoint oid oid' (d : doc) :
  oid <> oid' -> matches (by_id oid) d = true -> matches (by_id oid') d = false.
Proof.
  intros Hne Hm. apply matches_by_id_spec in Hm.
  apply not_true_is_false. intros Hm'. apply matches_by_id_spec in Hm'. congruence.
Qed.

(** Two checks that can be run on a given store. *)
Lemma fresh_by_check (l : list doc) (n : N) :
  List.forallb (fun d : doc => negb (bool_decide (d !! "_id" = Some (VOid n)))) l = true ->
  forall d, List.In d l -> d !! "_id" <> Some (VOid n).
Proof.
  intros Hall d Hin Hd. rewrite List.forallb_forall in Hall.
  specialize (Hall d Hin). rewrite bool_decide_eq_true_2 in Hall by exact Hd.
  discriminate Hall.
Qed.

Lemma no_unique_by_check (l : list index) :
  List.forallb (fun ix => negb (idx_unique ix)) l = true ->
  forall ix, List.In ix l -> idx_unique ix = false.
Proof.
  intros Hall ix Hin. rewrite List.forallb_forall in Hall.
  apply negb_true_iff, Hall, Hin.
Qed.

Lemma for_each_length {A B} (f : A -> result B) (l : list A) (out : list B) :
  for_each f l = Return out -> List.length out = List.length l.
Proof.
  revert out. induction l as [| x l IH]; intros out; cbn [for_each].
  - intros [= <-]. reflexivity.
  - destruct (f x); [| discriminate]. destruct (for_each f l); [| discriminate].
    intros [= <-]. cbn [List.length]. f_equal. apply IH. reflexivity.
Qed.
End StoreMore.

(* ===================================================================== *)
(** * More on passwords, tokens, registration and login *)
(* ===================================================================== *)

Section AuthMore.
Context `{Platform}.

Lemma utf8_width_pos c : 1 <= utf8_width c.
Proof. unfold utf8_width. repeat case_inner; lia. Qed.

Lemma utf8_len_cons c s : utf8_len (c :: s) = utf8_width c + utf8_len s.
Proof. reflexivity. Qed.

Lemma utf8_len_nonneg s : 0 <= utf8_len s.
Proof.
  induction s as [| c s IH]; [cbn; lia |].
  rewrite utf8_len_cons. pose proof (utf8_width_pos c). lia.
Qed.

Lemma utf8_len_app s r : utf8_len (s ++ r) = utf8_len s + utf8_len r.
Proof.
  induction s as [| c s IH]; [reflexivity |].
  cbn [List.app]. rewrite !utf8_len_cons, IH. lia.
Qed.

Lemma utf8_truncate_le n s : 0 <= n -> utf8_len (utf8_truncate n s) <= n.
Proof.
  revert n. induction s as [| c s IH]; intros n Hn; cbn [utf8_truncate]; [cbn; lia |].
  destruct (Z.leb_spec (utf8_width c) n) as [Hle | Hgt]; [| cbn; lia].
  rewrite utf8_len_cons. specialize (IH (n - utf8_width c) ltac:(lia)). lia.
Qed.

Lemma utf8_truncate_prefix n s : exists rest, s = utf8_truncate n s ++ rest.
Proof.
  revert n. induction s as [| c s IH]; intros n; cbn [utf8_truncate]; [exists []; reflexivity |].
  destruct (utf8_width c <=? n); [| exists (c :: s); reflexivity].
  destruct (IH (n - utf8_width c)) as [rest Hr]. exists rest. cbn. f_equal. exact Hr.
Qed.

(** What fills the room exactly is kept, and nothing after it. *)
Lemma utf8_truncate_app n s more : utf8_len s = n -> utf8_truncate n (s ++ more) = s.
Proof.
  revert n. induction s as [| c s IH]; intros n Hn.
  - cbn in Hn. subst n. destruct more as [| c more]; [reflexivity |].
    cbn [List.app utf8_truncate]. pose proof (utf8_width_pos c).
    destruct (Z.leb_spec (utf8_width c) 0); [lia | reflexivity].
  - rewrite utf8_len_cons in Hn. cbn [List.app utf8_truncate].
    pose proof (utf8_len_nonneg s).
    destruct (Z.leb_spec (utf8_width c) n); [| lia].
    f_equal. apply IH. lia.
Qed.

Lemma truncate72_le password : utf8_len (truncate72 password) <= 72.
Proof.
  unfold truncate72. destruct (Z.ltb_spec 72 (utf8_len password)); [| lia].
  apply utf8_truncate_le. lia.
Qed.

Lemma truncate72_idem password : truncate72 (truncate72 password) = truncate72 password.
Proof.
  pose proof (truncate72_le password) as Hle.
  unfold truncate72 at 1. destruct (Z.ltb_spec 72 (utf8_len (truncate72 password))); [lia |].
  reflexivity.
Qed.

Lemma truncate72_app password more :
  utf8_len password = 72 -> truncate72 (password ++ more) = password.
Proof.
  intros H72. unfold truncate72. rewrite utf8_len_app.
  destruct (Z.ltb_spec 72 (utf8_len password + utf8_len more)).
  - apply utf8_truncate_app, H72.
  - destruct more as [| c more]; [apply List.app_nil_r |].
    rewrite utf8_len_cons in *. pose proof (utf8_width_pos c).
    pose proof (utf8_len_nonneg more). lia.
Qed.

(** The identity that verification gives depends on the stored users only
    through the [_id] and the [email] of the one found by email. *)
Lemma get_current_user_by_lookup db db' now t :
  (forall e, option_map (fun d : doc => (d !! "_id", d !! "email"))
               (find_one (users db') (by_email e))
             = option_map (fun d : doc => (d !! "_id", d !! "email"))
                 (find_one (users db) (by_email e))) ->
  get_current_user db' now t = get_current_user db now t.
Proof.
  intros Hsame. unfold get_current_user. f_equal.
  destruct (jwt_decode now t) as [payload | e]; [| reflexivity]. cbn.
  destruct (payload !! "sub") as [email |]; [| reflexivity].
  destruct email; try reflexivity;
    destruct (default (VInt 0) (payload !! "exp")); try reflexivity;
    destruct (_ <? now); try reflexivity;
    match goal with
    | |- context [find_one (users db') (by_email ?e)] => specialize (Hsame e)
    end;
    destruct (find_one (users db') _) as [u' |], (find_one (users db) _) as [u |];
    cbn [option_map] in Hsame; try discriminate; try reflexivity;
    injection Hsame as Hid Hem; unfold getitem; rewrite Hid, Hem; reflexivity.
Qed.

(** What a successful [login] went through. *)
Lemma login_inv db now email password resp :
  login db now email password = Return resp ->
  exists user uemail uid uname,
    find_one (users db) (by_email (VStr email)) = Some user /\
    user !! "email" = Some uemail /\ user !! "_id" = Some uid /\
    user !! "full_name" = Some uname /\
    truthy (default (VBool true) (user !! "is_active")) = true /\
    resp = {| AuthResponse.success := true;
              AuthResponse.token_ :=
                create_access_token {["sub"%string := uemail]} now
                  (Some ACCESS_TOKEN_EXPIRE_MINUTES)
                  (default (VStr (lit "job_seeker")) (user !! "role"));
              AuthResponse.id := py_str uid;
              AuthResponse.email := uemail;
              AuthResponse.name := uname;
              AuthResponse.role := default (VStr (lit "job_seeker")) (user !! "role") |}.
Proof.
  unfold login.
  set (pw := if 72 <? Z.of_nat (List.length password) then List.firstn 72 password else password).
  destruct (72 <? utf8_len pw); [discriminate |].
  destruct (negb (nonempty email) || negb (nonempty pw)); [discriminate |].
  destruct (find_one (users db) (by_email (VStr email))) as [user |]; [| discriminate].
  unfold getitem.
  destruct (user !! "hashed_password") as [hashed |]; cbn; [| discriminate].
  destruct (negb _); cbn; [discriminate |].
  destruct (truthy (default (VBool true) (user !! "is_active"))) eqn:Hact; cbn; [| discriminate].
  destruct (user !! "email") as [uemail |] eqn:Hemail; cbn; [| discriminate].
  destruct (user !! "_id") as [uid |] eqn:Hid; cbn; [| discriminate].
  destruct (user !! "full_name") as [uname |] eqn:Hname; cbn; [| discriminate].
  intros [= <-]. exists user, uemail, uid, uname. repeat split; assumption.
Qed.

Lemma validate_email_nonempty email : validate_email email = true -> nonempty email = true.
Proof. destruct email; [vm_compute; discriminate | reflexivity]. Qed.

Lemma validate_password_length password :
  validate_password password = true -> 8 <= Z.of_nat (List.length password).
Proof.
  unfold validate_password. destruct (Z.ltb_spec (Z.of_nat (List.length password)) 8);
    [discriminate | lia].
Qed.

(** What a successful [register] went through. *)
Lemma register_inv db now salt user db' resp :
  register db now salt user = (db', Return resp) ->
  validate_email (UserCreate.email user) = true /\
  (72 <? utf8_len (UserCreate.password user)) = false /\
  validate_password (UserCreate.password user) = true /\
  validate_mobile (UserCreate.mobile user) = true /\
  exists stored users',
    insert_one (users db) (next_oid db)
      (<["created_at" := VDate now]>
         (<["is_active" := VBool true]>
            (<["is_verified" := VBool false]>
               (<["hashed_password" :=
                    VStr (get_password_hash (UserCreate.password user) salt)]>
                  (UserCreate_model_dump user)))))
    = Return (stored, users') /\
    db' = bump_oid (set_users users' db) /\
    AuthResponse.id resp = py_str (default VNull (stored !! "_id")).
Proof.
  unfold register.
  destruct (validate_email _); cbn [negb]; [| discriminate].
  destruct (72 <? utf8_len _); [discriminate |].
  destruct (validate_password _); cbn [negb]; [| discriminate].
  destruct (validate_mobile _); cbn [negb]; [| discriminate].
  rewrite role_is_listed. cbn [negb].
  destruct (insert_one _ _ _) as [[stored users'] | e].
  - intros [= <- <-]. repeat split. exists stored, users'. repeat split.
  - destruct (is_duplicate_error e); discriminate.
Qed.

(** The document [register] hands to the store, once stored. *)
Lemma insert_one_inv (c : collection) fresh (d stored : doc) c' :
  insert_one c fresh d = Return (stored, c') ->
  stored = match d !! "_id" with Some _ => d | None => <["_id" := VOid fresh]> d end /\
  c' = {| docs := docs c ++ [stored]; indexes := indexes c |}.
Proof.
  unfold insert_one. destruct (List.existsb _ _); [discriminate |].
  intros [= <- <-]. split; reflexivity.
Qed.
End AuthMore.


(** X5: bcrypt never sees more than the first 72 bytes of a password:
    what is verified and hashed is a prefix of the password of at most 72
    bytes, verifying or hashing that prefix gives the same, and a password
    of exactly 72 bytes verifies and hashes like any extension of it. *)
Theorem password_counts_up_to_72_bytes `{Platform} password hashed salt :
  utf8_len (truncate72 password) <= 72 /\
  (exists rest, password = truncate72 password ++ rest) /\
  verify_password (truncate72 password) hashed = verify_password password hashed /\
  get_password_hash (truncate72 password) salt = get_password_hash password salt /\
  (utf8_len password = 72 ->
   forall more,
     verify_password (password ++ more) hashed = verify_password password hashed /\
     get_password_hash (password ++ more) salt = get_password_hash password salt).
Proof.
  split; [apply truncate72_le |]. split.
  { unfold truncate72. destruct (72 <? utf8_len password).
    - apply utf8_truncate_prefix.
    - exists []. symmetry. apply List.app_nil_r. }
  unfold verify_password, get_password_hash. rewrite truncate72_idem.
  split; [reflexivity |]. split; [reflexivity |].
  intros H72 more. rewrite (truncate72_app password more H72).
  replace (truncate72 password) with password; [split; reflexivity |].
  unfold truncate72. rewrite H72. reflexivity.
Qed.

(** X6: when [register] fails the store is left as it was, and the answer
    is an HTTP error with status 400 or 503. *)
Theorem failed_registration_changes_nothing `{Platform} db now salt user db' e :
  register db now salt user = (db', Raise e) ->
  db' = db /\ exists detail, e = HTTPException 400 detail \/ e = HTTPException 503 detail.
Proof.
  unfold register.
  repeat match goal with
         | |- context [if ?c then _ else _] =>
             destruct c; [intros [= <- <-]; split; [reflexivity | eauto] |]
         end.
  destruct (insert_one _ _ _) as [[stored users'] | err]; [discriminate |].
  destruct (is_duplicate_error err); intros [= <- <-]; split; eauto.
Qed.

Lemma failed_registration_changes_nothing_witness :
  let user := example_registration (lit "98765") in
  register (H := example_platform) example_db example_now (lit "salt") user
  = (example_db, Raise (HTTPException 400 (lit "Mobile number must be 10 digits"))) /\
  example_db = example_db /\
  exists detail,
    HTTPException 400 (lit "Mobile number must be 10 digits") = HTTPException 400 detail \/
    HTTPException 400 (lit "Mobile number must be 10 digits") = HTTPException 503 detail.
Proof.
  intros user.
  assert (Hr : register (H := example_platform) example_db example_now (lit "salt") user
               = (example_db, Raise (HTTPException 400 (lit "Mobile number must be 10 digits"))))
    by by_evaluation.
  split; [exact Hr |].
  exact (failed_registration_changes_nothing (H := example_platform) example_db example_now
           (lit "salt") user example_db _ Hr).
Defined.

(** X7: a successful [register] adds exactly one document to the users
    and touches nothing else.  The document holds the password as it was
    typed beside its hash, is active and not verified whatever the request
    said, and carries the identifier that the answer reports. *)
Theorem registration_stores_account `{Platform} db now salt user db' resp :
  register db now salt user = (db', Return resp) ->
  exists stored,
    docs (users db') = docs (users db) ++ [stored] /\
    jobs db' = jobs db /\ applications db' = applications db /\
    stored !! "email" = Some (VStr (UserCreate.email user)) /\
    stored !! "password" = Some (VStr (UserCreate.password user)) /\
    stored !! "hashed_password"
    = Some (VStr (get_password_hash (UserCreate.password user) salt)) /\
    stored !! "is_active" = Some (VBool true) /\
    stored !! "is_verified" = Some (VBool false) /\
    stored !! "_id" = Some (VOid (next_oid db)) /\
    AuthResponse.id resp = ObjectId_str (next_oid db).
Proof.
  intros Hr. destruct (register_inv _ _ _ _ _ _ Hr)
    as (_ & _ & _ & _ & stored & users' & Hins & -> & Hid).
  apply insert_one_inv in Hins. destruct Hins as [Hs ->].
  assert (Hnoid : UserCreate_model_dump user !! "_id" = None)
    by (unfold UserCreate_model_dump; now simplify_map_eq).
  rewrite !lookup_insert_ne, Hnoid in Hs by discriminate.
  exists stored. rewrite Hid. subst stored.
  unfold UserCreate_model_dump. cbn [bump_oid set_users users jobs applications docs].
  repeat split; now simplify_map_eq.
Qed.

Lemma registration_stores_account_witness :
  let user := example_registration (lit "9876543210") in
  exists db' resp,
    register (H := example_platform) example_db example_now (lit "salt") user
    = (db', Return resp) /\
    exists stored,
      docs (users db') = docs (users example_db) ++ [stored] /\
      jobs db' = jobs example_db /\ applications db' = applications example_db /\
      stored !! "email" = Some (VStr (UserCreate.email user)) /\
      stored !! "password" = Some (VStr (UserCreate.password user)) /\
      stored !! "hashed_password"
      = Some (VStr (get_password_hash (H := example_platform)
                      (UserCreate.password user) (lit "salt"))) /\
      stored !! "is_active" = Some (VBool true) /\
      stored !! "is_verified" = Some (VBool false) /\
      stored !! "_id" = Some (VOid (next_oid example_db)) /\
      AuthResponse.id resp = ObjectId_str (next_oid example_db).
Proof.
  intros user.
  assert (Hret : is_return (snd (register (H := example_platform) example_db example_now
                                   (lit "salt") user)) = true) by by_evaluation.
  destruct (register (H := example_platform) example_db example_now (lit "salt") user)
    as [db' [resp | e]] eqn:Hr; [| discriminate Hret].
  exists db', resp. split; [reflexivity |].
  exact (registration_stores_account (H := example_platform) example_db example_now
           (lit "salt") user db' resp Hr).
Defined.

(** X8: whoever has just registered with an email that no stored user had
    can log in with the same email and password, and is told the same
    identifier and the role that was asked for.  (That bcrypt verifies the
    hash it made of this password is assumed.) *)
Theorem registered_user_can_log_in `{Platform} db now salt user db' resp now' :
  register db now salt user = (db', Return resp) ->
  find_one (users db) (by_email (VStr (UserCreate.email user))) = None ->
  bcrypt_checkpw (truncate72 (UserCreate.password user))
    (bcrypt_hashpw (truncate72 (UserCreate.password user)) salt) = true ->
  exists resp',
    login db' now' (UserCreate.email user) (UserCreate.password user) = Return resp' /\
    AuthResponse.id resp' = AuthResponse.id resp /\
    AuthResponse.email resp' = VStr (UserCreate.email user) /\
    AuthResponse.role resp' = VStr (UserRole_value (UserCreate.role user)).
Proof.
  intros Hr Hnone Hbcrypt.
  destruct (register_inv _ _ _ _ _ _ Hr)
    as (Hemail & Hlen & Hpw & _ & stored & users' & Hins & -> & Hid).
  apply insert_one_inv in Hins. destruct Hins as [Hs ->].
  assert (Hnoid : UserCreate_model_dump user !! "_id" = None)
    by (unfold UserCreate_model_dump; now simplify_map_eq).
  rewrite !lookup_insert_ne, Hnoid in Hs by discriminate.
  assert (Hfind : find_one (users (bump_oid (set_users
                     {| docs := docs (users db) ++ [stored]; indexes := indexes (users db) |} db)))
                    (by_email (VStr (UserCreate.email user))) = Some stored).
  { unfold find_one in *. cbn [bump_oid set_users users docs].
    apply find_snoc; [exact Hnone |].
    rewrite matches_by_email. apply holds_eq_str. left.
    subst stored. unfold UserCreate_model_dump. now simplify_map_eq. }
  pose proof (length_le_utf8_len (UserCreate.password user)) as Hchars.
  apply Z.ltb_ge in Hlen.
  pose proof (validate_password_length _ Hpw) as H8.
  eexists. split.
  - unfold login.
    replace (72 <? Z.of_nat (List.length (UserCreate.password user))) with false
      by (symmetry; apply Z.ltb_ge; lia).
    replace (72 <? utf8_len (UserCreate.password user)) with false
      by (symmetry; apply Z.ltb_ge; lia).
    rewrite (validate_email_nonempty _ Hemail).
    replace (nonempty (UserCreate.password user)) with true
      by (destruct (UserCreate.password user); [cbn in H8; lia | reflexivity]).
    cbn [negb orb]. rewrite Hfind. unfold getitem.
    assert (Hh : stored !! "hashed_password"
                 = Some (VStr (get_password_hash (UserCreate.password user) salt)))
      by (subst stored; now simplify_map_eq).
    assert (Ha : stored !! "is_active" = Some (VBool true))
      by (subst stored; now simplify_map_eq).
    assert (He : stored !! "email" = Some (VStr (UserCreate.email user)))
      by (subst stored; unfold UserCreate_model_dump; now simplify_map_eq).
    assert (Hi : stored !! "_id" = Some (VOid (next_oid db)))
      by (subst stored; now simplify_map_eq).
    assert (Hn : stored !! "full_name" = Some (VStr (UserCreate.full_name user)))
      by (subst stored; unfold UserCreate_model_dump; now simplify_map_eq).
    rewrite Hh. cbn. unfold verify_password, get_password_hash. rewrite Hbcrypt.
    cbn. rewrite Ha. cbn. rewrite He, Hi, Hn. cbn. reflexivity.
  - cbn [AuthResponse.id AuthResponse.email AuthResponse.role].
    rewrite Hid. subst stored. unfold UserCreate_model_dump.
    repeat split; now simplify_map_eq.
Qed.

Lemma registered_user_can_log_in_witness :
  let user := example_registration (lit "9876543210") in
  exists db' resp,
    register (H := example_platform) example_db example_now (lit "salt") user
    = (db', Return resp) /\
    exists resp',
      login (H := example_platform) db' (example_now + 5) (UserCreate.email user)
        (UserCreate.password user) = Return resp' /\
      AuthResponse.id resp' = AuthResponse.id resp /\
      AuthResponse.email resp' = VStr (UserCreate.email user) /\
      AuthResponse.role resp' = VStr (UserRole_value (UserCreate.role user)).
Proof.
  intros user.
  assert (Hret : is_return (snd (register (H := example_platform) example_db example_now
                                   (lit "salt") user)) = true) by by_evaluation.
  destruct (register (H := example_platform) example_db example_now (lit "salt") user)
    as [db' [resp | e]] eqn:Hr; [| discriminate Hret].
  exists db', resp. split; [reflexivity |].
  apply (registered_user_can_log_in (H := example_platform) example_db example_now
           (lit "salt") user db' resp (example_now + 5) Hr).
  - by_evaluation.
  - by_evaluation.
Defined.

(** X9: the token that [login] hands out identifies the same user to
    [get_current_user], with the identifier, email and role of the answer
    (job_seeker if the stored role is empty), up to the expiry, which is
    [ACCESS_TOKEN_EXPIRE_MINUTES] after the login, cut to whole seconds;
    after the expiry the token is refused. *)
Theorem login_token_identifies_user `{Platform} db now email password resp now' e :
  login db now email password = Return resp ->
  AuthResponse.email resp = VStr e ->
  let expiry := seconds (now + minutes_us ACCESS_TOKEN_EXPIRE_MINUTES) in
  (now' <= expiry * 1000000 ->
   get_current_user db now' (AuthResponse.token_ resp)
   = Return {| Identity.id := AuthResponse.id resp;
               Identity.email := AuthResponse.email resp;
               Identity.role := if truthy (AuthResponse.role resp)
                                then AuthResponse.role resp
                                else VStr (lit "job_seeker") |}) /\
  (expiry * 1000000 < now' ->
   exists msg, get_current_user db now' (AuthResponse.token_ resp) = Raise (Exception msg)).
Proof.
  intros Hl He expiry.
  destruct (login_inv _ _ _ _ _ Hl)
    as (user & uemail & uid & uname & Hfind & Hemail & Hid & Hname & Hact & ->).
  cbn [AuthResponse.email AuthResponse.token_ AuthResponse.id AuthResponse.role] in *.
  subst uemail.
  set (role := default (VStr (lit "job_seeker")) (user !! "role")).
  set (t := create_access_token {["sub"%string := VStr e]} now
              (Some ACCESS_TOKEN_EXPIRE_MINUTES) role).
  assert (Hsub : claims t !! "sub" = Some (VStr e)).
  { unfold t, create_access_token. cbn [claims].
    destruct (truthy role); now simplify_map_eq. }
  assert (Hexp : claims t !! "exp" = Some (VInt expiry)).
  { unfold t, create_access_token. cbn [claims].
    destruct (truthy role); now simplify_map_eq. }
  assert (Hrole : default (VStr (lit "job_seeker")) (claims t !! "role")
                  = if truthy role then role else VStr (lit "job_seeker")).
  { unfold t, create_access_token. cbn [claims].
    destruct (truthy role); now simplify_map_eq. }
  assert (Hsame : e = email).
  { destruct (find_one_some _ _ _ Hfind) as [_ Hm].
    rewrite matches_by_email in Hm. apply holds_eq_str in Hm.
    destruct Hm as [Hm | (l & Hm & _)]; congruence. }
  assert (Hsig : signature_ok t = true) by reflexivity.
  subst e. clearbody t. split.
  - intros Hlive.
    destruct (get_current_user_ok db now' t email expiry user uid
                Hsig Hsub Hexp Hlive Hfind Hid) as (uemail & Hue & Hok).
    rewrite Hok, Hrole. congruence.
  - intros Hdead.
    assert (Hdec : jwt_decode now' t
                   = if expiry <? seconds now' then Raise JWTError else Return (claims t)).
    { unfold jwt_decode. rewrite Hsig. cbn [negb]. rewrite Hexp, Hsub. reflexivity. }
    unfold get_current_user. rewrite Hdec.
    destruct (expiry <? seconds now'); [eexists; reflexivity |].
    cbn. rewrite Hsub, Hexp. cbn.
    replace (expiry * 1000000 <? now') with true by (symmetry; apply Z.ltb_lt; lia).
    eexists. reflexivity.
Qed.

Lemma login_token_identifies_user_witness :
  exists resp,
    login (H := example_platform) example_db example_now (lit "erin@acme.example")
      (lit "Passw0rd!") = Return resp /\
    AuthResponse.email resp = VStr (lit "erin@acme.example") /\
    let expiry := seconds (example_now
                           + minutes_us (ACCESS_TOKEN_EXPIRE_MINUTES (Platform := example_platform))) in
    (example_now + 60000000 <= expiry * 1000000 ->
     get_current_user (H := example_platform) example_db (example_now + 60000000)
       (AuthResponse.token_ resp)
     = Return {| Identity.id := AuthResponse.id resp;
                 Identity.email := AuthResponse.email resp;
                 Identity.role := if truthy (AuthResponse.role resp)
                                  then AuthResponse.role resp
                                  else VStr (lit "job_seeker") |}) /\
    (expiry * 1000000 < example_now + 60000000 ->
     exists msg,
       get_current_user (H := example_platform) example_db (example_now + 60000000)
         (AuthResponse.token_ resp) = Raise (Exception msg)).
Proof.
  assert (Hem : match login (H := example_platform) example_db example_now
                        (lit "erin@acme.example") (lit "Passw0rd!") with
                | Return resp => AuthResponse.email resp
                | Raise _ => VNull
                end = VStr (lit "erin@acme.example")) by by_evaluation.
  destruct (login (H := example_platform) example_db example_now (lit "erin@acme.example")
              (lit "Passw0rd!")) as [resp | e] eqn:Hl; [| discriminate Hem].
  exists resp. split; [reflexivity |].
  assert (He : AuthResponse.email resp = VStr (lit "erin@acme.example")) by exact Hem.
  split; [exact He |].
  exact (login_token_identifies_user (H := example_platform) example_db example_now
           (lit "erin@acme.example") (lit "Passw0rd!") resp (example_now + 60000000)
           (lit "erin@acme.example") Hl He).
Defined.

(** X10: [login] answers an unknown email and a wrong password alike, with
    401 "Invalid credentials": the answer does not tell whether the
    account exists. *)
Theorem login_hides_whether_account_exists `{Platform} db now email password :
  nonempty email = true -> nonempty password = true -> utf8_len password <= 72 ->
  find_one (users db) (by_email (VStr email)) = None \/
  (exists user hashed,
     find_one (users db) (by_email (VStr email)) = Some user /\
     user !! "hashed_password" = Some (VStr hashed) /\
     verify_password password hashed = false) ->
  login db now email password = Raise (HTTPException 401 (lit "Invalid credentials")).
Proof.
  intros Hemail Hpw Hlen Hcase.
  pose proof (length_le_utf8_len password) as Hchars.
  unfold login.
  replace (72 <? Z.of_nat (List.length password)) with false
    by (symmetry; apply Z.ltb_ge; lia).
  replace (72 <? utf8_len password) with false by (symmetry; apply Z.ltb_ge; lia).
  rewrite Hemail, Hpw. cbn [negb orb].
  destruct Hcase as [Hnone | (user & hashed & Hfind & Hh & Hv)].
  - rewrite Hnone. reflexivity.
  - rewrite Hfind. unfold getitem. rewrite Hh. cbn. rewrite Hv. reflexivity.
Qed.

Lemma login_hides_whether_account_exists_witness :
  login (H := example_platform) example_db example_now (lit "nobody@mail.example")
    (lit "Passw0rd!") = Raise (HTTPException 401 (lit "Invalid credentials")) /\
  login (H := example_platform) example_db example_now (lit "erin@acme.example")
    (lit "Wrong0ne!") = Raise (HTTPException 401 (lit "Invalid credentials")).
Proof.
  split.
  - apply (login_hides_whether_account_exists (H := example_platform)).
    + reflexivity.
    + reflexivity.
    + vm_compute. discriminate.
    + left. by_evaluation.
  - apply (login_hides_whether_account_exists (H := example_platform)).
    + reflexivity.
    + reflexivity.
    + vm_compute. discriminate.
    + right. exists (user_doc 1 "erin@acme.example" "Erin" "employer" true),
                    (lit "salt" ++ lit "Passw0rd!").
      split; [by_evaluation |]. split; [by_evaluation | by_evaluation].
Defined.

(** X29: [validate_email] accepts exactly the strings of the form
    local@domain.tld, optionally followed by one line feed, where local is
    a non-empty run of letters, digits and [._%+-], domain a non-empty run
    of letters, digits, dots and hyphens, and tld at least two letters. *)
Theorem accepted_emails email :
  validate_email email = true <->
  exists local domain tld tail,
    email = local ++ [64%N] ++ domain ++ [46%N] ++ tld ++ tail /\
    (tail = [] \/ tail = [10%N]) /\
    local <> [] /\ List.forallb email_local local = true /\
    domain <> [] /\ List.forallb email_domain domain = true /\
    (2 <= List.length tld)%nat /\ List.forallb is_alpha tld = true.
Proof.
  rewrite validate_email_spec. split.
  - intros [Hl | (s & -> & Hl)]; apply email_pattern_spec in Hl;
      destruct Hl as (local & domain & tld & -> & Hrest).
    + exists local, domain, tld, []. rewrite List.app_nil_r. tauto.
    + exists local, domain, tld, [10%N]. rewrite <- !List.app_assoc. tauto.
  - intros (local & domain & tld & tail & -> & [-> | ->] & Hrest).
    + left. rewrite List.app_nil_r. apply email_pattern_spec.
      exists local, domain, tld. tauto.
    + right. exists (local ++ [64%N] ++ domain ++ [46%N] ++ tld).
      split; [rewrite <- !List.app_assoc; reflexivity |].
      apply email_pattern_spec. exists local, domain, tld. tauto.
Qed.

(** X30: a registration that is accepted has passed every check: the email
    has the accepted form, the password has at least 8 characters and at
    most 72 bytes with a capital letter, a digit and a special character
    among them, and the mobile number is ten digits, possibly followed by a
    line feed.  In particular the empty mobile number that the request
    model has by default is never accepted. *)
Theorem accepted_registration_passed_the_checks `{Platform} db now salt user db' resp :
  register db now salt user = (db', Return resp) ->
  validate_email (UserCreate.email user) = true /\
  8 <= Z.of_nat (List.length (UserCreate.password user)) /\
  utf8_len (UserCreate.password user) <= 72 /\
  List.existsb is_upper (UserCreate.password user) = true /\
  List.existsb is_digit09 (UserCreate.password user) = true /\
  List.existsb is_special (UserCreate.password user) = true /\
  (exists digits,
     List.length digits = 10%nat /\ List.forallb re_digit digits = true /\
     (UserCreate.mobile user = digits \/ UserCreate.mobile user = digits ++ [10%N])) /\
  UserCreate.mobile user <> [].
Proof.
  intros Hr. destruct (register_inv _ _ _ _ _ _ Hr) as (He & Hl & Hp & Hm & _).
  split; [exact He |]. split; [apply validate_password_length, Hp |].
  split; [apply Z.ltb_ge, Hl |].
  unfold validate_password, re_search_class in Hp.
  destruct (_ <? 8); [discriminate |].
  destruct (List.existsb is_upper _); [| discriminate].
  destruct (List.existsb is_digit09 _); [| discriminate].
  destruct (List.existsb is_special _); [| discriminate].
  repeat split.
  - apply validate_mobile_spec, Hm.
  - apply validate_mobile_spec in Hm. destruct Hm as (digits & Hlen & _ & [-> | ->]).
    + destruct digits; [discriminate Hlen | discriminate].
    + destruct digits; discriminate.
Qed.

Lemma accepted_registration_passed_the_checks_witness :
  let user := example_registration (lit "9876543210") in
  validate_email (UserCreate.email user) = true /\
  8 <= Z.of_nat (List.length (UserCreate.password user)) /\
  utf8_len (UserCreate.password user) <= 72 /\
  List.existsb is_upper (UserCreate.password user) = true /\
  List.existsb is_digit09 (UserCreate.password user) = true /\
  List.existsb is_special (UserCreate.password user) = true /\
  (exists digits,
     List.length digits = 10%nat /\
     List.forallb (re_digit (H := example_platform)) digits = true /\
     (UserCreate.mobile user = digits \/ UserCreate.mobile user = digits ++ [10%N])) /\
  UserCreate.mobile user <> [].
Proof.
  intros user.
  assert (Hret : is_return (snd (register (H := example_platform) example_db example_now
                                   (lit "salt") user)) = true) by by_evaluation.
  destruct (register (H := example_platform) example_db example_now (lit "salt") user)
    as [db' [resp | e]] eqn:Hr; [| discriminate Hret].
  exact (accepted_registration_passed_the_checks (H := example_platform) example_db
           example_now (lit "salt") user db' resp Hr).
Defined.

(* ===================================================================== *)
(** * The header, the stored role and the administrator *)
(* ===================================================================== *)

Section AdminFacts.
Context `{Platform}.

Lemma starts_with_app p s : starts_with p (p ++ s) = true.
Proof.
  induction p as [| c p IH]; cbn [starts_with List.app]; [destruct s; reflexivity |].
  rewrite N.eqb_refl. exact IH.
Qed.

Lemma matches_by_email_union (upd d : doc) e :
  upd !! "email" = None ->
  matches (by_email e) (upd ∪ d) = matches (by_email e) d.
Proof. intros Hu. rewrite !matches_by_email, lookup_union_r by exact Hu. reflexivity. Qed.

Lemma matches_by_id_union (upd d : doc) oid :
  upd !! "_id" = None ->
  matches (by_id oid) (upd ∪ d) = matches (by_id oid) d.
Proof. intros Hu. rewrite !matches_by_id, lookup_union_r by exact Hu. reflexivity. Qed.

(** The role on record, for a stored user. *)
Lemma get_current_user_role_found db user_id oid user :
  ObjectId user_id = Some oid ->
  find_one (users db) (by_id oid) = Some user ->
  get_current_user_role db user_id
  = Return (default (VStr (lit "job_seeker")) (user !! "role")).
Proof. intros Ho Hf. unfold get_current_user_role. rewrite Ho, Hf. reflexivity. Qed.

Lemma with_user_field_find_by_id k v db oid :
  k <> "_id"%string ->
  find_one (users (with_user_field k v db)) (by_id oid)
  = option_map (fun d => <[k := v]> d) (find_one (users db) (by_id oid)).
Proof.
  intros Hk. unfold find_one, with_user_field, set_users. cbn [users docs].
  apply find_map_invariant. intros d.
  rewrite !matches_by_id, lookup_insert_ne by congruence. reflexivity.
Qed.

Lemma set_users_same db : set_users (users db) db = db.
Proof. destruct db. reflexivity. Qed.

Lemma set_jobs_same db : set_jobs (jobs db) db = db.
Proof. destruct db. reflexivity. Qed.

Lemma set_applications_same db : set_applications (applications db) db = db.
Proof. destruct db. reflexivity. Qed.

Lemma collection_eta (c : collection) : {| docs := docs c; indexes := indexes c |} = c.
Proof. destruct c. reflexivity. Qed.
End AdminFacts.

(** X11: [GET /api/auth/me] with a well-formed header, the secret set and
    a token that decodes: when no stored user has the email of the token,
    the 401 "User not found" that the handler raises is caught by its own
    [except Exception], and the answer is 503; when the user is stored, the
    role reported is the stored one (job_seeker when there is none), not
    the one of the token. *)
Theorem me_reports_store_and_503 `{Platform} `{Library} db now s secret payload e :
  SECRET_KEY_env = Some secret -> nonempty secret = true ->
  jwt_decode now (jwt_of_str s) = Return payload ->
  payload !! "sub" = Some (VStr e) ->
  (find_one (users db) (by_email (VStr e)) = None ->
   AuthRouter.get_current_user db now (Some (lit "Bearer " ++ s))
   = Raise (HTTPException 503
              (lit "Service temporarily unavailable. Please try again later."))) /\
  (forall user uid uemail uname,
     find_one (users db) (by_email (VStr e)) = Some user ->
     user !! "_id" = Some uid -> user !! "email" = Some uemail ->
     user !! "full_name" = Some uname ->
     AuthRouter.get_current_user db now (Some (lit "Bearer " ++ s))
     = Return {[ "id"%string := VStr (py_str uid);
                 "email"%string := uemail;
                 "name"%string := uname;
                 "role"%string := default (VStr (lit "job_seeker")) (user !! "role") ]}).
Proof.
  intros Hkey Hk Hdec Hsub.
  assert (Hhead : forall r,
             AuthRouter.get_current_user db now (Some (lit "Bearer " ++ s)) = r <->
             (user ←
                try_except
                  (match find_one (users db) (by_email (VStr e)) with
                   | None => Raise (HTTPException 401 (lit "User not found"))
                   | Some user => Return user
                   end)
                  (fun _ =>
                     Raise (HTTPException 503
                              (lit "Service temporarily unavailable. Please try again later.")));
              uid ← getitem user "_id";
              uemail ← getitem user "email";
              uname ← getitem user "full_name";
              Return ({[ "id"%string := VStr (py_str uid);
                         "email"%string := uemail;
                         "name"%string := uname;
                         "role"%string :=
                           default (VStr (lit "job_seeker")) (user !! "role") ]} : doc)) = r).
  { intros r. unfold AuthRouter.get_current_user.
    rewrite starts_with_app.
    replace (nonempty (lit "Bearer " ++ s)) with true by reflexivity.
    cbn [negb orb]. rewrite Hkey, Hk. cbn [negb].
    replace (List.skipn 7 (lit "Bearer " ++ s)) with s by reflexivity.
    rewrite Hdec. cbn. rewrite Hsub. cbn. tauto. }
  split.
  - intros Hnone. apply Hhead. rewrite Hnone. reflexivity.
  - intros user uid uemail uname Hfind Hid Hemail Hname. apply Hhead.
    rewrite Hfind. cbn. unfold getitem. rewrite Hid, Hemail, Hname. reflexivity.
Qed.

Lemma me_reports_store_and_503_witness :
  AuthRouter.get_current_user (H := example_platform) (H0 := example_library)
    example_db example_now (Some (lit "Bearer " ++ lit "ghost"))
  = Raise (HTTPException 503
             (lit "Service temporarily unavailable. Please try again later.")).
Proof.
  apply (me_reports_store_and_503 (H := example_platform) (H0 := example_library)
           example_db example_now (lit "ghost") (lit "secret")
           (claims (example_token "ghost@mail.example" "job_seeker"))
           (lit "ghost@mail.example")).
  - reflexivity.
  - reflexivity.
  - by_evaluation.
  - by_evaluation.
  - by_evaluation.
Defined.

(** X12: the rights of an administrator follow the stored role at once,
    whatever the token says: after the stored role has been set to [r],
    [get_current_user] still returns the identity of the token, and
    [require_admin] lets the caller through exactly when [r] is admin. *)
Theorem admin_rights_follow_stored_role `{Platform} db now t u n user r :
  get_current_user db now t = Return u ->
  ObjectId (Identity.id u) = Some n ->
  find_one (users db) (by_id n) = Some user ->
  let db' := with_user_field "role" r db in
  get_current_user db' now t = Return u /\
  require_admin db' now t
  = (if value_eqb r (VStr (lit "admin")) then Return u
     else Raise (HTTPException 403 (lit "Only admin users can access this resource"))).
Proof.
  intros Hg Ho Hf db'.
  assert (Hg' : get_current_user db' now t = Return u).
  { unfold db'. rewrite get_current_user_other_field by discriminate. exact Hg. }
  split; [exact Hg' |].
  unfold require_admin. rewrite Hg'. cbn.
  rewrite (get_current_user_role_found db' (Identity.id u) n (<["role" := r]> user) Ho).
  - cbn. rewrite lookup_insert_eq. cbn. destruct (value_eqb r _); reflexivity.
  - unfold db'. rewrite with_user_field_find_by_id by discriminate.
    rewrite Hf. reflexivity.
Qed.

Lemma admin_rights_follow_stored_role_witness :
  let t := example_token "erin@acme.example" "employer" in
  let u := {| Identity.id := ObjectId_str 1;
              Identity.email := VStr (lit "erin@acme.example");
              Identity.role := VStr (lit "employer") |} in
  let db' := with_user_field "role" (VStr (lit "admin")) example_db in
  get_current_user (H := example_platform) db' example_now t = Return u /\
  require_admin (H := example_platform) db' example_now t = Return u.
Proof.
  intros t u db'.
  apply (admin_rights_follow_stored_role (H := example_platform) example_db example_now t u 1
           (user_doc 1 "erin@acme.example" "Erin" "employer" true) (VStr (lit "admin"))).
  - by_evaluation.
  - by_evaluation.
  - by_evaluation.
Defined.

(** X13: when an administrator deactivates an account that was not
    inactive already, the call answers with the new flag and changes
    neither jobs nor applications; from then on [login] refuses that
    account whatever the password, while every token verifies exactly as
    it did before, those of the deactivated account included. *)
Theorem deactivation_stops_login_not_tokens `{Platform} `{Library}
        db now t admin user_id n user :
  require_admin db now t = Return admin ->
  ObjectId user_id = Some n ->
  find_one (users db) (by_id n) = Some user ->
  user !! "is_active" <> Some (VBool false) ->
  exists db',
    update_user_status db now t user_id false
    = (db', Return {[ "message"%string := VStr (lit "User status updated successfully");
                      "is_active"%string := VBool false ]}) /\
    jobs db' = jobs db /\ applications db' = applications db /\
    (forall now' t', get_current_user db' now' t' = get_current_user db now' t') /\
    (forall now' email password,
       find_one (users db) (by_email (VStr email)) = Some user ->
       exists code detail,
         login db' now' email password = Raise (HTTPException code detail)).
Proof.
  intros Hadmin Ho Hf Hact.
  set (upd := ({["is_active"%string := VBool false]} : doc)).
  destruct (set_first_some (matches (by_id n)) upd (docs (users db)) user Hf)
    as (l1 & l2 & Hl & Hn1 & Hset).
  assert (Hne : upd ∪ user <> user).
  { intros Heq. apply Hact. rewrite <- Heq. unfold upd.
    apply lookup_union_Some_l. apply lookup_singleton_eq. }
  rewrite bool_decide_eq_false_2 in Hset by exact Hne.
  eexists. split.
  { unfold update_user_status. rewrite Hadmin. unfold update_user_status_body.
    rewrite Ho, Hf. unfold update_one. fold upd. rewrite Hset. reflexivity. }
  cbn [set_users users jobs applications docs]. split; [reflexivity |]. split; [reflexivity |].
  assert (Hfind : forall e,
             find_one {| docs := l1 ++ (upd ∪ user) :: l2; indexes := indexes (users db) |}
               (by_email e)
             = match find_one (users db) (by_email e) with
               | Some d => Some (if bool_decide (find_one (users db) (by_id n) = Some d)
                                 then upd ∪ d else d)
               | None => None
               end).
  { intros e. unfold find_one. cbn [docs].
    pose proof (set_first_find (matches (by_id n)) (matches (by_email e)) upd
                  (docs (users db))) as Hs.
    rewrite Hset in Hs. cbn [fst] in Hs. apply Hs.
    intros d. apply matches_by_email_union. reflexivity. }
  split.
  - intros now' t'. apply get_current_user_by_lookup. intros e.
    cbn [set_users users]. rewrite Hfind.
    destruct (find_one (users db) (by_email e)) as [d |]; [| reflexivity].
    cbn [option_map]. destruct (bool_decide _); [| reflexivity].
    rewrite !lookup_union_r by reflexivity. reflexivity.
  - intros now' email password Hemail.
    eapply login_deactivated.
    + cbn [set_users users]. rewrite Hfind, Hemail.
      rewrite bool_decide_eq_true_2 by exact Hf. reflexivity.
    + apply lookup_union_Some_l. apply lookup_singleton_eq.
Qed.

Lemma deactivation_stops_login_not_tokens_witness :
  let db := with_user_field "role" (VStr (lit "admin")) example_db in
  let t := example_token "erin@acme.example" "employer" in
  exists db',
    update_user_status (H := example_platform) (H0 := example_library)
      db example_now t (ObjectId_str 3) false
    = (db', Return {[ "message"%string := VStr (lit "User status updated successfully");
                      "is_active"%string := VBool false ]}) /\
    jobs db' = jobs db /\ applications db' = applications db /\
    (forall now' t',
       get_current_user (H := example_platform) db' now' t'
       = get_current_user (H := example_platform) db now' t') /\
    (forall now' email password,
       find_one (H := example_platform) (users db) (by_email (VStr email))
       = Some (<["role" := VStr (lit "admin")]>
                 (user_doc 3 "sam@mail.example" "Sam" "job_seeker" true)) ->
       exists code detail,
         login (H := example_platform) db' now' email password
         = Raise (HTTPException code detail)).
Proof.
  intros db t.
  apply (deactivation_stops_login_not_tokens (H := example_platform) (H0 := example_library)
           db example_now t
           {| Identity.id := ObjectId_str 1;
              Identity.email := VStr (lit "erin@acme.example");
              Identity.role := VStr (lit "employer") |}
           (ObjectId_str 3) 3
           (<["role" := VStr (lit "admin")]>
              (user_doc 3 "sam@mail.example" "Sam" "job_seeker" true))).
  - by_evaluation.
  - by_evaluation.
  - by_evaluation.
  - vm_compute. discriminate.
Defined.

(* ===================================================================== *)
(** * Creating, reading and deleting jobs *)
(* ===================================================================== *)

Section MoreJobFacts.
Context `{Platform}.

Lemma job_dict_lookup now u job k :
  job_dict now u job !! k =
  if bool_decide (k = "view_count"%string) then Some (VInt 0)
  else if bool_decide (k = "application_count"%string) then Some (VInt 0)
  else if bool_decide (k = "is_active"%string) then Some (VBool true)
  else if bool_decide (k = "updated_at"%string) then Some (VDate now)
  else if bool_decide (k = "posted_date"%string) then Some (VDate now)
  else if bool_decide (k = "created_by"%string) then Some (VStr (Identity.id u))
  else JobUpdate_model_dump job !! k.
Proof.
  unfold job_dict.
  repeat (case_bool_decide; [subst k; now simplify_map_eq |];
          rewrite lookup_insert_ne by congruence).
  reflexivity.
Qed.

Lemma model_dump_lookup_none job k :
  k ∉ JobBase_fields -> JobUpdate_model_dump job !! k = None.
Proof.
  intros Hk. destruct (JobUpdate_model_dump job !! k) eqn:Hl; [| reflexivity].
  exfalso. apply Hk. apply (proj2 (model_dump_keys job k)). eauto.
Qed.

Ltac not_a_base_field :=
  unfold JobBase_fields; rewrite !not_elem_of_cons;
  repeat split; try discriminate; apply not_elem_of_nil.

Lemma job_dict_no_id now u job : job_dict now u job !! "_id" = None.
Proof. rewrite job_dict_lookup. cbn. apply model_dump_lookup_none. not_a_base_field. Qed.

Lemma job_dict_no_posted_at now u job : job_dict now u job !! "posted_at" = None.
Proof. rewrite job_dict_lookup. cbn. apply model_dump_lookup_none. not_a_base_field. Qed.

(** The filter of the alerts always asks for [posted_at]. *)
Lemma alert_query_posted_at search_params last_triggered now :
  exists v,
    get_recent_jobs_for_alerts_query search_params last_triggered now !! "posted_at"
    = Some (Field (CRange (Some v) None)) /\ v <> VNull.
Proof.
  unfold get_recent_jobs_for_alerts_query.
  destruct last_triggered as [lt |]; [destruct (truthy lt) eqn:Ht |].
  - exists lt. rewrite lookup_insert_eq. split; [reflexivity |].
    intros ->. discriminate Ht.
  - eexists. rewrite lookup_insert_eq. split; [reflexivity | discriminate].
  - eexists. rewrite lookup_insert_eq. split; [reflexivity | discriminate].
Qed.

Lemma range_needs_field v : eval_cond (CRange (Some v) None) None = false.
Proof. destruct v; reflexivity. Qed.

(** What [delete_job] does once the caller is known. *)
Lemma delete_job_body_spec db u job_id :
  match delete_job_body db u job_id with
  | (db', Return msg) =>
      exists oid job l1 l2,
        ObjectId job_id = Some oid /\
        find_one (jobs db) (by_id oid) = Some job /\
        docs (jobs db) = l1 ++ job :: l2 /\
        List.find (matches (by_id oid)) l1 = None /\
        (job !! "created_by" = Some (VStr (Identity.id u)) \/
         Identity.role u = VStr (lit "admin")) /\
        db' = set_jobs {| docs := l1 ++ l2; indexes := indexes (jobs db) |} db /\
        msg = {["message"%string := VStr (lit "Job deleted successfully")]}
  | (db', Raise _) => db' = db
  end.
Proof.
  unfold delete_job_body.
  destruct (ObjectId job_id) as [oid |] eqn:Ho; [| reflexivity].
  destruct (find_one (jobs db) (by_id oid)) as [job |] eqn:Hf; [| reflexivity].
  destruct (job !! "created_by") as [created_by |] eqn:Hc; [| reflexivity].
  destruct (negb (value_eqb created_by _) && negb (value_eqb _ _)) eqn:Hauth; [reflexivity |].
  destruct (remove_first_some _ _ _ Hf) as (l1 & l2 & Hl & Hn & Hr).
  unfold delete_one. rewrite Hr. cbn.
  exists oid, job, l1, l2. repeat split; try assumption.
  apply andb_false_iff in Hauth. destruct Hauth as [Ha | Ha]; apply negb_false_iff in Ha;
    apply value_eqb_eq in Ha; [left | right]; congruence.
Qed.
End MoreJobFacts.

(** X14: [create_job] changes the store only for a caller whose token
    says employer; for anybody else, administrators included, the store
    stays as it was and the answer is 401 (the token was refused) or
    403. *)
Theorem only_employers_create_jobs `{Platform} db now t job :
  (forall u, get_current_user db now t = Return u ->
             Identity.role u <> VStr (lit "employer")) ->
  exists code detail,
    create_job db now t job = (db, Raise (HTTPException code detail)) /\
    (code = 401 \/ code = 403).
Proof.
  intros Hrole. unfold create_job.
  destruct (get_current_user db now t) as [u | e]; [| eauto 6].
  replace (value_eqb (Identity.role u) (VStr (lit "employer"))) with false.
  - cbn [negb]. eauto 6.
  - symmetry. apply not_true_is_false. rewrite value_eqb_eq. apply Hrole. reflexivity.
Qed.

Lemma only_employers_create_jobs_witness :
  exists code detail,
    create_job (H := example_platform) example_db example_now
      (example_token "sam@mail.example" "admin") example_job_update
    = (example_db, Raise (HTTPException code detail)) /\
    (code = 401 \/ code = 403).
Proof.
  apply (only_employers_create_jobs (H := example_platform)).
  intros u Hu. vm_compute in Hu. injection Hu as <-. discriminate.
Defined.

(** X15: a job posted by an employer is stored with the twelve fields of
    the request, the caller as [created_by], the time of the request as
    [posted_date], active and with both counters at 0, under the identifier
    the driver picked; nothing else in the store changes.  (The jobs are
    assumed to have no unique index and no document under that identifier
    yet.) *)
Theorem posted_job_is_stored `{Platform} db now t job u :
  get_current_user db now t = Return u ->
  Identity.role u = VStr (lit "employer") ->
  (forall ix, List.In ix (indexes (jobs db)) -> idx_unique ix = false) ->
  (forall d, List.In d (docs (jobs db)) -> d !! "_id" <> Some (VOid (next_oid db))) ->
  exists stored,
    fst (create_job db now t job)
    = bump_oid (set_jobs {| docs := docs (jobs db) ++ [stored];
                            indexes := indexes (jobs db) |} db) /\
    stored_job (fst (create_job db now t job)) (next_oid db) = Some stored /\
    (forall k v, JobUpdate_model_dump job !! k = Some v -> stored !! k = Some v) /\
    stored !! "created_by" = Some (VStr (Identity.id u)) /\
    stored !! "posted_date" = Some (VDate now) /\
    stored !! "is_active" = Some (VBool true) /\
    stored !! "application_count" = Some (VInt 0) /\
    stored !! "view_count" = Some (VInt 0) /\
    stored !! "_id" = Some (VOid (next_oid db)).
Proof.
  intros Hg Hrole Hix Hfresh.
  set (stored := <["_id" := VOid (next_oid db)]> (job_dict now u job)).
  assert (Hins : insert_one (jobs db) (next_oid db) (job_dict now u job)
                 = Return (stored, {| docs := docs (jobs db) ++ [stored];
                                      indexes := indexes (jobs db) |})).
  { apply insert_one_fresh; [apply job_dict_no_id | exact Hix | exact Hfresh]. }
  assert (Hfst : fst (create_job db now t job)
                 = bump_oid (set_jobs {| docs := docs (jobs db) ++ [stored];
                                         indexes := indexes (jobs db) |} db)).
  { unfold create_job. rewrite Hg, Hrole.
    replace (value_eqb (VStr (lit "employer")) (VStr (lit "employer"))) with true
      by (symmetry; apply value_eqb_eq; reflexivity).
    cbn [negb]. rewrite Hins. reflexivity. }
  exists stored. split; [exact Hfst |]. split.
  { rewrite Hfst. unfold stored_job, find_one. cbn [bump_oid set_jobs jobs docs].
    apply find_snoc.
    - destruct (List.find _ (docs (jobs db))) as [d |] eqn:Hd; [| reflexivity].
      apply List.find_some in Hd. destruct Hd as [Hin Hm].
      apply matches_by_id_spec in Hm. destruct (Hfresh d Hin Hm).
    - apply matches_by_id_spec. apply lookup_insert_eq. }
  split.
  { intros k v Hk. unfold stored.
    assert (Hbase : k ∈ JobBase_fields) by (apply (proj2 (model_dump_keys job k)); eauto).
    unfold JobBase_fields in Hbase.
    repeat (apply elem_of_cons in Hbase;
            destruct Hbase as [-> | Hbase];
            [rewrite lookup_insert_ne by discriminate; rewrite job_dict_lookup; exact Hk |]).
    apply elem_of_nil in Hbase. destruct Hbase. }
  unfold stored. repeat split;
    (rewrite lookup_insert_ne by discriminate; rewrite job_dict_lookup; reflexivity)
    || apply lookup_insert_eq.
Qed.

Lemma posted_job_is_stored_witness :
  let t := example_token "erin@acme.example" "employer" in
  let u := {| Identity.id := ObjectId_str 1;
              Identity.email := VStr (lit "erin@acme.example");
              Identity.role := VStr (lit "employer") |} in
  exists stored,
    fst (create_job (H := example_platform) example_db example_now t example_job_update)
    = bump_oid (set_jobs {| docs := docs (jobs example_db) ++ [stored];
                            indexes := indexes (jobs example_db) |} example_db) /\
    stored_job (H := example_platform)
      (fst (create_job (H := example_platform) example_db example_now t example_job_update))
      (next_oid example_db) = Some stored /\
    (forall k v, JobUpdate_model_dump example_job_update !! k = Some v -> stored !! k = Some v) /\
    stored !! "created_by" = Some (VStr (Identity.id u)) /\
    stored !! "posted_date" = Some (VDate example_now) /\
    stored !! "is_active" = Some (VBool true) /\
    stored !! "application_count" = Some (VInt 0) /\
    stored !! "view_count" = Some (VInt 0) /\
    stored !! "_id" = Some (VOid (next_oid example_db)).
Proof.
  intros t u.
  apply (posted_job_is_stored (H := example_platform) example_db example_now t
           example_job_update u).
  - by_evaluation.
  - reflexivity.
  - apply no_unique_by_check. by_evaluation.
  - apply fresh_by_check. by_evaluation.
Defined.

(** X16: a job as [create_job] stores it is never matched by the filter
    that [get_recent_jobs_for_alerts] builds, whatever the alert asks for:
    the filter requires [posted_at], and the stored job has [posted_date]
    and no [posted_at]. *)
Theorem alerts_never_match_posted_jobs `{Platform} now u job fresh search_params
        last_triggered now' :
  matches (get_recent_jobs_for_alerts_query search_params last_triggered now')
          (<["_id" := VOid fresh]> (job_dict now u job)) = false.
Proof.
  apply not_true_is_false. intros Hm.
  destruct (alert_query_posted_at search_params last_triggered now') as (v & Hq & _).
  rewrite matches_spec in Hm. specialize (Hm _ _ Hq). cbn [eval_clause] in Hm.
  rewrite lookup_insert_ne, job_dict_no_posted_at in Hm by discriminate.
  rewrite range_needs_field in Hm. discriminate Hm.
Qed.

(** X17: whenever [delete_job] fails the store is left as it was, and
    unless the token itself was refused the answer is 400 "Invalid job
    ID": a malformed identifier, a job that does not exist and a caller who
    may not delete it are all answered alike, never with 403 or 404. *)
Theorem failed_job_deletion_answers_400 `{Platform} db now t job_id db' e :
  delete_job db now t job_id = (db', Raise e) ->
  db' = db /\
  (get_current_user db now t = Raise e \/ e = HTTPException 400 (lit "Invalid job ID")).
Proof.
  unfold delete_job. destruct (get_current_user db now t) as [u | e0].
  - pose proof (delete_job_body_spec db u job_id) as Hb.
    destruct (delete_job_body db u job_id) as [db1 [msg | e1]]; cbn [try_except].
    + discriminate.
    + intros [= <- <-]. split; [exact Hb | right; reflexivity].
  - intros [= <- <-]. split; [reflexivity | left; reflexivity].
Qed.

Lemma failed_job_deletion_answers_400_witness :
  let t := example_token "omar@other.example" "employer" in
  delete_job (H := example_platform) example_db example_now t (ObjectId_str 10)
  = (example_db, Raise (HTTPException 400 (lit "Invalid job ID"))) /\
  example_db = example_db /\
  (get_current_user (H := example_platform) example_db example_now t
   = Raise (HTTPException 400 (lit "Invalid job ID")) \/
   HTTPException 400 (lit "Invalid job ID") = HTTPException 400 (lit "Invalid job ID")).
Proof.
  intros t.
  assert (Hd : delete_job (H := example_platform) example_db example_now t (ObjectId_str 10)
               = (example_db, Raise (HTTPException 400 (lit "Invalid job ID"))))
    by by_evaluation.
  split; [exact Hd |].
  exact (failed_job_deletion_answers_400 (H := example_platform) example_db example_now t
           (ObjectId_str 10) example_db _ Hd).
Defined.

(** X18: [delete_job] succeeds only for the creator of the job or for a
    caller whose token says admin; it then takes exactly that job out of
    the jobs, leaves users and applications alone (the applications to the
    job stay), and a job stored under any other identifier is found as
    before. *)
Theorem job_deletion_removes_one_job `{Platform} db now t job_id db' msg :
  delete_job db now t job_id = (db', Return msg) ->
  exists u oid job l1 l2,
    get_current_user db now t = Return u /\
    ObjectId job_id = Some oid /\
    stored_job db oid = Some job /\
    (job !! "created_by" = Some (VStr (Identity.id u)) \/
     Identity.role u = VStr (lit "admin")) /\
    docs (jobs db) = l1 ++ job :: l2 /\
    docs (jobs db') = l1 ++ l2 /\
    users db' = users db /\ applications db' = applications db /\
    (forall oid', oid' <> oid -> stored_job db' oid' = stored_job db oid').
Proof.
  unfold delete_job. destruct (get_current_user db now t) as [u | e0]; [| discriminate].
  pose proof (delete_job_body_spec db u job_id) as Hb.
  destruct (delete_job_body db u job_id) as [db1 [m | e1]]; cbn [try_except]; [| discriminate].
  intros [= <- <-].
  destruct Hb as (oid & job & l1 & l2 & Ho & Hf & Hl & Hn & Hauth & -> & _).
  exists u, oid, job, l1, l2. cbn [set_jobs users jobs applications docs].
  repeat split; try assumption.
  intros oid' Hne. unfold stored_job, find_one. cbn [set_jobs jobs docs].
  rewrite Hl.
  destruct (find_one_some _ _ _ Hf) as [_ Hm].
  assert (Hm' : matches (by_id oid') job = false) by (eapply by_id_disjoint; eauto).
  clear -Hm'. induction l1 as [| x l1 IH]; cbn [List.app List.find].
  - rewrite Hm'. reflexivity.
  - destruct (matches (by_id oid') x); [reflexivity | exact IH].
Qed.

Lemma job_deletion_removes_one_job_witness :
  let t := example_token "erin@acme.example" "employer" in
  exists db' msg,
    delete_job (H := example_platform) example_db example_now t (ObjectId_str 10)
    = (db', Return msg) /\
    exists u oid job l1 l2,
      get_current_user (H := example_platform) example_db example_now t = Return u /\
      ObjectId (ObjectId_str 10) = Some oid /\
      stored_job (H := example_platform) example_db oid = Some job /\
      (job !! "created_by" = Some (VStr (Identity.id u)) \/
       Identity.role u = VStr (lit "admin")) /\
      docs (jobs example_db) = l1 ++ job :: l2 /\
      docs (jobs db') = l1 ++ l2 /\
      users db' = users example_db /\ applications db' = applications example_db /\
      (forall oid', oid' <> oid ->
                    stored_job (H := example_platform) db' oid'
                    = stored_job (H := example_platform) example_db oid').
Proof.
  intros t.
  assert (Hret : is_return (snd (delete_job (H := example_platform) example_db example_now t
                                   (ObjectId_str 10))) = true) by by_evaluation.
  destruct (delete_job (H := example_platform) example_db example_now t (ObjectId_str 10))
    as [db' [msg | e]] eqn:Hd; [| discriminate Hret].
  exists db', msg. split; [reflexivity |].
  exact (job_deletion_removes_one_job (H := example_platform) example_db example_now t
           (ObjectId_str 10) db' msg Hd).
Defined.

Section JobQueries.
Context `{Platform}.

Lemma lookup_if_insert (b : bool) (k k' : string) (cl : clause) (q : query) :
  k <> k' -> (if b then <[k' := cl]> q else q) !! k = q !! k.
Proof. intros Hk. destruct b; [apply lookup_insert_ne; congruence | reflexivity]. Qed.

Lemma search_query_is_active search location job_type work_mode
      salary_min experience_min experience_max skills :
  search_jobs_query search location job_type work_mode
    salary_min experience_min experience_max skills !! "is_active"
  = Some (Field (CEq (VBool true))).
Proof.
  unfold search_jobs_query. cbv zeta.
  rewrite !lookup_if_insert by discriminate. apply lookup_singleton_eq.
Qed.

Lemma get_jobs_query_is_active search location job_type :
  get_jobs_query search location job_type !! "is_active"
  = Some (Field (CEq (VBool true))).
Proof.
  unfold get_jobs_query. cbv zeta.
  rewrite !lookup_if_insert by discriminate. apply lookup_singleton_eq.
Qed.

Lemma is_active_clause (q : query) (d : doc) :
  q !! "is_active" = Some (Field (CEq (VBool true))) ->
  matches q d = true -> d !! "is_active" = Some (VBool true).
Proof.
  intros Hq Hm. rewrite matches_spec in Hm. specialize (Hm _ _ Hq).
  cbn [eval_clause eval_cond] in Hm. apply holds_eq_bool, Hm.
Qed.

Lemma matches_by_id_active oid (d : doc) :
  matches (by_id_active oid) d = true ->
  d !! "_id" = Some (VOid oid) /\ d !! "is_active" = Some (VBool true).
Proof.
  intros Hm. rewrite matches_spec in Hm. split.
  - apply holds_eq_oid. apply (Hm "_id"%string (Field (CEq (VOid oid)))).
    unfold by_id_active. now simplify_map_eq.
  - apply holds_eq_bool. apply (Hm "is_active"%string (Field (CEq (VBool true)))).
    unfold by_id_active. now simplify_map_eq.
Qed.
End JobQueries.

(** X19: [get_job] answers 404 "Job not found" for an identifier that is
    malformed as well as for one under which no active job is stored: an
    inactive job cannot be read, and a malformed identifier is not a 400
    here. *)
Theorem unreadable_job_answers_404 `{Platform} `{Library} db now job_id :
  ObjectId job_id = None \/
  (exists oid,
     ObjectId job_id = Some oid /\
     forall d, List.In d (docs (jobs db)) -> d !! "_id" = Some (VOid oid) ->
               d !! "is_active" <> Some (VBool true)) ->
  get_job db now job_id = Raise (HTTPException 404 (lit "Job not found")).
Proof.
  intros [Hbad | (oid & Ho & Hnone)]; unfold get_job, ObjectId_is_valid.
  - rewrite Hbad. reflexivity.
  - rewrite Ho.
    destruct (find_one (jobs db) (by_id_active oid)) as [job |] eqn:Hf; [| reflexivity].
    apply find_one_some in Hf. destruct Hf as [Hin Hm].
    apply matches_by_id_active in Hm. destruct Hm as [Hid Hact].
    destruct (Hnone job Hin Hid Hact).
Qed.

Lemma unreadable_job_answers_404_witness :
  get_job (H := example_platform) (H0 := example_library) example_db example_now
    (lit "10") = Raise (HTTPException 404 (lit "Job not found")) /\
  get_job (H := example_platform) (H0 := example_library) example_db example_now
    (ObjectId_str 12) = Raise (HTTPException 404 (lit "Job not found")).
Proof.
  split.
  - apply (unreadable_job_answers_404 (H := example_platform) (H0 := example_library)).
    left. reflexivity.
  - apply (unreadable_job_answers_404 (H := example_platform) (H0 := example_library)).
    right. exists 12%N. split; [by_evaluation |].
    intros d Hin Hid. exfalso. revert d Hin Hid. apply fresh_by_check. by_evaluation.
Defined.

(** X20: neither the filter of [get_jobs] nor the filter of [search_jobs]
    lets an inactive job through, whatever is searched for. *)
Theorem listings_show_active_jobs_only `{Platform} search location job_type work_mode
        salary_min experience_min experience_max skills (job : doc) :
  (matches (get_jobs_query search location job_type) job = true ->
   job !! "is_active" = Some (VBool true)) /\
  (matches (search_jobs_query search location job_type work_mode
              salary_min experience_min experience_max skills) job = true ->
   job !! "is_active" = Some (VBool true)).
Proof.
  split.
  - apply is_active_clause, get_jobs_query_is_active.
  - apply is_active_clause, search_query_is_active.
Qed.

(** X21: in [search_jobs] both [job_type] and [work_mode] are written to
    the [work_mode] of the filter, [work_mode] last: when [work_mode] is
    given, [job_type] has no effect. *)
Theorem work_mode_overrides_job_type search location job_type work_mode
        salary_min experience_min experience_max skills :
  nonempty work_mode = true ->
  search_jobs_query search location job_type work_mode
    salary_min experience_min experience_max skills
  = search_jobs_query search location [] work_mode
      salary_min experience_min experience_max skills.
Proof.
  intros Hw. unfold search_jobs_query. cbv zeta. rewrite Hw. cbn [nonempty].
  destruct (nonempty job_type); [| reflexivity].
  rewrite insert_insert_eq. reflexivity.
Qed.

Lemma work_mode_overrides_job_type_witness :
  search_jobs_query [] [] (lit "full_time") (lit "remote") 0 0 100 []
  = search_jobs_query [] [] [] (lit "remote") 0 0 100 [].
Proof. apply work_mode_overrides_job_type. reflexivity. Defined.

(* ===================================================================== *)
(** * Reading, updating and deleting applications *)
(* ===================================================================== *)

Section MoreApplicationFacts.
Context `{Platform} `{Library}.

Lemma for_each_Forall2 {A B} (f : A -> result B) (l : list A) (out : list B) :
  for_each f l = Return out -> List.Forall2 (fun x y => f x = Return y) l out.
Proof.
  revert out. induction l as [| x l IH]; intros out; cbn [for_each].
  - intros [= <-]. constructor.
  - destruct (f x) as [y |] eqn:Hx; [| discriminate].
    destruct (for_each f l) as [ys |]; [| discriminate].
    intros [= <-]. constructor; [exact Hx | apply IH; reflexivity].
Qed.

(** What one turn of the loop of [get_job_applications] returns. *)
Lemma with_applicant_spec db (application out : doc) :
  with_applicant db application = Return out ->
  out !! "_id" = None /\
  (exists oid, application !! "_id" = Some oid /\ out !! "id" = Some (VStr (py_str oid))) /\
  is_Some (out !! "applicant_name") /\ is_Some (out !! "applicant_email") /\
  forall k, k <> "_id"%string -> k <> "id"%string ->
            k <> "applicant_name"%string -> k <> "applicant_email"%string ->
            out !! k = application !! k.
Proof.
  unfold with_applicant, id_for_underscore_id, Application.
  destruct (application !! "_id") as [oid |] eqn:Hid; cbn; [| discriminate].
  destruct (getitem _ "user_id") as [user_id |]; cbn; [| discriminate].
  destruct (find_by_id_of (users db) user_id) as [user |]; cbn; [| discriminate].
  destruct (Application_validates _); [| discriminate].
  intros [= <-].
  destruct user as [user |];
    (split; [now simplify_map_eq |]);
    (split; [exists oid; split; [reflexivity | now simplify_map_eq] |]);
    (split; [now simplify_map_eq; eauto |]);
    (split; [now simplify_map_eq; eauto |]);
    intros k H1 H2 H3 H4; now simplify_map_eq.
Qed.

Lemma matches_by_job_id job_id (d : doc) :
  matches (by_job_id job_id) d = holds_eq (d !! "job_id") (VStr job_id).
Proof. apply matches_singleton. Qed.

(** What [delete_application] does once the caller is known. *)
Lemma delete_application_body_spec db u application_id :
  match delete_application_body db u application_id with
  | (db', Return msg) =>
      exists oid application l1 l2,
        ObjectId application_id = Some oid /\
        find_one (applications db) (by_id oid) = Some application /\
        docs (applications db) = l1 ++ application :: l2 /\
        (application !! "user_id" = Some (VStr (Identity.id u)) \/
         Identity.role u = VStr (lit "admin")) /\
        db' = set_applications
                {| docs := l1 ++ l2; indexes := indexes (applications db) |} db
  | (db', Raise _) => db' = db
  end.
Proof.
  unfold delete_application_body.
  destruct (ObjectId application_id) as [oid |] eqn:Ho; [| reflexivity].
  destruct (find_one (applications db) (by_id oid)) as [application |] eqn:Hf; [| reflexivity].
  destruct (application !! "user_id") as [user_id |] eqn:Hc; [| reflexivity].
  destruct (negb (value_eqb user_id _) && negb (value_eqb _ _)) eqn:Hauth; [reflexivity |].
  destruct (remove_first_some _ _ _ Hf) as (l1 & l2 & Hl & Hn & Hr).
  unfold delete_one. rewrite Hr. cbn.
  exists oid, application, l1, l2. repeat split; try assumption.
  apply andb_false_iff in Hauth. destruct Hauth as [Ha | Ha]; apply negb_false_iff in Ha;
    apply value_eqb_eq in Ha; [left | right]; congruence.
Qed.
End MoreApplicationFacts.

(** X22: [get_job_applications] answers with the applications only for
    the creator of the job or for a caller whose token says admin; the
    answer then has one entry for each stored application to the job, in
    their order, each with the stored fields, [id] in place of [_id], and
    the name and email of the applicant. *)
Theorem applications_of_a_job_go_to_its_owner `{Platform} `{Library} db now t job_id out :
  get_job_applications db now t job_id = Return out ->
  exists u oid job,
    get_current_user db now t = Return u /\
    ObjectId job_id = Some oid /\
    find_one (jobs db) (by_id oid) = Some job /\
    (job !! "created_by" = Some (VStr (Identity.id u)) \/
     Identity.role u = VStr (lit "admin")) /\
    List.Forall2
      (fun (application entry : doc) =>
         entry !! "_id" = None /\
         (exists v, application !! "_id" = Some v /\ entry !! "id" = Some (VStr (py_str v))) /\
         is_Some (entry !! "applicant_name") /\ is_Some (entry !! "applicant_email") /\
         forall k, k <> "_id"%string -> k <> "id"%string ->
                   k <> "applicant_name"%string -> k <> "applicant_email"%string ->
                   entry !! k = application !! k)
      (find (applications db) (by_job_id job_id)) out.
Proof.
  unfold get_job_applications.
  destruct (get_current_user db now t) as [u | e] eqn:Hg; cbn; [| discriminate].
  destruct (ObjectId job_id) as [oid |] eqn:Ho; [| discriminate].
  destruct (find_one (jobs db) (by_id oid)) as [job |] eqn:Hf; [| discriminate].
  destruct (negb (value_eqb (default VNull (job !! "created_by")) _) && negb _) eqn:Hauth;
    [discriminate |].
  intros Hout. exists u, oid, job.
  split; [reflexivity |]. split; [reflexivity |]. split; [exact Hf |]. split.
  - apply andb_false_iff in Hauth. destruct Hauth as [Ha | Ha];
      apply negb_false_iff in Ha; apply value_eqb_eq in Ha.
    + left. destruct (job !! "created_by"); cbn in Ha; congruence.
    + right. exact Ha.
  - apply for_each_Forall2 in Hout.
    eapply List.Forall2_impl; [| exact Hout].
    intros a b Hab. apply (with_applicant_spec db a b Hab).
Qed.

(** X23: [get_application] shows an application to the applicant and to
    the creator of the job it is for, and to nobody else, whatever the
    role in the token: for any other caller the answer is 404. *)
Theorem application_is_hidden_from_others `{Platform} `{Library}
        db now t application_id u oid application job :
  get_current_user db now t = Return u ->
  ObjectId application_id = Some oid ->
  find_one (applications db) (by_id_and_user oid (Identity.id u)) = None ->
  find_one (applications db) (by_id oid) = Some application ->
  find_by_id_of (jobs db) (default VNull (application !! "job_id")) = Return (Some job) ->
  job !! "created_by" <> Some (VStr (Identity.id u)) ->
  get_application db now t application_id
  = Raise (HTTPException 404 (lit "Application not found or not authorized to view")).
Proof.
  intros Hg Ho Hown Hf Hjob Hcreator.
  unfold get_application. rewrite Hg. cbn.
  unfold visible_application. rewrite Ho, Hown, Hf.
  destruct (get_truthy application "job_id"); [| reflexivity].
  rewrite Hjob. cbn.
  replace (value_eqb (default VNull (job !! "created_by")) (VStr (Identity.id u))) with false;
    [reflexivity |].
  symmetry. apply not_true_is_false. rewrite value_eqb_eq. intros Heq. apply Hcreator.
  destruct (job !! "created_by"); cbn in Heq; congruence.
Qed.

(** X24: [update_application] writes only to an application of the
    caller: for an identifier that is not one of the caller's own
    applications (the application of someone else, also when the caller
    created the job or is an administrator) the answer is 400 and the
    store stays as it was. *)
Theorem only_the_applicant_updates `{Platform} `{Library}
        db now t application_id application_update u :
  get_current_user db now t = Return u ->
  (forall oid, ObjectId application_id = Some oid ->
               find_one (applications db) (by_id_and_user oid (Identity.id u)) = None) ->
  update_application db now t application_id application_update
  = (db, Raise (HTTPException 400 (lit "Invalid application ID"))).
Proof.
  intros Hg Hown. unfold update_application. rewrite Hg.
  unfold update_application_body.
  destruct (ObjectId application_id) as [oid |]; [| reflexivity].
  specialize (Hown oid eq_refl).
  unfold matched_count, update_one. rewrite Hown.
  unfold find_one in Hown. rewrite (set_first_none _ _ _ Hown). cbn.
  rewrite collection_eta, set_applications_same. reflexivity.
Qed.

(** X25: whenever [delete_application] fails the store is left as it was,
    and unless the token itself was refused the answer is 400 "Invalid
    application ID", never the 403 or 404 that the handler raises
    inside. *)
Theorem failed_application_deletion_answers_400 `{Platform}
        db now t application_id db' e :
  delete_application db now t application_id = (db', Raise e) ->
  db' = db /\
  (get_current_user db now t = Raise e \/
   e = HTTPException 400 (lit "Invalid application ID")).
Proof.
  unfold delete_application. destruct (get_current_user db now t) as [u | e0].
  - pose proof (delete_application_body_spec db u application_id) as Hb.
    destruct (delete_application_body db u application_id) as [db1 [msg | e1]];
      cbn [try_except].
    + discriminate.
    + intros [= <- <-]. split; [exact Hb | right; reflexivity].
  - intros [= <- <-]. split; [reflexivity | left; reflexivity].
Qed.

(** X26: [delete_application] succeeds only for the applicant or for a
    caller whose token says admin (not for the creator of the job), and
    then takes exactly that application out of the store. *)
Theorem application_deletion_removes_one `{Platform} db now t application_id db' msg :
  delete_application db now t application_id = (db', Return msg) ->
  exists u oid application l1 l2,
    get_current_user db now t = Return u /\
    ObjectId application_id = Some oid /\
    find_one (applications db) (by_id oid) = Some application /\
    (application !! "user_id" = Some (VStr (Identity.id u)) \/
     Identity.role u = VStr (lit "admin")) /\
    docs (applications db) = l1 ++ application :: l2 /\
    docs (applications db') = l1 ++ l2 /\
    users db' = users db /\ jobs db' = jobs db.
Proof.
  unfold delete_application. destruct (get_current_user db now t) as [u | e0]; [| discriminate].
  pose proof (delete_application_body_spec db u application_id) as Hb.
  destruct (delete_application_body db u application_id) as [db1 [m | e1]];
    cbn [try_except]; [| discriminate].
  intros [= <- <-].
  destruct Hb as (oid & application & l1 & l2 & Ho & Hf & Hl & Hauth & ->).
  exists u, oid, application, l1, l2. cbn [set_applications users jobs applications docs].
  repeat split; assumption.
Qed.

Lemma applications_of_a_job_go_to_its_owner_witness :
  let t := example_token "erin@acme.example" "employer" in
  exists out,
    get_job_applications (H := example_platform) (H0 := example_library)
      example_db_applied example_now t (ObjectId_str 10) = Return out /\
    exists u oid job,
      get_current_user (H := example_platform) example_db_applied example_now t = Return u /\
      ObjectId (ObjectId_str 10) = Some oid /\
      find_one (H := example_platform) (jobs example_db_applied) (by_id oid) = Some job /\
      (job !! "created_by" = Some (VStr (Identity.id u)) \/
       Identity.role u = VStr (lit "admin")) /\
      List.Forall2
        (fun (application entry : doc) =>
           entry !! "_id" = None /\
           (exists v, application !! "_id" = Some v /\
                      entry !! "id" = Some (VStr (py_str (H := example_platform) v))) /\
           is_Some (entry !! "applicant_name") /\ is_Some (entry !! "applicant_email") /\
           forall k, k <> "_id"%string -> k <> "id"%string ->
                     k <> "applicant_name"%string -> k <> "applicant_email"%string ->
                     entry !! k = application !! k)
        (find (H := example_platform) (applications example_db_applied)
           (by_job_id (ObjectId_str 10))) out.
Proof.
  intros t.
  assert (Hret : is_return (get_job_applications (H := example_platform)
                              (H0 := example_library) example_db_applied example_now t
                              (ObjectId_str 10)) = true) by by_evaluation.
  destruct (get_job_applications (H := example_platform) (H0 := example_library)
              example_db_applied example_now t (ObjectId_str 10)) as [out | e] eqn:Hr;
    [| discriminate Hret].
  exists out. split; [reflexivity |].
  exact (applications_of_a_job_go_to_its_owner (H := example_platform) (H0 := example_library)
           example_db_applied example_now t (ObjectId_str 10) out Hr).
Defined.

Lemma application_is_hidden_from_others_witness :
  get_application (H := example_platform) (H0 := example_library) example_db_applied
    example_now (example_token "omar@other.example" "admin") (ObjectId_str 100)
  = Raise (HTTPException 404 (lit "Application not found or not authorized to view")).
Proof.
  apply (application_is_hidden_from_others (H := example_platform) (H0 := example_library)
           example_db_applied example_now (example_token "omar@other.example" "admin")
           (ObjectId_str 100) (example_identity 2 "omar@other.example" "admin") 100
           example_stored_application (job_doc 10 "Backend engineer" 1 ["Go"; "SQL"]%string)).
  - by_evaluation.
  - by_evaluation.
  - by_evaluation.
  - by_evaluation.
  - by_evaluation.
  - vm_compute. discriminate.
Defined.

Lemma only_the_applicant_updates_witness :
  update_application (H := example_platform) (H0 := example_library) example_db_applied
    example_now (example_token "erin@acme.example" "employer") (ObjectId_str 100)
    example_application_update
  = (example_db_applied, Raise (HTTPException 400 (lit "Invalid application ID"))).
Proof.
  apply (only_the_applicant_updates (H := example_platform) (H0 := example_library)
           example_db_applied example_now (example_token "erin@acme.example" "employer")
           (ObjectId_str 100) example_application_update
           (example_identity 1 "erin@acme.example" "employer")).
  - by_evaluation.
  - intros oid Ho.
    assert (Hoid : ObjectId (ObjectId_str 100) = Some 100%N) by by_evaluation.
    rewrite Hoid in Ho. injection Ho as <-. by_evaluation.
Defined.

Lemma failed_application_deletion_answers_400_witness :
  let t := example_token "erin@acme.example" "employer" in
  delete_application (H := example_platform) example_db_applied example_now t
    (ObjectId_str 100)
  = (example_db_applied, Raise (HTTPException 400 (lit "Invalid application ID"))) /\
  example_db_applied = example_db_applied /\
  (get_current_user (H := example_platform) example_db_applied example_now t
   = Raise (HTTPException 400 (lit "Invalid application ID")) \/
   HTTPException 400 (lit "Invalid application ID")
   = HTTPException 400 (lit "Invalid application ID")).
Proof.
  intros t.
  assert (Hd : delete_application (H := example_platform) example_db_applied example_now t
                 (ObjectId_str 100)
               = (example_db_applied,
                  Raise (HTTPException 400 (lit "Invalid application ID"))))
    by by_evaluation.
  split; [exact Hd |].
  exact (failed_application_deletion_answers_400 (H := example_platform) example_db_applied
           example_now t (ObjectId_str 100) example_db_applied _ Hd).
Defined.

Lemma application_deletion_removes_one_witness :
  let t := example_token "sam@mail.example" "job_seeker" in
  exists db' msg,
    delete_application (H := example_platform) example_db_applied example_now t
      (ObjectId_str 100) = (db', Return msg) /\
    exists u oid application l1 l2,
      get_current_user (H := example_platform) example_db_applied example_now t = Return u /\
      ObjectId (ObjectId_str 100) = Some oid /\
      find_one (H := example_platform) (applications example_db_applied) (by_id oid)
      = Some application /\
      (application !! "user_id" = Some (VStr (Identity.id u)) \/
       Identity.role u = VStr (lit "admin")) /\
      docs (applications example_db_applied) = l1 ++ application :: l2 /\
      docs (applications db') = l1 ++ l2 /\
      users db' = users example_db_applied /\ jobs db' = jobs example_db_applied.
Proof.
  intros t.
  assert (Hret : is_return (snd (delete_application (H := example_platform)
                                   example_db_applied example_now t (ObjectId_str 100)))
                 = true) by by_evaluation.
  destruct (delete_application (H := example_platform) example_db_applied example_now t
              (ObjectId_str 100)) as [db' [msg | e]] eqn:Hd;
    [| discriminate Hret].
  exists db', msg. split; [reflexivity |].
  exact (application_deletion_removes_one (H := example_platform) example_db_applied
           example_now t (ObjectId_str 100) db' msg Hd).
Defined.

(* ===================================================================== *)
(** * What creating the indexes does *)
(* ===================================================================== *)

Section IndexFacts.

Lemma has_duplicate_not_unique keys (l : list doc) :
  has_duplicate {| idx_keys := keys; idx_unique := false |} l = false.
Proof. induction l as [| d l IH]; [reflexivity |]. cbn. exact IH. Qed.

Lemma create_index_not_unique keys (c : collection) :
  create_index keys false c
  = Return {| docs := docs c;
              indexes := indexes c ++ [{| idx_keys := keys; idx_unique := false |}] |}.
Proof. unfold create_index. rewrite has_duplicate_not_unique. reflexivity. Qed.

(** A run of plain indexes always goes through. *)
Lemma create_all_not_unique specs (c : collection) :
  List.forallb (fun s => negb (snd s)) specs = true ->
  create_all specs c
  = {| docs := docs c;
       indexes := indexes c
                  ++ List.map (fun s => {| idx_keys := fst s; idx_unique := false |}) specs |}.
Proof.
  revert c. induction specs as [| [keys unique] specs IH]; intros c Hall.
  - cbn. rewrite List.app_nil_r. destruct c; reflexivity.
  - cbn in Hall. apply andb_true_iff in Hall. destruct Hall as [Hu Hall].
    apply negb_true_iff in Hu. subst unique.
    cbn [create_all]. rewrite create_index_not_unique, (IH _ Hall).
    cbn [docs indexes List.map fst]. rewrite <- List.app_assoc. reflexivity.
Qed.

Lemma users_after_create_indexes db :
  users (create_indexes db)
  = if has_duplicate email_index (docs (users db)) then users db
    else {| docs := docs (users db);
            indexes := indexes (users db)
                       ++ [ email_index;
                            {| idx_keys := ["role"%string]; idx_unique := false |};
                            {| idx_keys := ["is_active"%string]; idx_unique := false |};
                            {| idx_keys := ["created_at"%string]; idx_unique := false |} ] |}.
Proof.
  unfold create_indexes. cbn [users].
  change (create_all users_index_specs (users db))
    with (match create_index ["email"%string] true (users db) with
          | Return c' =>
              create_all [ (["role"%string], false); (["is_active"%string], false);
                           (["created_at"%string], false) ] c'
          | Raise _ => users db
          end).
  unfold create_index at 1. fold email_index.
  destruct (has_duplicate email_index (docs (users db))); [reflexivity |].
  rewrite create_all_not_unique by reflexivity.
  cbn [docs indexes List.map fst]. rewrite <- List.app_assoc. reflexivity.
Qed.
End IndexFacts.

(** X27: once [create_indexes] has run on users whose emails are all
    different, a registration that passes the checks but asks for an email
    that a stored user has is refused with 400 "Email already exists", and
    the store stays as it was. *)
Theorem indexed_emails_are_unique `{Platform} db now salt user (d : doc) :
  has_duplicate email_index (docs (users db)) = false ->
  validate_email (UserCreate.email user) = true ->
  (72 <? utf8_len (UserCreate.password user)) = false ->
  validate_password (UserCreate.password user) = true ->
  validate_mobile (UserCreate.mobile user) = true ->
  List.In d (docs (users db)) ->
  d !! "email" = Some (VStr (UserCreate.email user)) ->
  register (create_indexes db) now salt user
  = (create_indexes db, Raise (HTTPException 400 (lit "Email already exists"))).
Proof.
  intros Hdup He Hl Hp Hm Hd Hdemail.
  apply (register_existing_email (create_indexes db) now salt user d He Hl Hp Hm).
  - rewrite users_after_create_indexes, Hdup. cbn [indexes].
    apply List.in_or_app. right. left. reflexivity.
  - rewrite users_after_create_indexes, Hdup. exact Hd.
  - exact Hdemail.
Qed.

Lemma indexed_emails_are_unique_witness :
  let user := {| UserCreate.email := lit "sam@mail.example";
                 UserCreate.full_name := lit "Another Sam";
                 UserCreate.role := EMPLOYER;
                 UserCreate.password := lit "Passw0rd!";
                 UserCreate.mobile := lit "9876543210";
                 UserCreate.resume_url := [];
                 UserCreate.is_active := true |} in
  register (H := example_platform) (create_indexes example_db) example_now (lit "salt") user
  = (create_indexes example_db, Raise (HTTPException 400 (lit "Email already exists"))).
Proof.
  intros user.
  apply (indexed_emails_are_unique (H := example_platform) example_db example_now
           (lit "salt") user (user_doc 3 "sam@mail.example" "Sam" "job_seeker" true)).
  - by_evaluation.
  - by_evaluation.
  - by_evaluation.
  - by_evaluation.
  - by_evaluation.
  - right. right. left. reflexivity.
  - by_evaluation.
Defined.

(** X28: [create_indexes] leaves every document alone.  It gives the users
    the unique index on the email, and their three other indexes, exactly
    when no two stored users share an email; when two do, the users get
    none of the four.  The jobs and the applications always get their
    indexes, none of them unique: in particular nothing makes the pair of
    user and job of an application unique. *)
Theorem create_indexes_effect db :
  docs (users (create_indexes db)) = docs (users db) /\
  docs (jobs (create_indexes db)) = docs (jobs db) /\
  docs (applications (create_indexes db)) = docs (applications db) /\
  (has_duplicate email_index (docs (users db)) = false ->
   List.In email_index (indexes (users (create_indexes db)))) /\
  (has_duplicate email_index (docs (users db)) = true ->
   indexes (users (create_indexes db)) = indexes (users db)) /\
  (forall ix, List.In ix (indexes (jobs (create_indexes db))) ->
              List.In ix (indexes (jobs db)) \/ idx_unique ix = false) /\
  (forall ix, List.In ix (indexes (applications (create_indexes db))) ->
              List.In ix (indexes (applications db)) \/ idx_unique ix = false).
Proof.
  assert (Hj : jobs (create_indexes db)
               = {| docs := docs (jobs db);
                    indexes := indexes (jobs db)
                               ++ List.map (fun s => {| idx_keys := fst s; idx_unique := false |})
                                    jobs_index_specs |})
    by (apply create_all_not_unique; reflexivity).
  assert (Ha : applications (create_indexes db)
               = {| docs := docs (applications db);
                    indexes := indexes (applications db)
                               ++ List.map (fun s => {| idx_keys := fst s; idx_unique := false |})
                                    applications_index_specs |})
    by (apply create_all_not_unique; reflexivity).
  rewrite Hj, Ha, users_after_create_indexes. cbn [docs indexes].
  split; [destruct (has_duplicate _ _); reflexivity |].
  split; [reflexivity |]. split; [reflexivity |].
  split; [intros ->; cbn [indexes]; apply List.in_or_app; right; left; reflexivity |].
  split; [intros ->; reflexivity |].
  split; intros ix Hin; apply List.in_app_or in Hin; destruct Hin as [Hin | Hin];
    try (left; exact Hin); right;
    apply List.in_map_iff in Hin; destruct Hin as (s & <- & _); reflexivity.
Qed.
